(** * SPIFlashA: a model of the SPANSION S25FL127S SPI flash driver

    The driver (src/SPIFlashA.cpp, src/SPIFlashA.h) talks to one flash chip
    over the shared SPI bus of an AVR microcontroller.  Every method is
    embedded as a function of a state-and-failure monad over a record that
    holds the object's fields, the hardware registers the methods touch and
    the trace of what happened on the bus.

    - Bytes are [Z] values in [0, 256); [long] values are [Z] with the
      32-bit wrap-around written out.
    - The flash chip is a parameter: any function from the bus history to
      the byte it shifts out during the next transfer.
    - The Arduino SPI library is a parameter as well (class [SPIClass]);
      [AVR_SPI] is the instance of the AVR core.
    - [while (busy());] may spin for ever, so the loops take fuel and the
      methods return [None] when it runs out.
    - The model is the build for boards other than the ATmega32U4 (the
      [#else] branches of the two [#if defined(__AVR_ATmega32U4__)]). *)

From Stdlib Require Import String Ascii ZArith List Bool Lia.
Import ListNotations.
Local Open Scope Z_scope.

(** ** Opcodes (SPIFlashA.h) *)

Definition SPIFLASH_STATUSWRITE      : Z := 0x01.
Definition SPIFLASH_BYTEPAGEPROGRAM  : Z := 0x02.
Definition SPIFLASH_ARRAYREADLOWFREQ : Z := 0x03.
Definition SPIFLASH_WRITEDISABLE     : Z := 0x04.
Definition SPIFLASH_STATUSREAD       : Z := 0x05.
Definition SPIFLASH_WRITEENABLE      : Z := 0x06.
Definition SPIFLASH_STATUSREAD2      : Z := 0x07.
Definition SPIFLASH_ARRAYREAD        : Z := 0x0B.
Definition SPIFLASH_BLOCKERASE_4K    : Z := 0x20.
Definition SPIFLASH_CHIPERASE        : Z := 0x60.
Definition SPIFLASH_MACREAD          : Z := 0x4B.
Definition SPIFLASH_IDREAD           : Z := 0x9f.
Definition SPIFLASH_BLOCKERASE_64K   : Z := 0xD8.

(** ** Machine integers *)

(** Conversion to [uint8_t], as at every call of [SPI.transfer]. *)
Definition to_byte (z : Z) : Z := z mod 256.

(** Conversion to the 32-bit signed [long] of the AVR (two's complement). *)
Definition to_long (z : Z) : Z := (z + 2 ^ 31) mod 2 ^ 32 - 2 ^ 31.

Definition long_add (a b : Z) : Z := to_long (a + b).

(** ** The bus and the serial console *)

(** What an observer of the bus sees: the slave-select pin of the flash
    chip driven low or high, and one byte exchanged in each direction. *)
Inductive event : Type :=
| CS_LOW
| CS_HIGH
| Xfer (mosi miso : Z).

Inductive base : Type := BIN | HEX.

Inductive serial_event : Type :=
| SerialPrint (s : string)
| SerialPrintNum (v : Z) (b : base)
| SerialPrintln
| SerialPrintlnNum (v : Z) (b : base).

(** ** The Arduino SPI library

    [SPI.setDataMode], [SPI.setBitOrder], [SPI.setClockDivider],
    [SPI.begin] and [SPI.end] belong to the Arduino core, not to this
    repository.  They are taken as functions on the pair of registers
    (SPCR, SPSR), the part of the hardware the driver saves and restores
    around them; what [SPI.begin] does to the pins of the SPI port is not
    followed: the only pin of the model is the select pin of the flash
    chip, and only the driver's own [digitalWrite] moves it. *)

Definition spi_regs : Type := (Z * Z)%type.

Class SPIClass : Type := {
  SPI_MODE0 : Z;
  MSBFIRST : Z;
  SPI_CLOCK_DIV4 : Z;
  setDataMode : Z -> spi_regs -> spi_regs;
  setBitOrder : Z -> spi_regs -> spi_regs;
  setClockDivider : Z -> spi_regs -> spi_regs;
  SPI_begin : spi_regs -> spi_regs;
  SPI_end : spi_regs -> spi_regs
}.

(** The library of the AVR core, for the examples: mode in bits 2-3 of
    SPCR, bit order in bit 5 (DORD), clock rate in bits 0-1 of SPCR and
    bit 0 of SPSR, master and enable in bits 4 (MSTR) and 6 (SPE). *)
Definition clear_bits (mask v : Z) : Z := Z.land v (Z.lxor 0xFF mask).

#[global] Instance AVR_SPI : SPIClass := {
  SPI_MODE0 := 0x00;
  MSBFIRST := 1;
  SPI_CLOCK_DIV4 := 0x00;
  setDataMode mode r := (Z.lor (clear_bits 0x0C (fst r)) mode, snd r);
  setBitOrder order r :=
    (if order =? 0 then Z.lor (fst r) 0x20 else clear_bits 0x20 (fst r), snd r);
  setClockDivider rate r :=
    (Z.lor (clear_bits 0x03 (fst r)) (Z.land rate 0x03),
     Z.lor (clear_bits 0x01 (snd r)) (Z.land (Z.shiftr rate 2) 0x01));
  SPI_begin r := (Z.lor (Z.lor (fst r) 0x10) 0x40, snd r);
  SPI_end r := (clear_bits 0x40 (fst r), snd r)
}.

(** ** State *)

(** The fields of a [SPIFlashA] object, the static [UNIQUEID] array and the
    hardware the methods act on.  [SS] is the level of pin
    [_slaveSelectPin] ([true] is HIGH, the chip deselected), [irq] the
    global interrupt enable. *)
Record state : Type := mkState {
  _slaveSelectPin : Z;
  _jedecID : Z;
  _SPCR : Z;
  _SPSR : Z;
  UNIQUEID : list Z;
  SPCR : Z;
  SPSR : Z;
  SS : bool;
  SS_output : bool;
  irq : bool;
  bus : list event;
  serial : list serial_event
}.

Definition LOW : bool := false.
Definition HIGH : bool := true.

(** ** The monad of the methods *)

Definition M (A : Type) : Type := state -> option (A * state).

Definition ret {A : Type} (a : A) : M A := fun s => Some (a, s).

Definition bind {A B : Type} (m : M A) (k : A -> M B) : M B :=
  fun s => match m s with
           | Some (a, s') => k a s'
           | None => None
           end.

Declare Scope flash_scope.
Delimit Scope flash_scope with flash.
Notation "x <- m ;; k" := (bind m (fun x => k))
  (at level 61, m at next level, right associativity) : flash_scope.
Notation "m ;; k" := (bind m (fun _ => k))
  (at level 61, right associativity) : flash_scope.
Local Open Scope flash_scope.

Definition gets {A : Type} (f : state -> A) : M A := fun s => Some (f s, s).
Definition modify (f : state -> state) : M unit := fun s => Some (tt, f s).

(** Field updates. *)
Definition set_saved (c r : Z) (s : state) : state :=
  mkState (_slaveSelectPin s) (_jedecID s) c r (UNIQUEID s) (SPCR s) (SPSR s)
          (SS s) (SS_output s) (irq s) (bus s) (serial s).
Definition set_regs (r : spi_regs) (s : state) : state :=
  mkState (_slaveSelectPin s) (_jedecID s) (_SPCR s) (_SPSR s) (UNIQUEID s)
          (fst r) (snd r) (SS s) (SS_output s) (irq s) (bus s) (serial s).
Definition set_SS (v : bool) (s : state) : state :=
  mkState (_slaveSelectPin s) (_jedecID s) (_SPCR s) (_SPSR s) (UNIQUEID s)
          (SPCR s) (SPSR s) v (SS_output s) (irq s)
          (bus s ++ [if v then CS_HIGH else CS_LOW]) (serial s).
Definition set_SS_output (v : bool) (s : state) : state :=
  mkState (_slaveSelectPin s) (_jedecID s) (_SPCR s) (_SPSR s) (UNIQUEID s)
          (SPCR s) (SPSR s) (SS s) v (irq s) (bus s) (serial s).
Definition set_irq (v : bool) (s : state) : state :=
  mkState (_slaveSelectPin s) (_jedecID s) (_SPCR s) (_SPSR s) (UNIQUEID s)
          (SPCR s) (SPSR s) (SS s) (SS_output s) v (bus s) (serial s).
Definition emit (e : event) (s : state) : state :=
  mkState (_slaveSelectPin s) (_jedecID s) (_SPCR s) (_SPSR s) (UNIQUEID s)
          (SPCR s) (SPSR s) (SS s) (SS_output s) (irq s) (bus s ++ [e])
          (serial s).
Definition console (l : list serial_event) (s : state) : state :=
  mkState (_slaveSelectPin s) (_jedecID s) (_SPCR s) (_SPSR s) (UNIQUEID s)
          (SPCR s) (SPSR s) (SS s) (SS_output s) (irq s) (bus s)
          (serial s ++ l).

(** [a[i] = v] on an array held as a list. *)
Fixpoint store (a : list Z) (i : nat) (v : Z) : list Z :=
  match a, i with
  | [], _ => []
  | _ :: a', O => v :: a'
  | x :: a', S i' => x :: store a' i' v
  end.

Definition put_UNIQUEID (a : list Z) (s : state) : state :=
  mkState (_slaveSelectPin s) (_jedecID s) (_SPCR s) (_SPSR s) a
          (SPCR s) (SPSR s) (SS s) (SS_output s) (irq s) (bus s) (serial s).
Definition set_UNIQUEID (i : nat) (v : Z) (s : state) : state :=
  put_UNIQUEID (store (UNIQUEID s) i v) s.

(** The constructor: it sets the two configuration fields and leaves
    the rest of the object as it finds it. *)
Definition SPIFlashA (slaveSelectPin jedecID : Z) (s : state) : state :=
  mkState (to_byte slaveSelectPin) (to_long jedecID) (_SPCR s) (_SPSR s)
          (UNIQUEID s) (SPCR s) (SPSR s) (SS s) (SS_output s) (irq s) (bus s)
          (serial s).

(** ** The methods of [SPIFlashA] *)

Section Driver.

Context {spi : SPIClass}.

(** The flash chip: the byte it shifts out during a transfer is a function
    of everything that happened on the bus before. *)
Variable chip : list event -> Z.

(** *** Hardware primitives *)

Definition noInterrupts : M unit := modify (set_irq false).
Definition interrupts : M unit := modify (set_irq true).

(** [pinMode(_slaveSelectPin, OUTPUT)]. *)
Definition pinMode_OUTPUT : M unit := modify (set_SS_output true).

(** [digitalWrite(_slaveSelectPin, level)]. *)
Definition digitalWrite (level : bool) : M unit := modify (set_SS level).

(** [_SPCR = SPCR; _SPSR = SPSR;] *)
Definition save_SPI_settings : M unit :=
  modify (fun s => set_saved (SPCR s) (SPSR s) s).

(** [SPCR = _SPCR; SPSR = _SPSR;] *)
Definition restore_SPI_settings : M unit :=
  modify (fun s => set_regs (_SPCR s, _SPSR s) s).

Definition SPI_library (f : spi_regs -> spi_regs) : M unit :=
  modify (fun s => set_regs (f (SPCR s, SPSR s)) s).

(** [SPI.transfer(data)]: the argument is cut to a byte, the chip answers
    with a byte. *)
Definition SPI_transfer (data : Z) : M Z :=
  fun s => let r := to_byte (chip (bus s)) in
           Some (r, emit (Xfer (to_byte data) r) s).

Definition Serial_print (str : string) : M unit :=
  modify (console [SerialPrint str]).
Definition Serial_print_num (v : Z) (b : base) : M unit :=
  modify (console [SerialPrintNum v b]).
Definition Serial_println : M unit := modify (console [SerialPrintln]).
Definition Serial_println_num (v : Z) (b : base) : M unit :=
  modify (console [SerialPrintlnNum v b]).

(** *** select, unselect *)

Definition select : M unit :=
  noInterrupts ;;
  save_SPI_settings ;;
  SPI_library (setDataMode SPI_MODE0) ;;
  SPI_library (setBitOrder MSBFIRST) ;;
  SPI_library (setClockDivider SPI_CLOCK_DIV4) ;;
  SPI_library SPI_begin ;;
  digitalWrite LOW.

Definition unselect : M unit :=
  digitalWrite HIGH ;;
  restore_SPI_settings ;;
  interrupts.

(** *** readStatus, busy and the wait loop *)

Definition readStatus : M Z :=
  select ;;
  SPI_transfer SPIFLASH_STATUSREAD ;;
  status <- SPI_transfer 0 ;;
  unselect ;;
  ret status.

(** [return readStatus() & 1;] as a boolean. *)
Definition busy : M bool :=
  status <- readStatus ;;
  ret (negb (Z.land status 1 =? 0)).

(** [while (busy());] with a bound on the number of polls. *)
Fixpoint while_busy (fuel : nat) : M unit :=
  match fuel with
  | O => fun _ => None
  | S fuel' => b <- busy ;; if b then while_busy fuel' else ret tt
  end.

(** *** command

    [command(cmd, isWrite)] calls itself once, with [isWrite] at its
    default [false], so the recursion is written out: [command_plain] is
    the body below the [if (isWrite)]. *)
Definition command_plain (fuel : nat) (cmd : Z) : M unit :=
  while_busy fuel ;;
  select ;;
  SPI_transfer cmd ;;
  ret tt.

Definition command (fuel : nat) (cmd : Z) (isWrite : bool) : M unit :=
  (if isWrite
   then command_plain fuel SPIFLASH_WRITEENABLE ;; unselect
   else ret tt) ;;
  command_plain fuel cmd.

(** *** sleep, wakeup, end *)

Definition sleep : M unit := ret tt.
Definition wakeup : M unit := ret tt.
Definition end_ : M unit := SPI_library SPI_end.

(** *** Identification *)

(** [readDeviceId] as it is compiled for boards other than the
    ATmega32U4: the [#else] branch, [select(); SPI.transfer(0x9f);].
    (For the ATmega32U4 the source has [command(SPIFLASH_IDREAD)] there,
    which waits for the chip first; that build is not modelled.) *)
Definition readDeviceId : M Z :=
  let jedecid := 0 in
  select ;;
  SPI_transfer SPIFLASH_IDREAD ;;
  b2 <- SPI_transfer 0 ;;
  let jedecid := Z.lor jedecid (Z.shiftl b2 16) in
  b1 <- SPI_transfer 0 ;;
  let jedecid := Z.lor jedecid (Z.shiftl b1 8) in
  b0 <- SPI_transfer 0 ;;
  let jedecid := Z.lor jedecid b0 in
  unselect ;;
  ret jedecid.

(** [for (byte i = 0; i < 12; i++) UNIQUEID[i] = SPI.transfer(0);] with
    [n] iterations left, starting at index [i]. *)
Fixpoint fill_UNIQUEID (n i : nat) : M unit :=
  match n with
  | O => ret tt
  | S n' => b <- SPI_transfer 0 ;;
            modify (set_UNIQUEID i b) ;;
            fill_UNIQUEID n' (S i)
  end.

Definition readUniqueId (fuel : nat) : M (list Z) :=
  command fuel SPIFLASH_MACREAD false ;;
  SPI_transfer 0 ;;
  SPI_transfer 0 ;;
  SPI_transfer 0 ;;
  SPI_transfer 0 ;;
  fill_UNIQUEID 12 0 ;;
  unselect ;;
  gets UNIQUEID.

Definition initialize (fuel : nat) : M bool :=
  save_SPI_settings ;;
  pinMode_OUTPUT ;;
  unselect ;;
  wakeup ;;
  while_busy fuel ;;
  id <- gets _jedecID ;;
  ok <- (if id =? 0 then ret true
         else (dev <- readDeviceId ;; ret (dev =? id))) ;;
  if ok : bool then
    command fuel SPIFLASH_STATUSWRITE true ;;
    SPI_transfer 0 ;;
    unselect ;;
    ret true
  else ret false.

(** *** Reading *)

(** The three address bytes, as the three calls
    [SPI.transfer(addr >> 16); SPI.transfer(addr >> 8); SPI.transfer(addr);]
    pass them. *)
Definition send_address (addr : Z) : M unit :=
  SPI_transfer (Z.shiftr addr 16) ;;
  SPI_transfer (Z.shiftr addr 8) ;;
  SPI_transfer addr ;;
  ret tt.

Definition readByte (fuel : nat) (addr : Z) : M Z :=
  command fuel SPIFLASH_ARRAYREADLOWFREQ false ;;
  send_address addr ;;
  result <- SPI_transfer 0 ;;
  unselect ;;
  ret result.

(** [for (word i = 0; i < len; ++i) buf[i] = SPI.transfer(0);] *)
Fixpoint read_loop (len : nat) : M (list Z) :=
  match len with
  | O => ret []
  | S len' => b <- SPI_transfer 0 ;;
              rest <- read_loop len' ;;
              ret (b :: rest)
  end.

(** [readBytes] with a buffer of the caller's own, apart from the memory
    of the driver: the result is what the method leaves in
    [buf[0 .. len-1]].  The call that hands the method the driver's own
    public array, [readBytes(addr, SPIFlashA::UNIQUEID + k, len)], is
    [readBytes_into_UNIQUEID] below. *)
Definition readBytes (fuel : nat) (addr : Z) (len : nat) : M (list Z) :=
  command fuel SPIFLASH_ARRAYREAD false ;;
  send_address addr ;;
  SPI_transfer 0 ;;
  buf <- read_loop len ;;
  unselect ;;
  ret buf.

(** *** Writing *)

Definition writeByte (fuel : nat) (addr byt : Z) : M unit :=
  command fuel SPIFLASH_BYTEPAGEPROGRAM true ;;
  send_address addr ;;
  SPI_transfer byt ;;
  unselect.

(** [for (uint16_t i = 0; i < len; i++) SPI.transfer(buf[i]);] with [n]
    iterations left, starting at index [i]. *)
Fixpoint write_loop (buf : list Z) (n i : nat) : M unit :=
  match n with
  | O => ret tt
  | S n' => SPI_transfer (nth i buf 0) ;; write_loop buf n' (S i)
  end.

Definition writeBytes (fuel : nat) (addr : Z) (buf : list Z) (len : nat)
  : M unit :=
  command fuel SPIFLASH_BYTEPAGEPROGRAM true ;;
  send_address addr ;;
  write_loop buf len 0 ;;
  unselect.

(** *** Erasing *)

Definition bulkErase (fuel : nat) : M unit :=
  command fuel SPIFLASH_CHIPERASE true ;;
  unselect.

Definition blockErase4K (fuel : nat) (addr : Z) : M unit :=
  command fuel SPIFLASH_BLOCKERASE_4K true ;;
  send_address addr ;;
  unselect.

Definition blockErase64K (fuel : nat) (addr : Z) : M unit :=
  command fuel SPIFLASH_BLOCKERASE_64K true ;;
  send_address addr ;;
  unselect.

(** [for (int i = 0; i < 8; i++) { erase(addr); addr = addr + step; }]
    with [n] iterations left. *)
Fixpoint erase_loop (erase : Z -> M unit) (step : Z) (n : nat) (addr : Z)
  : M unit :=
  match n with
  | O => ret tt
  | S n' => erase addr ;; erase_loop erase step n' (long_add addr step)
  end.

Definition blockErase32K (fuel : nat) (addr : Z) : M unit :=
  erase_loop (blockErase4K fuel) 4096 8 addr.

Definition blockErase512K (fuel : nat) (addr : Z) : M unit :=
  erase_loop (blockErase64K fuel) 65536 8 addr.

Definition chipErase (fuel : nat) : M unit := blockErase512K fuel 0.

(** *** Printing *)

Definition label_status1 : string :=
  String (ascii_of_nat 10) (String (ascii_of_nat 13)
    "Status Register 1 (Binary): ").
Definition label_status2 : string := "Status Register 2 (Binary): ".

Definition printStatus : M unit :=
  select ;;
  SPI_transfer SPIFLASH_STATUSREAD ;;
  Serial_print label_status1 ;;
  s1 <- SPI_transfer 0 ;;
  Serial_println_num s1 BIN ;;
  SPI_transfer SPIFLASH_STATUSREAD2 ;;
  Serial_print label_status2 ;;
  s2 <- SPI_transfer 0 ;;
  Serial_println_num s2 BIN ;;
  unselect.

(** The body of [for (int i = 0; i < 320; i++)] in [printRDID], with [n]
    iterations left at index [i]; the sum [rdid] is never read. *)
Fixpoint rdid_loop (n : nat) (i : Z) : M unit :=
  match n with
  | O => ret tt
  | S n' =>
      b <- SPI_transfer 0 ;;
      (if (0 <? i) && (i mod 32 =? 0) then Serial_println else ret tt) ;;
      (if b <? 0x10 then Serial_print "0" else ret tt) ;;
      Serial_print_num b HEX ;;
      Serial_print " " ;;
      rdid_loop n' (i + 1)
  end.

Definition printRDID : M unit :=
  select ;;
  SPI_transfer SPIFLASH_IDREAD ;;
  rdid_loop 320 0 ;;
  Serial_println ;;
  unselect.

End Driver.

(** ** The public interface

    The methods under [public:] in SPIFlashA.h, in the order of the
    header, and what they hand back to the caller.  [readBytes] is [void]
    and fills the caller's buffer: [R_filled] holds what it put there.
    [readUniqueId] returns a pointer to [UNIQUEID]: [R_bytes] holds the
    array it points to. *)

Inductive public_op : Type :=
| Op_initialize
| Op_command (cmd : Z) (isWrite : bool)
| Op_readStatus
| Op_printStatus
| Op_printRDID
| Op_readByte (addr : Z)
| Op_readBytes (addr : Z) (len : nat)
| Op_writeByte (addr byt : Z)
| Op_writeBytes (addr : Z) (buf : list Z) (len : nat)
| Op_busy
| Op_chipErase
| Op_bulkErase
| Op_blockErase4K (addr : Z)
| Op_blockErase32K (addr : Z)
| Op_blockErase64K (addr : Z)
| Op_blockErase512K (addr : Z)
| Op_readDeviceId
| Op_readUniqueId
| Op_sleep
| Op_wakeup
| Op_end.

Inductive result : Type :=
| R_void
| R_boolean (b : bool)
| R_byte (v : Z)
| R_long (v : Z)
| R_bytes (l : list Z)
| R_filled (buf : list Z).

Definition void (m : M unit) : M result := m ;; ret R_void.

Definition run {spi : SPIClass} (chip : list event -> Z) (fuel : nat)
  (op : public_op) : M result :=
  match op with
  | Op_initialize => b <- initialize chip fuel ;; ret (R_boolean b)
  | Op_command cmd isWrite => void (command chip fuel cmd isWrite)
  | Op_readStatus => v <- readStatus chip ;; ret (R_byte v)
  | Op_printStatus => void (printStatus chip)
  | Op_printRDID => void (printRDID chip)
  | Op_readByte addr => v <- readByte chip fuel addr ;; ret (R_byte v)
  | Op_readBytes addr len =>
      buf <- readBytes chip fuel addr len ;; ret (R_filled buf)
  | Op_writeByte addr byt => void (writeByte chip fuel addr byt)
  | Op_writeBytes addr buf len => void (writeBytes chip fuel addr buf len)
  | Op_busy => b <- busy chip ;; ret (R_boolean b)
  | Op_chipErase => void (chipErase chip fuel)
  | Op_bulkErase => void (bulkErase chip fuel)
  | Op_blockErase4K addr => void (blockErase4K chip fuel addr)
  | Op_blockErase32K addr => void (blockErase32K chip fuel addr)
  | Op_blockErase64K addr => void (blockErase64K chip fuel addr)
  | Op_blockErase512K addr => void (blockErase512K chip fuel addr)
  | Op_readDeviceId => v <- readDeviceId chip ;; ret (R_long v)
  | Op_readUniqueId => l <- readUniqueId chip fuel ;; ret (R_bytes l)
  | Op_sleep => void sleep
  | Op_wakeup => void wakeup
  | Op_end => void end_
  end.

(** The write and erase methods, with the opcode each one is for. *)
Definition real_opcode (op : public_op) : option Z :=
  match op with
  | Op_initialize => Some SPIFLASH_STATUSWRITE
  | Op_writeByte _ _ | Op_writeBytes _ _ _ => Some SPIFLASH_BYTEPAGEPROGRAM
  | Op_blockErase4K _ => Some SPIFLASH_BLOCKERASE_4K
  | Op_blockErase64K _ => Some SPIFLASH_BLOCKERASE_64K
  | Op_bulkErase => Some SPIFLASH_CHIPERASE
  | _ => None
  end.

(** The methods that take an address: opcode, address, and the bytes the
    method sends after the address. *)
Definition addressed (op : public_op) : option (Z * Z * list Z) :=
  match op with
  | Op_readByte addr => Some (SPIFLASH_ARRAYREADLOWFREQ, addr, [0])
  | Op_readBytes addr len => Some (SPIFLASH_ARRAYREAD, addr, 0 :: repeat 0 len)
  | Op_writeByte addr byt =>
      Some (SPIFLASH_BYTEPAGEPROGRAM, addr, [to_byte byt])
  | Op_writeBytes addr buf len =>
      Some (SPIFLASH_BYTEPAGEPROGRAM, addr,
            map (fun i => to_byte (nth i buf 0)) (seq 0 len))
  | Op_blockErase4K addr => Some (SPIFLASH_BLOCKERASE_4K, addr, [])
  | Op_blockErase64K addr => Some (SPIFLASH_BLOCKERASE_64K, addr, [])
  | _ => None
  end.

(** ** Reading a bus trace *)

(** A frame is what is exchanged while the chip is selected: the pairs
    (byte sent, byte received), the first byte sent being the opcode. *)
Definition frame : Type := list (Z * Z).

Fixpoint payload (tr : list event) : frame :=
  match tr with
  | Xfer o i :: tr' => (o, i) :: payload tr'
  | _ => []
  end.

Fixpoint frames (tr : list event) : list frame :=
  match tr with
  | [] => []
  | CS_LOW :: tr' => payload tr' :: frames tr'
  | _ :: tr' => frames tr'
  end.

Definition opcode (f : frame) : list Z :=
  match f with
  | (o, _) :: _ => [o]
  | [] => []
  end.

Definition opcodes (tr : list event) : list Z := flat_map opcode (frames tr).

(** The bytes the driver sends in a frame. *)
Definition mosi (f : frame) : list Z := map fst f.

(** Every byte the driver puts on the bus. *)
Fixpoint sent (tr : list event) : list Z :=
  match tr with
  | [] => []
  | Xfer o _ :: tr' => o :: sent tr'
  | _ :: tr' => sent tr'
  end.

(** The select discipline: the chip is selected only when it is not,
    bytes move only while it is selected, and the trace ends deselected.
    [asserted] tells whether the chip is selected where the trace starts. *)
Fixpoint cs_discipline (asserted : bool) (tr : list event) : bool :=
  match tr with
  | [] => negb asserted
  | CS_LOW :: tr' => negb asserted && cs_discipline true tr'
  | CS_HIGH :: tr' => cs_discipline false tr'
  | Xfer _ _ :: tr' => asserted && cs_discipline true tr'
  end.

(** One status poll: opcode 0x05, then a byte to clock the status out.
    [Some b] gives the busy bit. *)
Definition status_poll (f : frame) : option bool :=
  match f with
  | [(o, _); (d, st)] =>
      if (o =? SPIFLASH_STATUSREAD) && (d =? 0)
      then Some (negb (Z.land st 1 =? 0))
      else None
  | _ => None
  end.

(** One run of [while (busy());]: status polls that find the chip busy,
    closed by one that finds it ready. *)
Fixpoint poll_loop (fs : list frame) : bool :=
  match fs with
  | [] => false
  | f :: fs' =>
      match status_poll f with
      | Some true => poll_loop fs'
      | Some false => match fs' with [] => true | _ => false end
      | None => false
      end
  end.

(** The frames of a write or erase method as [command(cmd, true)] makes
    them: a wait loop, the write enable in a frame of its own, a second
    wait loop, and the frame that starts with the opcode [real]. *)
Definition enable_between_loops (real : Z) (fs : list frame) : Prop :=
  exists p1 r p2 f,
    poll_loop p1 = true /\ poll_loop p2 = true /\ opcode f = [real] /\
    fs = p1 ++ [[(SPIFLASH_WRITEENABLE, r)]] ++ p2 ++ [f].

(** The same in the words of the specification: one wait loop, then the
    write enable immediately before the frame of the real opcode. *)
Definition one_loop_then_enable (real : Z) (fs : list frame) : Prop :=
  exists p r f,
    poll_loop p = true /\ opcode f = [real] /\
    fs = p ++ [[(SPIFLASH_WRITEENABLE, r)]; f].

(** The 24 low bits of an address, most significant byte first. *)
Definition address_bytes (addr : Z) : list Z :=
  [(addr mod 2 ^ 24) / 65536; (addr mod 2 ^ 24) / 256 mod 256;
   (addr mod 2 ^ 24) mod 256].

(** The value three big-endian bytes stand for. *)
Definition be24 (bs : list Z) : Z :=
  match bs with
  | [b2; b1; b0] => b2 * 65536 + b1 * 256 + b0
  | _ => -1
  end.

(** The calls of a 4K or 64K erase one after the other. *)
Fixpoint erase_each (erase : Z -> M unit) (addrs : list Z) : M unit :=
  match addrs with
  | [] => ret tt
  | a :: addrs' => erase a ;; erase_each erase addrs'
  end.

(** ** Chips to run the driver against *)

(** A chip that is never busy and answers zero to everything. *)
Definition ready_chip : list event -> Z := fun _ => 0.

(** The bytes sent since the chip was last selected. *)
Fixpoint since_select (acc : option (list Z)) (tr : list event)
  : option (list Z) :=
  match tr with
  | [] => acc
  | CS_LOW :: tr' => since_select (Some []) tr'
  | CS_HIGH :: tr' => since_select None tr'
  | Xfer o _ :: tr' =>
      since_select (option_map (fun l => l ++ [o]) acc) tr'
  end.

(** A chip that is never busy and answers the JEDEC identifier of the
    S25FL127S, 0x01 0x20 0x18, to opcode 0x9f. *)
Definition S25FL127S_chip (tr : list event) : Z :=
  match since_select None tr with
  | Some (o :: args) =>
      if o =? SPIFLASH_IDREAD then nth (length args) [0x01; 0x20; 0x18] 0
      else 0
  | _ => 0
  end.

(** A chip that keeps the driver waiting: it answers 1 to one transfer
    in four, so some status reads find it busy, but never two in a row. *)
Definition transfers (tr : list event) : nat := length (sent tr).

Definition stuttering_chip (tr : list event) : Z :=
  if Nat.eqb (Nat.modulo (transfers tr) 4) 1 then 1 else 0.

(** The chip never keeps the driver waiting for more than [n] polls. *)
Definition responsive {spi : SPIClass} (chip : list event -> Z) (n : nat)
  : Prop :=
  forall s, exists s', while_busy chip n s = Some (tt, s').

(** An AVR board before the driver is built: select pin pulled high,
    interrupts on, nothing on the bus, the SPI registers holding [spcr]
    and [spsr]. *)
Definition board (spcr spsr : Z) : state :=
  mkState 0 0 0 0 (repeat 0 12%nat) spcr spsr true false true [] [].

(** ** States between transactions

    Every method leaves the state in one of two shapes, both functions of
    the state [s] it started from and of the events [t] it added to the
    bus. *)

(** The flash chip's bus settings, as [select] installs them. *)
Definition flash_settings {spi : SPIClass} (r : spi_regs) : spi_regs :=
  SPI_begin (setClockDivider SPI_CLOCK_DIV4
               (setBitOrder MSBFIRST (setDataMode SPI_MODE0 r))).

(** In the middle of a transaction: chip selected, interrupts off, the
    caller's bus settings saved in the object. *)
Definition selected {spi : SPIClass} (s : state) (t : list event) : state :=
  mkState (_slaveSelectPin s) (_jedecID s) (SPCR s) (SPSR s) (UNIQUEID s)
          (fst (flash_settings (SPCR s, SPSR s)))
          (snd (flash_settings (SPCR s, SPSR s)))
          LOW (SS_output s) false (bus s ++ t) (serial s).

(** After a transaction: chip deselected, interrupts on, the caller's bus
    settings back in the registers. *)
Definition settled (s : state) (t : list event) : state :=
  mkState (_slaveSelectPin s) (_jedecID s) (SPCR s) (SPSR s) (UNIQUEID s)
          (SPCR s) (SPSR s) HIGH (SS_output s) true (bus s ++ t) (serial s).

(** The events of a frame's bytes. *)
Definition xfers (f : frame) : list event :=
  map (fun p => Xfer (fst p) (snd p)) f.

(** The events of one run of [while (busy());]. *)
Inductive polls : list event -> Prop :=
| polls_ready (r st : Z) :
    Z.land st 1 = 0 ->
    polls [CS_LOW; Xfer SPIFLASH_STATUSREAD r; Xfer 0 st; CS_HIGH]
| polls_busy (r st : Z) (t : list event) :
    Z.land st 1 <> 0 ->
    polls t ->
    polls ([CS_LOW; Xfer SPIFLASH_STATUSREAD r; Xfer 0 st; CS_HIGH] ++ t).

(** The events of [command(cmd, isWrite)] before it selects the chip for
    [cmd]. *)
Definition preamble (isWrite : bool) (t : list event) : Prop :=
  if isWrite
  then exists p1 r p2,
         polls p1 /\ polls p2 /\
         t = p1 ++ [CS_LOW; Xfer SPIFLASH_WRITEENABLE r; CS_HIGH] ++ p2
  else polls t.

(** The byte the chip answers after [t] has gone over the bus. *)
Definition answer (chip : list event -> Z) (s : state) (t : list event)
  : Z :=
  to_byte (chip (bus s ++ t)).

(** The status one status read reads, and what the read puts on the
    bus. *)
Definition status_of (chip : list event -> Z) (s : state) : Z :=
  answer chip s [CS_LOW; Xfer SPIFLASH_STATUSREAD (answer chip s [CS_LOW])].

Definition status_frame (chip : list event -> Z) (s : state) : list event :=
  [CS_LOW;
   Xfer SPIFLASH_STATUSREAD (answer chip s [CS_LOW]);
   Xfer 0 (status_of chip s);
   CS_HIGH].

(** ** What each method puts on the bus *)

Definition received (g : frame) : list Z := map snd g.

(** The address bytes as the methods pass them to [SPI.transfer]. *)
Definition code_address (addr : Z) : list Z :=
  [to_byte (Z.shiftr addr 16); to_byte (Z.shiftr addr 8); to_byte addr].

(** One frame [g] in which the driver sends [bytes]. *)
Definition one_frame (bytes : list Z) (g : frame) (u : list event) : Prop :=
  mosi g = bytes /\ u = CS_LOW :: xfers g ++ [CS_HIGH].

(** What a method built on [command] puts on the bus: the preamble of
    [command], then one frame [g] that starts with the opcode. *)
Definition transaction (isWrite : bool) (bytes : list Z) (g : frame)
  (u : list event) : Prop :=
  exists t u', preamble isWrite t /\ one_frame bytes g u' /\ u = t ++ u'.

(** A run of block erases with opcode [opc], one per address. *)
Inductive erases (opc : Z) : list Z -> list event -> Prop :=
| erases_nil : erases opc [] []
| erases_cons a addrs g u us :
    transaction true (opc :: code_address a) g u ->
    erases opc addrs us ->
    erases opc (a :: addrs) (u ++ us).

(** The identifier [readDeviceId] builds from the bytes of its frame. *)
Definition jedec_of (g : frame) : Z :=
  Z.lor (Z.lor (Z.lor 0 (Z.shiftl (nth 1 (received g) 0) 16))
               (Z.shiftl (nth 2 (received g) 0) 8))
        (nth 3 (received g) 0).

(** The addresses [a], [a + step], ... of [n] consecutive blocks. *)
Definition blocks (step : Z) (n : nat) (a : Z) : list Z :=
  map (fun i => a + step * Z.of_nat i) (seq 0 n).

(** [emits jedec op r t]: method [op] of a driver that expects the
    identifier [jedec] can return [r] after putting [t] on the bus.
    [command] is left out: it returns in the middle of a frame. *)
Inductive emits (jedec : Z) : public_op -> result -> list event -> Prop :=
| emits_initialize_unchecked p g u :
    jedec = 0 -> polls p ->
    transaction true [SPIFLASH_STATUSWRITE; 0] g u ->
    emits jedec Op_initialize (R_boolean true) (CS_HIGH :: p ++ u)
| emits_initialize_match p gid uid g u :
    jedec <> 0 -> polls p ->
    one_frame [SPIFLASH_IDREAD; 0; 0; 0] gid uid ->
    jedec_of gid = jedec ->
    transaction true [SPIFLASH_STATUSWRITE; 0] g u ->
    emits jedec Op_initialize (R_boolean true) (CS_HIGH :: p ++ uid ++ u)
| emits_initialize_mismatch p gid uid :
    jedec <> 0 -> polls p ->
    one_frame [SPIFLASH_IDREAD; 0; 0; 0] gid uid ->
    jedec_of gid <> jedec ->
    emits jedec Op_initialize (R_boolean false) (CS_HIGH :: p ++ uid)
| emits_readStatus g u :
    one_frame [SPIFLASH_STATUSREAD; 0] g u ->
    emits jedec Op_readStatus (R_byte (nth 1 (received g) 0)) u
| emits_printStatus g u :
    one_frame [SPIFLASH_STATUSREAD; 0; SPIFLASH_STATUSREAD2; 0] g u ->
    emits jedec Op_printStatus R_void u
| emits_printRDID g u :
    one_frame (SPIFLASH_IDREAD :: repeat 0 320) g u ->
    emits jedec Op_printRDID R_void u
| emits_readByte addr g u :
    transaction false (SPIFLASH_ARRAYREADLOWFREQ :: code_address addr ++ [0])
                g u ->
    emits jedec (Op_readByte addr) (R_byte (nth 4 (received g) 0)) u
| emits_readBytes addr len g u :
    transaction false
      (SPIFLASH_ARRAYREAD :: code_address addr ++ 0 :: repeat 0 len) g u ->
    emits jedec (Op_readBytes addr len) (R_filled (skipn 5 (received g))) u
| emits_writeByte addr byt g u :
    transaction true
      (SPIFLASH_BYTEPAGEPROGRAM :: code_address addr ++ [to_byte byt]) g u ->
    emits jedec (Op_writeByte addr byt) R_void u
| emits_writeBytes addr buf len g u :
    transaction true
      (SPIFLASH_BYTEPAGEPROGRAM :: code_address addr ++
       map (fun i => to_byte (nth i buf 0)) (seq 0 len)) g u ->
    emits jedec (Op_writeBytes addr buf len) R_void u
| emits_busy g u :
    one_frame [SPIFLASH_STATUSREAD; 0] g u ->
    emits jedec Op_busy
      (R_boolean (negb (Z.land (nth 1 (received g) 0) 1 =? 0))) u
| emits_chipErase u :
    erases SPIFLASH_BLOCKERASE_64K (blocks 65536 8 0) u ->
    emits jedec Op_chipErase R_void u
| emits_bulkErase g u :
    transaction true [SPIFLASH_CHIPERASE] g u ->
    emits jedec Op_bulkErase R_void u
| emits_blockErase4K addr g u :
    transaction true (SPIFLASH_BLOCKERASE_4K :: code_address addr) g u ->
    emits jedec (Op_blockErase4K addr) R_void u
| emits_blockErase32K addr u :
    erases SPIFLASH_BLOCKERASE_4K (blocks 4096 8 addr) u ->
    emits jedec (Op_blockErase32K addr) R_void u
| emits_blockErase64K addr g u :
    transaction true (SPIFLASH_BLOCKERASE_64K :: code_address addr) g u ->
    emits jedec (Op_blockErase64K addr) R_void u
| emits_blockErase512K addr u :
    erases SPIFLASH_BLOCKERASE_64K (blocks 65536 8 addr) u ->
    emits jedec (Op_blockErase512K addr) R_void u
| emits_readDeviceId g u :
    one_frame [SPIFLASH_IDREAD; 0; 0; 0] g u ->
    emits jedec Op_readDeviceId (R_long (jedec_of g)) u
| emits_readUniqueId l g u :
    transaction false (SPIFLASH_MACREAD :: repeat 0 16) g u ->
    emits jedec Op_readUniqueId (R_bytes l) u
| emits_sleep : emits jedec Op_sleep R_void []
| emits_wakeup : emits jedec Op_wakeup R_void []
| emits_end : emits jedec Op_end R_void [].

(** Whether a method talks to the chip at all. *)
Definition transacts (op : public_op) : bool :=
  match op with
  | Op_sleep | Op_wakeup | Op_end => false
  | _ => true
  end.

Definition is_command (op : public_op) : bool :=
  match op with
  | Op_command _ _ => true
  | _ => false
  end.

(** What holds of the state [s'] in which a method that talks to the chip
    returns, having started in [s] and put [t] on the bus. *)
Definition returned (s s' : state) (t : list event) : Prop :=
  SS s' = HIGH /\ SPCR s' = SPCR s /\ SPSR s' = SPSR s /\ irq s' = true /\
  _jedecID s' = _jedecID s /\ _slaveSelectPin s' = _slaveSelectPin s /\
  bus s' = bus s ++ t.

(** A computation that returns from every state. *)
Definition total {A : Type} (m : M A) : Prop :=
  forall s, exists a s', m s = Some (a, s').

(** ** Views of a trace the statements use *)

(** Every byte the chip puts on the bus. *)
Fixpoint miso (tr : list event) : list Z :=
  match tr with
  | [] => []
  | Xfer _ i :: tr' => i :: miso tr'
  | _ :: tr' => miso tr'
  end.

(** The bytes of a status poll, as the driver sends them. *)
Definition is_poll (bytes : list Z) : bool :=
  match bytes with
  | [o; d] => (o =? SPIFLASH_STATUSREAD) && (d =? 0)
  | _ => false
  end.

(** The traffic with the status polls left out: the bytes sent in each
    of the other frames. *)
Definition commands (tr : list event) : list (list Z) :=
  filter (fun bytes => negb (is_poll bytes)) (map mosi (frames tr)).

Definition is_idread (f : frame) : bool :=
  match f with
  | (o, _) :: _ => o =? SPIFLASH_IDREAD
  | [] => false
  end.

(** The identifier the chip gave in the first frame that asks for it. *)
Definition identifier_read (tr : list event) : option Z :=
  match filter is_idread (frames tr) with
  | g :: _ => Some (jedec_of g)
  | [] => None
  end.

(** A write enable in a frame of its own, then the frame of an erase with
    opcode [opc] at address [a]. *)
Definition erase_commands (opc a : Z) : list (list Z) :=
  [[SPIFLASH_WRITEENABLE]; opc :: address_bytes a].

(** ** The driver of the examples *)

(** A driver on select pin 8 of an AVR board whose SPI registers another
    user of the bus has left at SPCR = 0x53, SPSR = 0x01. *)
Definition flash (jedecID : Z) : state :=
  SPIFlashA 8 jedecID (board 0x53 0x01).

(** The frames on the bus after a run. *)
Definition frames_of (out : option (result * state)) : list frame :=
  match out with
  | Some (_, s) => frames (bus s)
  | None => []
  end.

(** ** Views of the methods and of the serial console *)

(** The methods that wait for the chip before they talk to it: the ones
    that call [command] or run [while (busy());] themselves.
    ([readDeviceId] is not one of them in the build modelled here, for
    boards other than the ATmega32U4.) *)
Definition waits (op : public_op) : bool :=
  match op with
  | Op_readStatus | Op_printStatus | Op_printRDID | Op_busy
  | Op_readDeviceId | Op_sleep | Op_wakeup | Op_end => false
  | _ => true
  end.

(** The methods that only read the chip. *)
Definition read_only (op : public_op) : bool :=
  match op with
  | Op_readStatus | Op_printStatus | Op_printRDID | Op_readByte _
  | Op_readBytes _ _ | Op_busy | Op_readDeviceId | Op_readUniqueId => true
  | _ => false
  end.


(** The numbers printed, in order. *)
Definition printed_value (e : serial_event) : list Z :=
  match e with
  | SerialPrintNum v _ | SerialPrintlnNum v _ => [v]
  | _ => []
  end.

Definition printed_values (l : list serial_event) : list Z :=
  flat_map printed_value l.

(** The line ends printed. *)
Definition ends_line (e : serial_event) : bool :=
  match e with
  | SerialPrintln | SerialPrintlnNum _ _ => true
  | _ => false
  end.

Definition newlines (l : list serial_event) : nat :=
  length (filter ends_line l).

(** The line ends [printRDID] puts before the bytes of [n] rounds of its
    loop, from index [i] on. *)
Fixpoint line_breaks (n : nat) (i : Z) : nat :=
  match n with
  | O => O
  | S n' =>
      ((if ((0 <? i) && (i mod 32 =? 0))%Z then 1 else 0) +
       line_breaks n' (i + 1)%Z)%nat
  end.

(** A chip whose status always shows busy, and the bus without a chip:
    the input floats high and every byte reads 0xFF. *)
Definition always_busy (chip : list event -> Z) : Prop :=
  forall tr, Z.land (to_byte (chip tr)) 1 = 1.

Definition absent_chip : list event -> Z := fun _ => 0xFF.

(** A driver whose caller has switched the interrupts off. *)
Definition quiet (s : state) : state := set_irq false s.

(** The method [op] called with the address [a] in place of its own. *)
Definition at_address (op : public_op) (a : Z) : public_op :=
  match op with
  | Op_readByte _ => Op_readByte a
  | Op_readBytes _ len => Op_readBytes a len
  | Op_writeByte _ byt => Op_writeByte a byt
  | Op_writeBytes _ buf len => Op_writeBytes a buf len
  | Op_blockErase4K _ => Op_blockErase4K a
  | Op_blockErase32K _ => Op_blockErase32K a
  | Op_blockErase64K _ => Op_blockErase64K a
  | Op_blockErase512K _ => Op_blockErase512K a
  | _ => op
  end.

(** A sketch that calls the methods [ops] one after the other. *)
Fixpoint session {spi : SPIClass} (chip : list event -> Z) (fuel : nat)
  (ops : list public_op) : M (list result) :=
  match ops with
  | [] => ret []
  | op :: ops' =>
      r <- run chip fuel op ;;
      rs <- session chip fuel ops' ;;
      ret (r :: rs)
  end.

(** The opcodes the driver opens a frame with. *)
Definition driver_opcodes : list Z :=
  [SPIFLASH_STATUSREAD; SPIFLASH_WRITEENABLE; SPIFLASH_STATUSWRITE;
   SPIFLASH_ARRAYREADLOWFREQ; SPIFLASH_ARRAYREAD; SPIFLASH_BYTEPAGEPROGRAM;
   SPIFLASH_CHIPERASE; SPIFLASH_BLOCKERASE_4K; SPIFLASH_BLOCKERASE_64K;
   SPIFLASH_IDREAD; SPIFLASH_MACREAD].

(** ** Command sequences and the caller's buffer *)

(** The command sequences of a call, status polls apart: the bytes method
    [op] of a driver that expects the identifier [jedec] sends, one
    sequence for each time it selects the chip, when it returns [r].
    ([command] is left out: it returns inside its sequence.) *)
Definition command_sequences (jedec : Z) (op : public_op) (r : result)
  : list (list Z) :=
  match op with
  | Op_initialize =>
      (if jedec =? 0 then [] else [[SPIFLASH_IDREAD; 0; 0; 0]]) ++
      (match r with
       | R_boolean true => [[SPIFLASH_WRITEENABLE]; [SPIFLASH_STATUSWRITE; 0]]
       | _ => []
       end)
  | Op_command _ _ => []
  | Op_readStatus | Op_busy => []
  | Op_printStatus => [[SPIFLASH_STATUSREAD; 0; SPIFLASH_STATUSREAD2; 0]]
  | Op_printRDID => [SPIFLASH_IDREAD :: repeat 0 320]
  | Op_readByte addr =>
      [SPIFLASH_ARRAYREADLOWFREQ :: address_bytes addr ++ [0]]
  | Op_readBytes addr len =>
      [SPIFLASH_ARRAYREAD :: address_bytes addr ++ 0 :: repeat 0 len]
  | Op_writeByte addr byt =>
      [[SPIFLASH_WRITEENABLE];
       SPIFLASH_BYTEPAGEPROGRAM :: address_bytes addr ++ [to_byte byt]]
  | Op_writeBytes addr buf len =>
      [[SPIFLASH_WRITEENABLE];
       SPIFLASH_BYTEPAGEPROGRAM :: address_bytes addr ++
       map (fun i => to_byte (nth i buf 0)) (seq 0 len)]
  | Op_chipErase =>
      flat_map (erase_commands SPIFLASH_BLOCKERASE_64K) (blocks 65536 8 0)
  | Op_bulkErase => [[SPIFLASH_WRITEENABLE]; [SPIFLASH_CHIPERASE]]
  | Op_blockErase4K addr => erase_commands SPIFLASH_BLOCKERASE_4K addr
  | Op_blockErase32K addr =>
      flat_map (erase_commands SPIFLASH_BLOCKERASE_4K) (blocks 4096 8 addr)
  | Op_blockErase64K addr => erase_commands SPIFLASH_BLOCKERASE_64K addr
  | Op_blockErase512K addr =>
      flat_map (erase_commands SPIFLASH_BLOCKERASE_64K)
        (blocks 65536 8 addr)
  | Op_readDeviceId => [[SPIFLASH_IDREAD; 0; 0; 0]]
  | Op_readUniqueId => [SPIFLASH_MACREAD :: repeat 0 16]
  | Op_sleep | Op_wakeup | Op_end => []
  end.


(** * Proofs *)

(** ** The monad *)

Lemma bind_Some {A B : Type} (m : M A) (k : A -> M B) s b s' :
  bind m k s = Some (b, s') ->
  exists a s1, m s = Some (a, s1) /\ k a s1 = Some (b, s').
Proof.
  unfold bind. destruct (m s) as [[a s1]|]; [|discriminate].
  intros H. exists a, s1. split; [reflexivity | exact H].
Qed.

Lemma bind_eq {A B : Type} (m : M A) (k : A -> M B) s a s1 :
  m s = Some (a, s1) -> bind m k s = k a s1.
Proof. unfold bind. intros ->. reflexivity. Qed.

Lemma ret_Some {A : Type} (a b : A) s s' :
  ret a s = Some (b, s') -> b = a /\ s' = s.
Proof. unfold ret. intros H. inversion H. split; reflexivity. Qed.

(** ** Traces *)

Lemma payload_closed a b :
  cs_discipline true a = true -> payload (a ++ b) = payload a.
Proof.
  induction a as [|e a IH]; simpl.
  - discriminate.
  - destruct e; simpl; intros H; try reflexivity.
    rewrite IH; [reflexivity | exact H].
Qed.

Lemma frames_app c a b :
  cs_discipline c a = true -> frames (a ++ b) = frames a ++ frames b.
Proof.
  revert c. induction a as [|e a IH]; intros c H; simpl.
  - reflexivity.
  - destruct e; simpl in H.
    + apply andb_true_iff in H. destruct H as [_ H].
      rewrite (payload_closed _ _ H), (IH _ H). reflexivity.
    + apply (IH _ H).
    + apply andb_true_iff in H. destruct H as [_ H]. apply (IH _ H).
Qed.

Lemma cs_discipline_app c a b :
  cs_discipline c a = true -> cs_discipline false b = true ->
  cs_discipline c (a ++ b) = true.
Proof.
  revert c. induction a as [|e a IH]; intros c Ha Hb; simpl.
  - destruct c; [discriminate | exact Hb].
  - destruct e; simpl in Ha.
    + apply andb_true_iff in Ha. destruct Ha as [Hc Ha].
      rewrite Hc. simpl. apply (IH _ Ha Hb).
    + apply (IH _ Ha Hb).
    + apply andb_true_iff in Ha. destruct Ha as [Hc Ha].
      rewrite Hc. simpl. apply (IH _ Ha Hb).
Qed.

Lemma sent_app a b : sent (a ++ b) = sent a ++ sent b.
Proof.
  induction a as [|e a IH]; simpl; [reflexivity|].
  destruct e; simpl; rewrite IH; reflexivity.
Qed.

Lemma opcodes_app c a b :
  cs_discipline c a = true -> opcodes (a ++ b) = opcodes a ++ opcodes b.
Proof.
  intros H. unfold opcodes. rewrite (frames_app _ _ _ H).
  apply flat_map_app.
Qed.

Lemma payload_xfers f t : payload (xfers f ++ CS_HIGH :: t) = f.
Proof.
  induction f as [|[o i] f IH]; simpl; [reflexivity|].
  rewrite IH. reflexivity.
Qed.

Lemma sent_xfers f : sent (xfers f) = mosi f.
Proof.
  induction f as [|[o i] f IH]; simpl; [reflexivity|].
  unfold mosi in IH. rewrite IH. reflexivity.
Qed.

Lemma discipline_xfers f :
  cs_discipline true (xfers f ++ [CS_HIGH]) = true.
Proof. induction f as [|[o i] f IH]; simpl; [reflexivity | exact IH]. Qed.

Lemma xfers_app f g : xfers (f ++ g) = xfers f ++ xfers g.
Proof. apply map_app. Qed.

(** One frame, from select to unselect. *)
Lemma frames_frame f : frames (CS_LOW :: xfers f ++ [CS_HIGH]) = [f].
Proof.
  simpl. rewrite payload_xfers. f_equal.
  induction f as [|[o i] f IH]; simpl; [reflexivity | exact IH].
Qed.

Lemma discipline_frame f :
  cs_discipline false (CS_LOW :: xfers f ++ [CS_HIGH]) = true.
Proof. simpl. apply discipline_xfers. Qed.

(** ** Wait loops on the bus *)

Lemma polls_discipline t : polls t -> cs_discipline false t = true.
Proof. induction 1; simpl; [reflexivity | exact IHpolls]. Qed.

Lemma polls_frames t : polls t -> poll_loop (frames t) = true.
Proof.
  induction 1 as [r st H | r st t H Ht IH]; simpl.
  - rewrite H. reflexivity.
  - apply Z.eqb_neq in H. rewrite H. simpl. exact IH.
Qed.

Lemma polls_opcodes t :
  polls t -> exists k, opcodes t = repeat SPIFLASH_STATUSREAD (S k).
Proof.
  induction 1 as [r st H | r st t H Ht [k IH]].
  - exists O. reflexivity.
  - exists (S k). unfold opcodes in *. simpl. simpl in IH. rewrite IH.
    reflexivity.
Qed.

(** The frames of a wait loop are status polls, whatever follows. *)
Lemma poll_loop_opcodes p :
  poll_loop p = true ->
  exists k, flat_map opcode p = repeat SPIFLASH_STATUSREAD (S k).
Proof.
  induction p as [|f p IH]; simpl; [discriminate|].
  unfold status_poll.
  destruct f as [|[o r] [|[d st] [|x f]]]; try discriminate.
  destruct (o =? SPIFLASH_STATUSREAD) eqn:Ho; simpl; [|discriminate].
  apply Z.eqb_eq in Ho. subst o.
  destruct (d =? 0); simpl; [|discriminate].
  destruct (negb (Z.land st 1 =? 0)).
  - intros H. destruct (IH H) as [k Hk]. exists (S k). rewrite Hk.
    reflexivity.
  - destruct p; [|discriminate]. intros _. exists O. reflexivity.
Qed.

Section Execution.

Context {spi : SPIClass}.
Variable chip : list event -> Z.

(** ** The monad laws the proofs use *)

Lemma bind_assoc {A B C : Type} (m : M A) (f : A -> M B) (g : B -> M C) s :
  bind (bind m f) g s = bind m (fun x => bind (f x) g) s.
Proof. unfold bind. destruct (m s) as [[a s1]|]; reflexivity. Qed.

Lemma bind_ret {A B : Type} (a : A) (k : A -> M B) s :
  bind (ret a) k s = k a s.
Proof. reflexivity. Qed.

Lemma bind_modify {B : Type} (f : state -> state) (k : unit -> M B) s :
  bind (modify f) k s = k tt (f s).
Proof. reflexivity. Qed.

Lemma bind_gets {A B : Type} (f : state -> A) (k : A -> M B) s :
  bind (gets f) k s = k (f s) s.
Proof. reflexivity. Qed.

(** ** select, transfers and unselect, step by step *)

Lemma settled_settled s t u : settled (settled s t) u = settled s (t ++ u).
Proof. destruct s. unfold settled. cbn. rewrite app_assoc. reflexivity. Qed.

Lemma selected_settled s t u :
  selected (settled s t) u = selected s (t ++ u).
Proof.
  destruct s. unfold selected, settled. cbn. rewrite app_assoc. reflexivity.
Qed.

Lemma select_eq s : select s = Some (tt, selected s [CS_LOW]).
Proof.
  destruct s.
  unfold select, noInterrupts, save_SPI_settings, SPI_library, digitalWrite.
  rewrite !bind_modify.
  unfold selected, flash_settings. cbn.
  rewrite <- !surjective_pairing. reflexivity.
Qed.

Lemma bind_select {B : Type} (k : unit -> M B) s :
  bind select k s = k tt (selected s [CS_LOW]).
Proof. apply bind_eq, select_eq. Qed.

Lemma transfer_selected data s t :
  SPI_transfer chip data (selected s t) =
  Some (answer chip s t,
        selected s (t ++ [Xfer (to_byte data) (answer chip s t)])).
Proof.
  destruct s. unfold SPI_transfer, selected, emit, answer. cbn.
  rewrite app_assoc. reflexivity.
Qed.

Lemma bind_transfer {B : Type} data (k : Z -> M B) s t :
  bind (SPI_transfer chip data) k (selected s t) =
  k (answer chip s t)
    (selected s (t ++ [Xfer (to_byte data) (answer chip s t)])).
Proof. apply bind_eq, transfer_selected. Qed.

Lemma unselect_selected s t :
  unselect (selected s t) = Some (tt, settled s (t ++ [CS_HIGH])).
Proof.
  destruct s. unfold unselect, digitalWrite, restore_SPI_settings, interrupts.
  rewrite !bind_modify. unfold modify, selected, settled. cbn.
  rewrite app_assoc. reflexivity.
Qed.

Lemma bind_unselect {B : Type} (k : unit -> M B) s t :
  bind unselect k (selected s t) = k tt (settled s (t ++ [CS_HIGH])).
Proof. apply bind_eq, unselect_selected. Qed.

(** ** readStatus, busy, the wait loop *)

Lemma readStatus_eq s :
  readStatus chip s = Some (status_of chip s, settled s (status_frame chip s)).
Proof.
  unfold readStatus. rewrite bind_select, bind_transfer. simpl app.
  rewrite bind_transfer. simpl app. rewrite bind_unselect. reflexivity.
Qed.

Lemma busy_eq s :
  busy chip s =
  Some (negb (Z.land (status_of chip s) 1 =? 0),
        settled s (status_frame chip s)).
Proof.
  unfold busy. rewrite (bind_eq _ _ _ _ _ (readStatus_eq s)). reflexivity.
Qed.

Lemma while_busy_spec fuel s s' :
  while_busy chip fuel s = Some (tt, s') ->
  exists t, polls t /\ s' = settled s t.
Proof.
  revert s. induction fuel as [|fuel IH]; intros s; simpl.
  - discriminate.
  - rewrite (bind_eq _ _ _ _ _ (busy_eq s)).
    destruct (Z.land (status_of chip s) 1 =? 0) eqn:E; simpl.
    + intros H. apply ret_Some in H. destruct H as [_ ->].
      exists (status_frame chip s). split; [|reflexivity].
      apply polls_ready. apply Z.eqb_eq. exact E.
    + intros H. apply IH in H. destruct H as (t & Ht & ->).
      exists (status_frame chip s ++ t). split.
      * apply polls_busy; [|exact Ht]. apply Z.eqb_neq. exact E.
      * apply settled_settled.
Qed.

(** More fuel never hurts. *)
Lemma while_busy_mono fuel s s' :
  while_busy chip fuel s = Some (tt, s') ->
  while_busy chip (S fuel) s = Some (tt, s').
Proof.
  revert s. induction fuel as [|fuel IH]; intros s.
  - discriminate.
  - intros H. simpl in H. rewrite (bind_eq _ _ _ _ _ (busy_eq s)) in H.
    change (while_busy chip (S (S fuel)) s)
      with (bind (busy chip)
              (fun b => if b then while_busy chip (S fuel) else ret tt) s).
    rewrite (bind_eq _ _ _ _ _ (busy_eq s)).
    destruct (negb (Z.land (status_of chip s) 1 =? 0)); [|exact H].
    apply IH. exact H.
Qed.

End Execution.

(** ** Bytes and addresses *)

Lemma to_byte_range z : 0 <= to_byte z < 256.
Proof. unfold to_byte. apply Z.mod_pos_bound. lia. Qed.

Lemma code_address_eq addr : code_address addr = address_bytes addr.
Proof.
  unfold code_address, address_bytes, to_byte.
  rewrite !Z.shiftr_div_pow2 by lia.
  change (2 ^ 16) with 65536. change (2 ^ 8) with 256.
  change (2 ^ 24) with 16777216.
  assert (H2 : (addr / 65536) mod 256 = addr mod 16777216 / 65536)
    by (Z.to_euclidean_division_equations; lia).
  assert (H1 : (addr / 256) mod 256 = addr mod 16777216 / 256 mod 256)
    by (Z.to_euclidean_division_equations; lia).
  assert (H0 : addr mod 256 = (addr mod 16777216) mod 256)
    by (Z.to_euclidean_division_equations; lia).
  rewrite H2, H1, H0. reflexivity.
Qed.

Lemma be24_address_bytes addr : be24 (address_bytes addr) = addr mod 2 ^ 24.
Proof.
  unfold be24, address_bytes. change (2 ^ 24) with 16777216.
  Z.to_euclidean_division_equations; lia.
Qed.

Lemma address_bytes_range addr :
  Forall (fun b => 0 <= b < 256) (address_bytes addr).
Proof.
  rewrite <- code_address_eq. unfold code_address.
  repeat constructor; apply to_byte_range.
Qed.

Lemma to_long_low24 z : to_long z mod 2 ^ 24 = z mod 2 ^ 24.
Proof.
  unfold to_long. change (2 ^ 31) with 2147483648.
  change (2 ^ 32) with 4294967296. change (2 ^ 24) with 16777216.
  Z.to_euclidean_division_equations; lia.
Qed.

Lemma code_address_congr a b :
  a mod 2 ^ 24 = b mod 2 ^ 24 -> code_address a = code_address b.
Proof.
  intros H. rewrite !code_address_eq. unfold address_bytes.
  rewrite H. reflexivity.
Qed.

(** Within the range of a [long] the addition does not wrap. *)
Lemma long_add_exact a b :
  - 2 ^ 31 <= a + b < 2 ^ 31 -> long_add a b = a + b.
Proof.
  unfold long_add, to_long. change (2 ^ 31) with 2147483648.
  change (2 ^ 32) with 4294967296. intros H.
  Z.to_euclidean_division_equations; lia.
Qed.

(** ** The states a method goes through *)

Lemma console_selected {spi : SPIClass} l s t :
  console l (selected s t) = selected (console l s) t.
Proof. destruct s. reflexivity. Qed.

Lemma put_UNIQUEID_selected {spi : SPIClass} a s t :
  put_UNIQUEID a (selected s t) = selected (put_UNIQUEID a s) t.
Proof. destruct s. reflexivity. Qed.

Lemma put_UNIQUEID_put a b s :
  put_UNIQUEID a (put_UNIQUEID b s) = put_UNIQUEID a s.
Proof. destruct s. reflexivity. Qed.

Lemma put_UNIQUEID_same s : put_UNIQUEID (UNIQUEID s) s = s.
Proof. destruct s. reflexivity. Qed.

Lemma console_console l m s : console m (console l s) = console (l ++ m) s.
Proof. destruct s. unfold console. cbn. rewrite app_assoc. reflexivity. Qed.

Lemma console_nil s : console [] s = s.
Proof. destruct s. unfold console. cbn. rewrite app_nil_r. reflexivity. Qed.

Lemma returned_settled s t : returned s (settled s t) t.
Proof. destruct s. repeat split. Qed.

Lemma returned_console l s t : returned s (settled (console l s) t) t.
Proof. destruct s. repeat split. Qed.

Lemma returned_put a s t : returned s (settled (put_UNIQUEID a s) t) t.
Proof. destruct s. repeat split. Qed.

Lemma returned_output s t : returned s (settled (set_SS_output true s) t) t.
Proof. destruct s. repeat split. Qed.

(** ** The methods, one by one *)

Section Methods.

Context {spi : SPIClass}.
Variable chip : list event -> Z.

Lemma bind_console {B : Type} l (k : unit -> M B) s t :
  bind (modify (console l)) k (selected s t) = k tt (selected (console l s) t).
Proof. rewrite bind_modify, console_selected. reflexivity. Qed.

(** The same steps with the open frame kept apart from what came before
    it on the bus. *)
Lemma bind_select' {B : Type} (k : unit -> M B) s :
  bind select k s = k tt (selected s ([] ++ CS_LOW :: xfers [])).
Proof. apply bind_select. Qed.

Lemma selected_settled' s t u :
  selected (settled s t) ([] ++ u) = selected s (t ++ u).
Proof. apply selected_settled. Qed.

Lemma bind_transfer' {B : Type} data (k : Z -> M B) s t g :
  exists r,
    bind (SPI_transfer chip data) k (selected s (t ++ CS_LOW :: xfers g)) =
    k r (selected s (t ++ CS_LOW :: xfers (g ++ [(to_byte data, r)]))).
Proof.
  eexists. rewrite bind_transfer, xfers_app, <- app_assoc. reflexivity.
Qed.

Lemma bind_unselect' {B : Type} (k : unit -> M B) s t g :
  bind unselect k (selected s (t ++ CS_LOW :: xfers g)) =
  k tt (settled s (t ++ CS_LOW :: xfers g ++ [CS_HIGH])).
Proof. rewrite bind_unselect, <- app_assoc. reflexivity. Qed.

Lemma unselect_selected' s t g :
  unselect (selected s (t ++ CS_LOW :: xfers g)) =
  Some (tt, settled s (t ++ CS_LOW :: xfers g ++ [CS_HIGH])).
Proof. rewrite unselect_selected, <- app_assoc. reflexivity. Qed.

Lemma frame_extend t (g g' : frame) :
  (t ++ CS_LOW :: xfers g) ++ xfers g' = t ++ CS_LOW :: xfers (g ++ g').
Proof. rewrite <- app_assoc, xfers_app. reflexivity. Qed.

(** Runs the straight-line part of a method in hypothesis [H]; the bytes
    the chip answers become variables. *)
Ltac transfer_in H :=
  match type of H with
  | bind (SPI_transfer chip ?data) ?k (selected ?s (?t ++ CS_LOW :: xfers ?g))
    = _ =>
      let r := fresh "r" in
      let E := fresh "E" in
      destruct (bind_transfer' data k s t g) as [r E];
      rewrite E in H; clear E
  end.

Ltac exec H :=
  repeat first
    [ rewrite bind_assoc in H
    | rewrite bind_ret in H
    | transfer_in H
    | rewrite bind_unselect' in H
    | rewrite bind_select' in H
    | rewrite bind_console in H
    | rewrite selected_settled' in H
    | rewrite settled_settled in H
    | progress cbv beta in H ].

Ltac wait_in H p Hp :=
  let s1 := fresh "s" in
  let u := fresh "u" in
  let Hw := fresh "Hw" in
  apply bind_Some in H; destruct H as (u & s1 & Hw & H); destruct u;
  apply (while_busy_spec chip) in Hw; destruct Hw as (p & Hp & ->).

Ltac finish H :=
  apply ret_Some in H; destruct H as [? ->]; subst.

Lemma command_plain_spec fuel cmd s s' :
  command_plain chip fuel cmd s = Some (tt, s') ->
  exists t r,
    polls t /\ s' = selected s (t ++ CS_LOW :: xfers [(to_byte cmd, r)]).
Proof.
  unfold command_plain. intros H. wait_in H p Hp. exec H. finish H.
  exists p. eexists. split; [exact Hp | reflexivity].
Qed.

Lemma command_spec fuel cmd isWrite s s' :
  command chip fuel cmd isWrite s = Some (tt, s') ->
  exists t r,
    preamble isWrite t /\
    s' = selected s (t ++ CS_LOW :: xfers [(to_byte cmd, r)]).
Proof.
  unfold command. destruct isWrite; intros H.
  - exec H. apply bind_Some in H. destruct H as ([] & s1 & Hc & H).
    apply command_plain_spec in Hc. destruct Hc as (p1 & r1 & Hp1 & ->).
    exec H. apply command_plain_spec in H.
    destruct H as (p2 & r & Hp2 & ->). rewrite selected_settled.
    exists (p1 ++ [CS_LOW; Xfer SPIFLASH_WRITEENABLE r1; CS_HIGH] ++ p2), r.
    split.
    + exists p1, r1, p2. auto.
    + rewrite <- !app_assoc. reflexivity.
  - exec H. apply command_plain_spec in H.
    destruct H as (p & r & Hp & ->). exists p, r. auto.
Qed.

(** The recursion of the source: with [isWrite] set, [command] is a
    [command] for the write enable, [unselect], and the rest of its body. *)
Lemma command_unfold fuel cmd s :
  command chip fuel cmd true s =
  (command chip fuel SPIFLASH_WRITEENABLE false ;; unselect ;;
   while_busy chip fuel ;; select ;; SPI_transfer chip cmd ;; ret tt) s.
Proof.
  unfold command, command_plain, bind, ret.
  destruct (while_busy chip fuel s) as [[[] s1]|]; reflexivity.
Qed.

Ltac command_in H t r Hpre :=
  let s1 := fresh "s" in
  let u := fresh "u" in
  let Hc := fresh "Hc" in
  apply bind_Some in H; destruct H as (u & s1 & Hc & H); destruct u;
  apply command_spec in Hc; destruct Hc as (t & r & Hpre & ->).

(** Closes [exists g u, transaction w bytes g u /\ P g /\ s' = settled s u]
    when the state is in the shape [exec] leaves. *)
Ltac transaction_done t Hpre :=
  eexists _, _; split; [|split]; cycle 2;
  [ reflexivity
  | exists t; eexists; split; [exact Hpre|]; split; cycle 1;
    [ reflexivity | split; cycle 1; [reflexivity|] ]
  | ].

(** *** Loops inside a frame *)

Lemma read_loop_selected len s t :
  exists g,
    read_loop chip len (selected s t) =
      Some (received g, selected s (t ++ xfers g)) /\
    mosi g = repeat 0 len.
Proof.
  revert t. induction len as [|len IH]; intros t.
  - exists []. simpl. rewrite app_nil_r. split; reflexivity.
  - simpl. rewrite bind_transfer.
    destruct (IH (t ++ [Xfer (to_byte 0) (answer chip s t)]))
      as (g & E & Hg).
    exists ((0, answer chip s t) :: g). split.
    + rewrite (bind_eq _ _ _ _ _ E). unfold ret.
      rewrite <- app_assoc. reflexivity.
    + simpl. rewrite Hg. reflexivity.
Qed.

Lemma write_loop_selected buf n i s t :
  exists g,
    write_loop chip buf n i (selected s t) =
      Some (tt, selected s (t ++ xfers g)) /\
    mosi g = map (fun j => to_byte (nth j buf 0)) (seq i n).
Proof.
  revert i t. induction n as [|n IH]; intros i t.
  - exists []. simpl. rewrite app_nil_r. split; reflexivity.
  - simpl. rewrite bind_transfer.
    destruct (IH (S i) (t ++ [Xfer (to_byte (nth i buf 0)) (answer chip s t)]))
      as (g & E & Hg).
    exists ((to_byte (nth i buf 0), answer chip s t) :: g). split.
    + rewrite E. rewrite <- app_assoc. reflexivity.
    + simpl. rewrite Hg. reflexivity.
Qed.

Lemma fill_UNIQUEID_selected n i s t :
  exists a g,
    fill_UNIQUEID chip n i (selected s t) =
      Some (tt, selected (put_UNIQUEID a s) (t ++ xfers g)) /\
    mosi g = repeat 0 n.
Proof.
  revert i s t. induction n as [|n IH]; intros i s t.
  - exists (UNIQUEID s), []. simpl. rewrite app_nil_r, put_UNIQUEID_same.
    split; reflexivity.
  - simpl. rewrite bind_transfer, bind_modify. unfold set_UNIQUEID.
    rewrite put_UNIQUEID_selected.
    match goal with
    | |- context [fill_UNIQUEID chip n (S i) (selected ?s1 ?t1)] =>
        destruct (IH (S i) s1 t1) as (a & g & E & Hg)
    end.
    exists a, ((0, answer chip s t) :: g). split.
    + rewrite E, put_UNIQUEID_put, <- app_assoc. reflexivity.
    + simpl. rewrite Hg. reflexivity.
Qed.

Lemma rdid_loop_selected n i s t :
  exists l g,
    rdid_loop chip n i (selected s t) =
      Some (tt, selected (console l s) (t ++ xfers g)) /\
    mosi g = repeat 0 n.
Proof.
  revert i s t. induction n as [|n IH]; intros i s t.
  - exists [], []. simpl. rewrite app_nil_r, console_nil.
    split; reflexivity.
  - simpl. rewrite bind_transfer.
    set (b := answer chip s t).
    assert (E1 : forall (c : bool) e (k : unit -> M unit) s0 t0,
               bind (if c then modify (console [e]) else ret tt) k
                    (selected s0 t0) =
               k tt (selected (console (if c then [e] else []) s0) t0)).
    { intros [] e k s0 t0.
      - apply bind_console.
      - rewrite bind_ret, console_nil. reflexivity. }
    unfold Serial_println, Serial_print, Serial_print_num.
    rewrite E1, E1, !bind_console, !console_console.
    match goal with
    | |- context [rdid_loop chip n (i + 1) (selected (console ?l1 s) ?t1)] =>
        destruct (IH (i + 1) (console l1 s) t1) as (l & g & E & Hg);
        exists (l1 ++ l), ((0, b) :: g)
    end.
    split.
    + rewrite E, console_console, <- !app_assoc. reflexivity.
    + simpl. rewrite Hg. reflexivity.
Qed.

(** *** The methods built on [command] *)

(** Closes [exists g u, transaction w bytes g u /\ s' = settled s u]. *)
Ltac transaction_void t Hpre :=
  eexists _, _; split; cycle 1;
  [ reflexivity
  | exists t; eexists; split; [exact Hpre|]; split; cycle 1;
    [ reflexivity | split; cycle 1; [reflexivity|] ] ].

Lemma mosi_app (g g' : frame) : mosi (g ++ g') = mosi g ++ mosi g'.
Proof. apply map_app. Qed.

Lemma received_app (g g' : frame) :
  received (g ++ g') = received g ++ received g'.
Proof. apply map_app. Qed.

Lemma readByte_spec fuel addr s v s' :
  readByte chip fuel addr s = Some (v, s') ->
  exists g u,
    transaction false
      (SPIFLASH_ARRAYREADLOWFREQ :: code_address addr ++ [0]) g u /\
    v = nth 4 (received g) 0 /\
    s' = settled s u.
Proof.
  unfold readByte, send_address. intros H. command_in H t r Hpre.
  exec H. finish H. transaction_done t Hpre; reflexivity.
Qed.

Lemma readBytes_spec fuel addr len s v s' :
  readBytes chip fuel addr len s = Some (v, s') ->
  exists g u,
    transaction false
      (SPIFLASH_ARRAYREAD :: code_address addr ++ 0 :: repeat 0 len) g u /\
    v = skipn 5 (received g) /\
    s' = settled s u.
Proof.
  unfold readBytes, send_address. intros H. command_in H t r Hpre.
  exec H.
  match type of H with
  | bind (read_loop chip ?n) _ (selected ?s0 ?T) = _ =>
      destruct (read_loop_selected n s0 T) as (g' & E & Hg);
      rewrite (bind_eq _ _ _ _ _ E), frame_extend in H; clear E
  end.
  exec H. finish H. transaction_done t Hpre.
  - rewrite mosi_app, Hg. reflexivity.
  - rewrite received_app. reflexivity.
Qed.

Lemma writeByte_spec fuel addr byt s s' :
  writeByte chip fuel addr byt s = Some (tt, s') ->
  exists g u,
    transaction true
      (SPIFLASH_BYTEPAGEPROGRAM :: code_address addr ++ [to_byte byt]) g u /\
    s' = settled s u.
Proof.
  unfold writeByte, send_address. intros H. command_in H t r Hpre.
  exec H. rewrite unselect_selected' in H. finish H.
  transaction_void t Hpre. reflexivity.
Qed.

Lemma writeBytes_spec fuel addr buf len s s' :
  writeBytes chip fuel addr buf len s = Some (tt, s') ->
  exists g u,
    transaction true
      (SPIFLASH_BYTEPAGEPROGRAM :: code_address addr ++
       map (fun i => to_byte (nth i buf 0)) (seq 0 len)) g u /\
    s' = settled s u.
Proof.
  unfold writeBytes, send_address. intros H. command_in H t r Hpre.
  exec H.
  match type of H with
  | bind (write_loop chip ?b ?n ?i) _ (selected ?s0 ?T) = _ =>
      destruct (write_loop_selected b n i s0 T) as (g' & E & Hg);
      rewrite (bind_eq _ _ _ _ _ E), frame_extend in H; clear E
  end.
  rewrite unselect_selected' in H. finish H.
  transaction_void t Hpre. rewrite mosi_app, Hg. reflexivity.
Qed.

Lemma bulkErase_spec fuel s s' :
  bulkErase chip fuel s = Some (tt, s') ->
  exists g u,
    transaction true [SPIFLASH_CHIPERASE] g u /\ s' = settled s u.
Proof.
  unfold bulkErase. intros H. command_in H t r Hpre.
  rewrite unselect_selected' in H. finish H.
  transaction_void t Hpre. reflexivity.
Qed.

Lemma blockErase4K_spec fuel addr s s' :
  blockErase4K chip fuel addr s = Some (tt, s') ->
  exists g u,
    transaction true (SPIFLASH_BLOCKERASE_4K :: code_address addr) g u /\
    s' = settled s u.
Proof.
  unfold blockErase4K, send_address. intros H. command_in H t r Hpre.
  exec H. rewrite unselect_selected' in H. finish H.
  transaction_void t Hpre. reflexivity.
Qed.

Lemma blockErase64K_spec fuel addr s s' :
  blockErase64K chip fuel addr s = Some (tt, s') ->
  exists g u,
    transaction true (SPIFLASH_BLOCKERASE_64K :: code_address addr) g u /\
    s' = settled s u.
Proof.
  unfold blockErase64K, send_address. intros H. command_in H t r Hpre.
  exec H. rewrite unselect_selected' in H. finish H.
  transaction_void t Hpre. reflexivity.
Qed.

Lemma readUniqueId_spec fuel s v s' :
  readUniqueId chip fuel s = Some (v, s') ->
  exists a g u,
    transaction false (SPIFLASH_MACREAD :: repeat 0 16) g u /\
    s' = settled (put_UNIQUEID a s) u.
Proof.
  unfold readUniqueId. intros H. command_in H t r Hpre. exec H.
  match type of H with
  | bind (fill_UNIQUEID chip ?n ?i) _ (selected ?s0 ?T) = _ =>
      destruct (fill_UNIQUEID_selected n i s0 T) as (a & g' & E & Hg);
      rewrite (bind_eq _ _ _ _ _ E), frame_extend in H; clear E
  end.
  exec H. unfold gets in H. finish H. exists a.
  transaction_void t Hpre. rewrite mosi_app, Hg. reflexivity.
Qed.

(** *** The methods that select the chip themselves *)

Lemma readDeviceId_spec s v s' :
  readDeviceId chip s = Some (v, s') ->
  exists g u,
    one_frame [SPIFLASH_IDREAD; 0; 0; 0] g u /\
    v = jedec_of g /\
    s' = settled s u.
Proof.
  unfold readDeviceId. intros H. exec H. finish H.
  eexists _, _. split; [|split]; cycle 2;
    [ rewrite app_nil_l; reflexivity
    | split; cycle 1; reflexivity
    | reflexivity ].
Qed.

Lemma readStatus_spec s v s' :
  readStatus chip s = Some (v, s') ->
  exists g u,
    one_frame [SPIFLASH_STATUSREAD; 0] g u /\
    v = nth 1 (received g) 0 /\
    s' = settled s u.
Proof.
  unfold readStatus. intros H. exec H. finish H.
  eexists _, _. split; [|split]; cycle 2;
    [ rewrite app_nil_l; reflexivity
    | split; cycle 1; reflexivity
    | reflexivity ].
Qed.

Lemma printStatus_spec s s' :
  printStatus chip s = Some (tt, s') ->
  exists l g u,
    one_frame [SPIFLASH_STATUSREAD; 0; SPIFLASH_STATUSREAD2; 0] g u /\
    s' = settled (console l s) u.
Proof.
  unfold printStatus, Serial_print, Serial_println_num. intros H.
  exec H. rewrite unselect_selected', !console_console in H.
  finish H.
  eexists _, _, _. split; cycle 1;
    [rewrite app_nil_l; reflexivity | split; cycle 1; reflexivity].
Qed.

Lemma printRDID_spec s s' :
  printRDID chip s = Some (tt, s') ->
  exists l g u,
    one_frame (SPIFLASH_IDREAD :: repeat 0 320) g u /\
    s' = settled (console l s) u.
Proof.
  unfold printRDID, Serial_println. intros H. exec H.
  match type of H with
  | bind (rdid_loop chip ?n ?i) _ (selected ?s0 ?T) = _ =>
      destruct (rdid_loop_selected n i s0 T) as (l & g' & E & Hg);
      rewrite (bind_eq _ _ _ _ _ E), frame_extend in H; clear E
  end.
  exec H. rewrite unselect_selected', !console_console in H.
  finish H.
  eexists _, _, _. split; cycle 1; [rewrite app_nil_l; reflexivity|].
  split; cycle 1; [reflexivity|]. rewrite mosi_app, Hg. reflexivity.
Qed.

(** *** The erase loops *)

Lemma SPI_transfer_congr a b :
  to_byte a = to_byte b -> SPI_transfer chip a = SPI_transfer chip b.
Proof. unfold SPI_transfer. intros ->. reflexivity. Qed.

Lemma send_address_congr a b :
  a mod 2 ^ 24 = b mod 2 ^ 24 -> send_address chip a = send_address chip b.
Proof.
  intros H. apply code_address_congr in H. unfold code_address in H.
  injection H as H2 H1 H0. unfold send_address.
  rewrite (SPI_transfer_congr _ _ H2), (SPI_transfer_congr _ _ H1),
    (SPI_transfer_congr _ _ H0).
  reflexivity.
Qed.

Lemma blockErase4K_congr fuel a b :
  a mod 2 ^ 24 = b mod 2 ^ 24 ->
  blockErase4K chip fuel a = blockErase4K chip fuel b.
Proof.
  intros H. unfold blockErase4K. rewrite (send_address_congr _ _ H).
  reflexivity.
Qed.

Lemma blockErase64K_congr fuel a b :
  a mod 2 ^ 24 = b mod 2 ^ 24 ->
  blockErase64K chip fuel a = blockErase64K chip fuel b.
Proof.
  intros H. unfold blockErase64K. rewrite (send_address_congr _ _ H).
  reflexivity.
Qed.

(** The loop variable wraps as a [long] does, the bytes on the bus do not
    notice: the loop is the sequence of calls at [a], [a + step], ... *)
Lemma erase_loop_from (erase : Z -> M unit) step a :
  (forall x y, x mod 2 ^ 24 = y mod 2 ^ 24 -> erase x = erase y) ->
  forall n k a' s,
    a' mod 2 ^ 24 = (a + step * Z.of_nat k) mod 2 ^ 24 ->
    erase_loop erase step n a' s =
    erase_each erase (map (fun i => a + step * Z.of_nat i) (seq k n)) s.
Proof.
  intros Hc. induction n as [|n IH]; intros k a' s Ha; simpl.
  - reflexivity.
  - rewrite (Hc _ _ Ha). unfold bind.
    destruct (erase (a + step * Z.of_nat k) s) as [[[] s1]|];
      [|reflexivity].
    apply IH. unfold long_add. rewrite to_long_low24.
    rewrite Nat2Z.inj_succ.
    replace (a + step * Z.succ (Z.of_nat k))
      with ((a + step * Z.of_nat k) + step) by lia.
    rewrite (Z.add_mod a'), (Z.add_mod (a + step * Z.of_nat k)), Ha
      by (change (2 ^ 24) with 16777216; lia).
    reflexivity.
Qed.

Lemma erase_loop_blocks (erase : Z -> M unit) step n a s :
  (forall x y, x mod 2 ^ 24 = y mod 2 ^ 24 -> erase x = erase y) ->
  erase_loop erase step n a s = erase_each erase (blocks step n a) s.
Proof.
  intros Hc. apply (erase_loop_from erase step a Hc).
  rewrite Z.mul_0_r, Z.add_0_r. reflexivity.
Qed.

Lemma erase_each_spec (erase : Z -> M unit) opc :
  (forall a s s',
     erase a s = Some (tt, s') ->
     exists g u,
       transaction true (opc :: code_address a) g u /\ s' = settled s u) ->
  forall addrs a s s',
    erase_each erase (a :: addrs) s = Some (tt, s') ->
    exists u, erases opc (a :: addrs) u /\ s' = settled s u.
Proof.
  intros He. induction addrs as [|b addrs IH]; intros a s s' H;
    simpl in H; apply bind_Some in H; destruct H as ([] & s1 & H1 & H);
    apply He in H1; destruct H1 as (g & u & Hu & ->).
  - finish H. exists (u ++ []). split.
    + econstructor; [eassumption | constructor].
    + rewrite app_nil_r. reflexivity.
  - apply IH in H. destruct H as (us & Hus & ->).
    exists (u ++ us). split; [econstructor; eassumption|].
    apply settled_settled.
Qed.

Lemma blockErase32K_spec fuel addr s s' :
  blockErase32K chip fuel addr s = Some (tt, s') ->
  exists u,
    erases SPIFLASH_BLOCKERASE_4K (blocks 4096 8 addr) u /\ s' = settled s u.
Proof.
  unfold blockErase32K.
  rewrite (erase_loop_blocks _ _ _ _ _ (blockErase4K_congr fuel)).
  intros H.
  exact (erase_each_spec _ _ (blockErase4K_spec fuel)
           (map (fun i => addr + 4096 * Z.of_nat i) (seq 1 7))
           (addr + 4096 * Z.of_nat 0) s s' H).
Qed.

Lemma blockErase512K_spec fuel addr s s' :
  blockErase512K chip fuel addr s = Some (tt, s') ->
  exists u,
    erases SPIFLASH_BLOCKERASE_64K (blocks 65536 8 addr) u /\
    s' = settled s u.
Proof.
  unfold blockErase512K.
  rewrite (erase_loop_blocks _ _ _ _ _ (blockErase64K_congr fuel)).
  intros H.
  exact (erase_each_spec _ _ (blockErase64K_spec fuel)
           (map (fun i => addr + 65536 * Z.of_nat i) (seq 1 7))
           (addr + 65536 * Z.of_nat 0) s s' H).
Qed.

(** *** initialize *)

Lemma initialize_start {B : Type} (k : unit -> M B) s :
  bind unselect k (set_SS_output true (set_saved (SPCR s) (SPSR s) s)) =
  k tt (settled (set_SS_output true s) [CS_HIGH]).
Proof. destruct s. reflexivity. Qed.

Lemma initialize_spec fuel s b s' :
  initialize chip fuel s = Some (b, s') ->
  exists t,
    emits (_jedecID s) Op_initialize (R_boolean b) t /\
    s' = settled (set_SS_output true s) t.
Proof.
  unfold initialize, save_SPI_settings, pinMode_OUTPUT, wakeup. intros H.
  rewrite !bind_modify, initialize_start, bind_ret in H.
  wait_in H p Hp. rewrite settled_settled, bind_gets in H.
  change (_jedecID (settled (set_SS_output true s) ([CS_HIGH] ++ p)))
    with (_jedecID s) in H.
  destruct (_jedecID s =? 0) eqn:Ej.
  - apply Z.eqb_eq in Ej. rewrite bind_ret in H.
    command_in H t r Hpre. exec H. finish H.
    eexists. split; cycle 1; [reflexivity|].
    eapply (emits_initialize_unchecked _ p); [exact Ej | exact Hp |].
    exists t. eexists. split; [exact Hpre|].
    split; cycle 1; [reflexivity|]. split; cycle 1; reflexivity.
  - apply Z.eqb_neq in Ej. rewrite bind_assoc in H.
    apply bind_Some in H. destruct H as (v & s1 & Hid & H).
    apply readDeviceId_spec in Hid.
    destruct Hid as (gid & uid & Hgid & -> & ->).
    rewrite bind_ret, settled_settled in H.
    destruct (jedec_of gid =? _jedecID s) eqn:Ev.
    + apply Z.eqb_eq in Ev. command_in H t r Hpre. exec H. finish H.
      eexists. split; cycle 1; [reflexivity|].
      rewrite <- app_assoc.
      eapply (emits_initialize_match _ p gid uid); try assumption.
      exists t. eexists. split; [exact Hpre|].
      split; cycle 1; [reflexivity|]. split; cycle 1; reflexivity.
    + apply Z.eqb_neq in Ev. finish H.
      eexists. split; [|reflexivity].
      apply (emits_initialize_mismatch _ p gid uid); assumption.
Qed.

(** *** What the loops store and print *)

Lemma store_length a i v : length (store a i v) = length a.
Proof.
  revert i. induction a as [|x a IH]; intros [|i]; simpl; auto.
Qed.

Lemma firstn_store a i v :
  (i < length a)%nat -> firstn (S i) (store a i v) = firstn i a ++ [v].
Proof.
  revert i. induction a as [|x a IH]; intros [|i] Hi; simpl in *;
    try lia; try reflexivity.
  f_equal. apply IH. lia.
Qed.

Lemma skipn_store a i v k :
  (i < k)%nat -> skipn k (store a i v) = skipn k a.
Proof.
  revert i k. induction a as [|x a IH]; intros [|i] [|k] Hi; simpl in *;
    try lia; try reflexivity.
  apply IH. lia.
Qed.


Lemma fill_UNIQUEID_received n i s t :
  (i + n <= length (UNIQUEID s))%nat ->
  exists g,
    fill_UNIQUEID chip n i (selected s t) =
      Some (tt,
            selected
              (put_UNIQUEID
                 (firstn i (UNIQUEID s) ++ received g ++
                  skipn (i + n) (UNIQUEID s)) s)
              (t ++ xfers g)) /\
    mosi g = repeat 0 n.
Proof.
  revert i s t. induction n as [|n IH]; intros i s t Hn.
  - exists []. simpl. rewrite app_nil_r, Nat.add_0_r, firstn_skipn.
    rewrite put_UNIQUEID_same. split; reflexivity.
  - simpl. rewrite bind_transfer, bind_modify. unfold set_UNIQUEID.
    rewrite put_UNIQUEID_selected.
    set (b := answer chip s t).
    match goal with
    | |- context [fill_UNIQUEID chip n (S i) (selected ?s1 ?t1)] =>
        destruct (IH (S i) s1 t1) as (g & E & Hg)
    end.
    { change (S i + n <= length (store (UNIQUEID s) i b))%nat.
      rewrite store_length. lia. }
    exists ((0, b) :: g). split.
    + rewrite E, put_UNIQUEID_put, <- app_assoc.
      cbn [UNIQUEID put_UNIQUEID selected].
      rewrite firstn_store, skipn_store by lia.
      replace (S i + n)%nat with (i + S n)%nat by lia.
      simpl. rewrite <- app_assoc. reflexivity.
    + simpl. rewrite Hg. reflexivity.
Qed.

Lemma readUniqueId_received fuel s v s' :
  length (UNIQUEID s) = 12%nat ->
  readUniqueId chip fuel s = Some (v, s') ->
  exists g u,
    transaction false (SPIFLASH_MACREAD :: repeat 0 16) g u /\
    v = skipn 5 (received g) /\
    s' = settled (put_UNIQUEID v s) u.
Proof.
  unfold readUniqueId. intros Hlen H. command_in H t r Hpre. exec H.
  match type of H with
  | bind (fill_UNIQUEID chip ?n ?i) _ (selected ?s0 ?T) = _ =>
      destruct (fill_UNIQUEID_received n i s0 T) as (g' & E & Hg);
      [ rewrite Hlen; apply Nat.le_refl
      | rewrite (bind_eq _ _ _ _ _ E), frame_extend in H; clear E ]
  end.
  exec H. unfold gets in H.
  rewrite skipn_all2, app_nil_r in H by (rewrite Hlen; apply Nat.le_refl).
  simpl firstn in H. rewrite app_nil_l in H.
  finish H.
  transaction_done t Hpre.
  - rewrite mosi_app, Hg. reflexivity.
  - rewrite received_app. reflexivity.
Qed.


Lemma printed_values_app l l' :
  printed_values (l ++ l') = printed_values l ++ printed_values l'.
Proof. apply flat_map_app. Qed.

Lemma newlines_app l l' : newlines (l ++ l') = (newlines l + newlines l')%nat.
Proof. unfold newlines. rewrite filter_app. apply length_app. Qed.

Lemma rdid_loop_printed n i s t :
  exists l g,
    rdid_loop chip n i (selected s t) =
      Some (tt, selected (console l s) (t ++ xfers g)) /\
    mosi g = repeat 0 n /\
    printed_values l = received g /\
    newlines l = line_breaks n i.
Proof.
  revert i s t. induction n as [|n IH]; intros i s t.
  - exists [], []. simpl. rewrite app_nil_r, console_nil.
    repeat split; reflexivity.
  - simpl. rewrite bind_transfer.
    set (b := answer chip s t).
    assert (E1 : forall (c : bool) e (k : unit -> M unit) s0 t0,
               bind (if c then modify (console [e]) else ret tt) k
                    (selected s0 t0) =
               k tt (selected (console (if c then [e] else []) s0) t0)).
    { intros [] e k s0 t0.
      - apply bind_console.
      - rewrite bind_ret, console_nil. reflexivity. }
    unfold Serial_println, Serial_print, Serial_print_num.
    rewrite E1, E1, !bind_console, !console_console.
    match goal with
    | |- context [rdid_loop chip n (i + 1) (selected (console ?l1 s) ?t1)] =>
        destruct (IH (i + 1) (console l1 s) t1) as (l & g & E & Hg & Hv & Hl);
        exists (l1 ++ l), ((0, b) :: g)
    end.
    split; [|split; [|split]].
    + rewrite E, console_console, <- !app_assoc. reflexivity.
    + simpl. rewrite Hg. reflexivity.
    + rewrite printed_values_app, Hv.
      destruct ((0 <? i) && (i mod 32 =? 0)), (b <? 16); reflexivity.
    + rewrite newlines_app, Hl.
      destruct ((0 <? i) && (i mod 32 =? 0)), (b <? 16); reflexivity.
Qed.

Lemma printRDID_printed s s' :
  printRDID chip s = Some (tt, s') ->
  exists l g u,
    one_frame (SPIFLASH_IDREAD :: repeat 0 320) g u /\
    s' = settled (console l s) u /\
    printed_values l = skipn 1 (received g) /\
    newlines l = 10%nat.
Proof.
  unfold printRDID, Serial_println. intros H. exec H.
  match type of H with
  | bind (rdid_loop chip ?n ?i) _ (selected ?s0 ?T) = _ =>
      destruct (rdid_loop_printed n i s0 T) as (l & g' & E & Hg & Hv & Hl);
      rewrite (bind_eq _ _ _ _ _ E), frame_extend in H; clear E
  end.
  exec H. rewrite unselect_selected', !console_console in H.
  finish H.
  eexists _, _, _. split; [split|split; [|split]].
  3: rewrite app_nil_l; reflexivity.
  2: reflexivity.
  - rewrite mosi_app, Hg. reflexivity.
  - rewrite received_app. simpl. rewrite printed_values_app, Hv.
    simpl. apply app_nil_r.
  - rewrite newlines_app, Hl. vm_compute. reflexivity.
Qed.

Lemma printStatus_printed s s' :
  printStatus chip s = Some (tt, s') ->
  exists l g u,
    one_frame [SPIFLASH_STATUSREAD; 0; SPIFLASH_STATUSREAD2; 0] g u /\
    s' = settled (console l s) u /\
    l = [SerialPrint label_status1;
         SerialPrintlnNum (nth 1 (received g) 0) BIN;
         SerialPrint label_status2;
         SerialPrintlnNum (nth 3 (received g) 0) BIN].
Proof.
  unfold printStatus, Serial_print, Serial_println_num. intros H.
  exec H. rewrite unselect_selected', !console_console in H.
  finish H.
  eexists _, _, _. split; [split|split].
  3: rewrite app_nil_l; reflexivity.
  2: reflexivity.
  - reflexivity.
  - reflexivity.
Qed.

(** *** The identifier as a number *)

Lemma lor_shiftl_add hi lo n :
  0 <= n -> 0 <= lo < 2 ^ n -> Z.lor (Z.shiftl hi n) lo = hi * 2 ^ n + lo.
Proof.
  intros Hn Hlo.
  assert (L : Z.land (Z.shiftl hi n) lo = 0).
  { apply Z.bits_inj'. intros k Hk. rewrite Z.land_spec, Z.bits_0.
    destruct (Z.lt_ge_cases k n) as [Hkn | Hkn].
    - rewrite Z.shiftl_spec_low by exact Hkn. reflexivity.
    - apply andb_false_intro2.
      destruct (Z.eq_dec lo 0) as [-> | Hz]; [apply Z.bits_0|].
      apply Z.bits_above_log2; [lia|].
      apply Z.log2_lt_pow2; [lia|].
      apply Z.lt_le_trans with (2 ^ n); [lia|].
      apply Z.pow_le_mono_r; lia. }
  rewrite <- Z.lxor_lor by exact L.
  rewrite <- Z.add_nocarry_lxor by exact L.
  rewrite Z.shiftl_mul_pow2 by exact Hn. reflexivity.
Qed.

Lemma lor_bytes_be24 b2 b1 b0 :
  0 <= b2 < 256 -> 0 <= b1 < 256 -> 0 <= b0 < 256 ->
  Z.lor (Z.lor (Z.lor 0 (Z.shiftl b2 16)) (Z.shiftl b1 8)) b0 =
  be24 [b2; b1; b0].
Proof.
  intros H2 H1 H0. rewrite Z.lor_0_l.
  rewrite (lor_shiftl_add b2 (Z.shiftl b1 8) 16);
    [|lia|rewrite Z.shiftl_mul_pow2 by lia;
          change (2 ^ 8) with 256; change (2 ^ 16) with 65536; lia].
  rewrite (Z.shiftl_mul_pow2 b1 8) by lia.
  replace (b2 * 2 ^ 16 + b1 * 2 ^ 8) with (Z.shiftl (b2 * 256 + b1) 8)
    by (rewrite Z.shiftl_mul_pow2 by lia;
        change (2 ^ 8) with 256; change (2 ^ 16) with 65536; lia).
  rewrite lor_shiftl_add by (change (2 ^ 8) with 256; lia).
  unfold be24. change (2 ^ 8) with 256. lia.
Qed.

Lemma be24_range b2 b1 b0 :
  0 <= b2 < 256 -> 0 <= b1 < 256 -> 0 <= b0 < 256 ->
  0 <= be24 [b2; b1; b0] < 2 ^ 24.
Proof. unfold be24. change (2 ^ 24) with 16777216. lia. Qed.

Lemma answer_range s t : 0 <= answer chip s t < 256.
Proof. apply to_byte_range. Qed.

(** [readDeviceId] run from any state. *)
Lemma readDeviceId_eq s :
  exists r b2 b1 b0,
    (0 <= b2 < 256 /\ 0 <= b1 < 256 /\ 0 <= b0 < 256) /\
    readDeviceId chip s =
      Some (be24 [b2; b1; b0],
            settled s [CS_LOW; Xfer SPIFLASH_IDREAD r; Xfer 0 b2; Xfer 0 b1;
                       Xfer 0 b0; CS_HIGH]).
Proof.
  unfold readDeviceId. rewrite bind_select.
  repeat (rewrite bind_transfer; cbv beta).
  rewrite bind_unselect. unfold ret. eexists _, _, _, _.
  split; cycle 1.
  - rewrite lor_bytes_be24 by apply answer_range. reflexivity.
  - repeat split; apply answer_range.
Qed.

(** An identifier that does not fit in three bytes is never matched. *)
Lemma initialize_wide fuel s b s' :
  _jedecID s < 0 \/ 2 ^ 24 <= _jedecID s ->
  initialize chip fuel s = Some (b, s') -> b = false.
Proof.
  unfold initialize, save_SPI_settings, pinMode_OUTPUT, wakeup.
  intros Hw H.
  rewrite !bind_modify, initialize_start, bind_ret in H.
  wait_in H p Hp. rewrite settled_settled, bind_gets in H.
  change (_jedecID (settled (set_SS_output true s) ([CS_HIGH] ++ p)))
    with (_jedecID s) in H.
  destruct (_jedecID s =? 0) eqn:Ej.
  - apply Z.eqb_eq in Ej. change (2 ^ 24) with 16777216 in Hw. lia.
  - rewrite bind_assoc in H.
    apply bind_Some in H. destruct H as (v & s1 & Hid & H).
    match type of Hid with
    | readDeviceId chip ?s0 = _ =>
        destruct (readDeviceId_eq s0) as (r & b2 & b1 & b0 & Hb & E)
    end.
    rewrite E in Hid. injection Hid as <- <-.
    destruct Hb as (H2 & H1 & H0).
    pose proof (be24_range b2 b1 b0 H2 H1 H0) as Hr.
    rewrite bind_ret in H.
    unfold be24 in Hr, H.
    destruct (b2 * 65536 + b1 * 256 + b0 =? _jedecID s) eqn:Ev.
    + apply Z.eqb_eq in Ev. change (2 ^ 24) with 16777216 in Hw, Hr. lia.
    + apply ret_Some in H. apply H.
Qed.

(** *** readBytes into the driver's own array *)


End Methods.

(** ** What the shapes say about frames and opcodes *)

Lemma preamble_discipline w t : preamble w t -> cs_discipline false t = true.
Proof.
  destruct w; simpl.
  - intros (p1 & r & p2 & H1 & H2 & ->).
    apply (cs_discipline_app _ _ _ (polls_discipline _ H1)).
    simpl. apply polls_discipline. exact H2.
  - apply polls_discipline.
Qed.

Lemma one_frame_discipline bytes g u :
  one_frame bytes g u -> cs_discipline false u = true.
Proof. intros [_ ->]. apply discipline_frame. Qed.

Lemma one_frame_frames bytes g u : one_frame bytes g u -> frames u = [g].
Proof. intros [_ ->]. apply frames_frame. Qed.

Lemma transaction_discipline w bytes g u :
  transaction w bytes g u -> cs_discipline false u = true.
Proof.
  intros (t & u' & Ht & Hu & ->).
  apply (cs_discipline_app _ _ _ (preamble_discipline _ _ Ht)).
  apply (one_frame_discipline _ _ _ Hu).
Qed.

Lemma transaction_frames w bytes g u :
  transaction w bytes g u ->
  exists t, preamble w t /\ frames u = frames t ++ [g] /\ mosi g = bytes.
Proof.
  intros (t & u' & Ht & Hu & ->). exists t. split; [exact Ht|].
  rewrite (frames_app _ _ _ (preamble_discipline _ _ Ht)).
  rewrite (one_frame_frames _ _ _ Hu). split; [reflexivity | apply Hu].
Qed.

Lemma preamble_write_frames t :
  preamble true t ->
  exists p1 r p2,
    poll_loop p1 = true /\ poll_loop p2 = true /\
    frames t = p1 ++ [[(SPIFLASH_WRITEENABLE, r)]] ++ p2.
Proof.
  intros (t1 & r & t2 & H1 & H2 & ->).
  exists (frames t1), r, (frames t2).
  split; [apply polls_frames, H1|]. split; [apply polls_frames, H2|].
  rewrite (frames_app _ _ _ (polls_discipline _ H1)). reflexivity.
Qed.

Lemma opcode_mosi (g : frame) o rest : mosi g = o :: rest -> opcode g = [o].
Proof.
  destruct g as [|[o' i] g]; simpl; [discriminate|].
  intros H. injection H as -> _. reflexivity.
Qed.

(** A write or erase transaction: wait, write enable, wait, opcode. *)
Lemma transaction_write_frames opc rest g u :
  transaction true (opc :: rest) g u ->
  enable_between_loops opc (frames u).
Proof.
  intros H. apply transaction_frames in H.
  destruct H as (t & Ht & Hf & Hg).
  apply preamble_write_frames in Ht.
  destruct Ht as (p1 & r & p2 & H1 & H2 & Ht).
  exists p1, r, p2, g. split; [exact H1|]. split; [exact H2|].
  split; [apply (opcode_mosi _ _ _ Hg)|].
  rewrite Hf, Ht, <- !app_assoc. reflexivity.
Qed.

Lemma count_occ_repeat_neq (x y : Z) n :
  x <> y -> count_occ Z.eq_dec (repeat x n) y = 0%nat.
Proof.
  intros H. induction n as [|n IH]; simpl; [reflexivity|].
  destruct (Z.eq_dec x y); [contradiction | exact IH].
Qed.

Lemma enable_between_loops_opcodes real fs :
  enable_between_loops real fs ->
  exists k1 k2,
    flat_map opcode fs =
    repeat SPIFLASH_STATUSREAD (S k1) ++ [SPIFLASH_WRITEENABLE] ++
    repeat SPIFLASH_STATUSREAD (S k2) ++ [real].
Proof.
  intros (p1 & r & p2 & f & H1 & H2 & Hf & ->).
  destruct (poll_loop_opcodes _ H1) as [k1 E1].
  destruct (poll_loop_opcodes _ H2) as [k2 E2].
  exists k1, k2. rewrite !flat_map_app, E1, E2. simpl flat_map.
  rewrite Hf, app_nil_r. reflexivity.
Qed.

Lemma count_occ_cons_neq (x y : Z) l :
  x <> y -> count_occ Z.eq_dec (x :: l) y = count_occ Z.eq_dec l y.
Proof.
  intros H. simpl. destruct (Z.eq_dec x y); [contradiction | reflexivity].
Qed.

Lemma count_occ_cons_same (x : Z) l :
  count_occ Z.eq_dec (x :: l) x = S (count_occ Z.eq_dec l x).
Proof. simpl. destruct (Z.eq_dec x x); [reflexivity | contradiction]. Qed.

(** Among the opcodes of a write or erase transaction the write enable
    occurs once, and so does the real opcode. *)
Lemma enable_between_loops_count real fs :
  enable_between_loops real fs ->
  real <> SPIFLASH_WRITEENABLE -> real <> SPIFLASH_STATUSREAD ->
  count_occ Z.eq_dec (flat_map opcode fs) SPIFLASH_WRITEENABLE = 1%nat /\
  count_occ Z.eq_dec (flat_map opcode fs) real = 1%nat.
Proof.
  intros H Hw Hs. apply enable_between_loops_opcodes in H.
  destruct H as (k1 & k2 & ->).
  rewrite !count_occ_app.
  rewrite !count_occ_repeat_neq by (unfold SPIFLASH_STATUSREAD in *;
    unfold SPIFLASH_WRITEENABLE; congruence || lia).
  split.
  - rewrite (count_occ_cons_neq real) by exact Hw.
    rewrite count_occ_cons_same. reflexivity.
  - rewrite (count_occ_cons_neq SPIFLASH_WRITEENABLE) by congruence.
    rewrite count_occ_cons_same. reflexivity.
Qed.

(** ** Every method against the grammar of the bus *)

Section Grammar.

Context {spi : SPIClass}.
Variable chip : list event -> Z.

Lemma bus_settled s t : bus (settled s t) = bus s ++ t.
Proof. reflexivity. Qed.

(** Whatever a method other than [command] returns, it has put on the bus
    what [emits] allows, and it leaves the chip deselected with the
    caller's bus settings in place. *)
Lemma run_emits fuel op s r s' :
  is_command op = false ->
  run chip fuel op s = Some (r, s') ->
  exists t,
    emits (_jedecID s) op r t /\
    bus s' = bus s ++ t /\
    (transacts op = true -> returned s s' t).
Proof.
  intros Hc H. destruct op; try discriminate Hc; clear Hc;
    unfold run, void in H; apply bind_Some in H;
    destruct H as (v & s1 & H1 & H); apply ret_Some in H;
    destruct H as [-> ->];
    try match type of v with unit => destruct v end.
  - apply initialize_spec in H1. destruct H1 as (t & Ht & ->).
    exists t. split; [exact Ht|]. split; [reflexivity|].
    intros _. apply returned_output.
  - apply readStatus_spec in H1. destruct H1 as (g & u & Hu & -> & ->).
    exists u. split; [constructor; exact Hu|]. split; [reflexivity|].
    intros _. apply returned_settled.
  - apply printStatus_spec in H1. destruct H1 as (l & g & u & Hu & ->).
    exists u. split; [econstructor; exact Hu|]. split; [reflexivity|].
    intros _. apply returned_console.
  - apply printRDID_spec in H1. destruct H1 as (l & g & u & Hu & ->).
    exists u. split; [econstructor; exact Hu|]. split; [reflexivity|].
    intros _. apply returned_console.
  - apply readByte_spec in H1. destruct H1 as (g & u & Hu & -> & ->).
    exists u. split; [constructor; exact Hu|]. split; [reflexivity|].
    intros _. apply returned_settled.
  - apply readBytes_spec in H1. destruct H1 as (g & u & Hu & -> & ->).
    exists u. split; [constructor; exact Hu|]. split; [reflexivity|].
    intros _. apply returned_settled.
  - apply writeByte_spec in H1. destruct H1 as (g & u & Hu & ->).
    exists u. split; [econstructor; exact Hu|]. split; [reflexivity|].
    intros _. apply returned_settled.
  - apply writeBytes_spec in H1. destruct H1 as (g & u & Hu & ->).
    exists u. split; [econstructor; exact Hu|]. split; [reflexivity|].
    intros _. apply returned_settled.
  - rewrite busy_eq in H1. injection H1 as <- <-.
    destruct (readStatus_spec chip s _ _ (readStatus_eq chip s))
      as (g & u & Hu & Hv & Hs).
    exists u. rewrite Hv, Hs. split; [constructor; exact Hu|].
    split; [reflexivity|]. intros _. apply returned_settled.
  - unfold chipErase in H1. apply blockErase512K_spec in H1.
    destruct H1 as (u & Hu & ->).
    exists u. split; [constructor; exact Hu|]. split; [reflexivity|].
    intros _. apply returned_settled.
  - apply bulkErase_spec in H1. destruct H1 as (g & u & Hu & ->).
    exists u. split; [econstructor; exact Hu|]. split; [reflexivity|].
    intros _. apply returned_settled.
  - apply blockErase4K_spec in H1. destruct H1 as (g & u & Hu & ->).
    exists u. split; [econstructor; exact Hu|]. split; [reflexivity|].
    intros _. apply returned_settled.
  - apply blockErase32K_spec in H1. destruct H1 as (u & Hu & ->).
    exists u. split; [constructor; exact Hu|]. split; [reflexivity|].
    intros _. apply returned_settled.
  - apply blockErase64K_spec in H1. destruct H1 as (g & u & Hu & ->).
    exists u. split; [econstructor; exact Hu|]. split; [reflexivity|].
    intros _. apply returned_settled.
  - apply blockErase512K_spec in H1. destruct H1 as (u & Hu & ->).
    exists u. split; [constructor; exact Hu|]. split; [reflexivity|].
    intros _. apply returned_settled.
  - apply readDeviceId_spec in H1. destruct H1 as (g & u & Hu & -> & ->).
    exists u. split; [constructor; exact Hu|]. split; [reflexivity|].
    intros _. apply returned_settled.
  - apply readUniqueId_spec in H1. destruct H1 as (a & g & u & Hu & ->).
    exists u. split; [econstructor; exact Hu|]. split; [reflexivity|].
    intros _. apply returned_put.
  - apply ret_Some in H1. destruct H1 as [_ ->].
    exists []. split; [constructor|]. split; [|discriminate].
    symmetry. apply app_nil_r.
  - apply ret_Some in H1. destruct H1 as [_ ->].
    exists []. split; [constructor|]. split; [|discriminate].
    symmetry. apply app_nil_r.
  - unfold end_, SPI_library, modify in H1. injection H1 as <-.
    exists []. split; [constructor|]. split; [|discriminate].
    destruct s. cbn. symmetry. apply app_nil_r.
Qed.

End Grammar.

(** ** With a responsive chip every method returns *)

Section Termination.

Context {spi : SPIClass}.
Variable chip : list event -> Z.
Variable n : nat.
Hypothesis chip_responsive : responsive chip n.

Lemma total_ret {A : Type} (a : A) : total (ret a).
Proof. intros s. exists a, s. reflexivity. Qed.

Lemma total_bind {A B : Type} (m : M A) (k : A -> M B) :
  total m -> (forall a, total (k a)) -> total (bind m k).
Proof.
  intros Hm Hk s. destruct (Hm s) as (a & s1 & E).
  destruct (Hk a s1) as (b & s2 & E2). exists b, s2.
  rewrite (bind_eq _ _ _ _ _ E). exact E2.
Qed.

Lemma total_modify f : total (modify f).
Proof. intros s. exists tt, (f s). reflexivity. Qed.

Lemma total_gets {A : Type} (f : state -> A) : total (gets f).
Proof. intros s. exists (f s), s. reflexivity. Qed.

Lemma total_transfer data : total (SPI_transfer chip data).
Proof. intros s. eexists _, _. reflexivity. Qed.

Lemma total_while_busy : total (while_busy chip n).
Proof.
  intros s. destruct (chip_responsive s) as [s' E]. exists tt, s'. exact E.
Qed.

Ltac returns :=
  repeat match goal with
         | |- total (ret _) => apply total_ret
         | |- total (modify _) => apply total_modify
         | |- total (gets _) => apply total_gets
         | |- total (SPI_transfer _ _) => apply total_transfer
         | |- total (while_busy _ _) => apply total_while_busy
         | |- total (bind _ _) => apply total_bind; [|intros ?]
         | |- total (if ?c then _ else _) => destruct c
         end.

Lemma total_select : total select.
Proof.
  unfold select, noInterrupts, save_SPI_settings, SPI_library, digitalWrite.
  returns.
Qed.

Lemma total_unselect : total unselect.
Proof.
  unfold unselect, digitalWrite, restore_SPI_settings, interrupts. returns.
Qed.

Lemma total_command cmd isWrite : total (command chip n cmd isWrite).
Proof.
  unfold command, command_plain.
  returns; first [apply total_select | apply total_unselect].
Qed.

Lemma total_send_address addr : total (send_address chip addr).
Proof. unfold send_address. returns. Qed.

Lemma total_read_loop len : total (read_loop chip len).
Proof. induction len; simpl; returns. exact IHlen. Qed.

Lemma total_write_loop buf k i : total (write_loop chip buf k i).
Proof. revert i. induction k; intros i; simpl; returns. apply IHk. Qed.

Lemma total_fill_UNIQUEID k i : total (fill_UNIQUEID chip k i).
Proof. revert i. induction k; intros i; simpl; returns. apply IHk. Qed.

Lemma total_rdid_loop k i : total (rdid_loop chip k i).
Proof.
  revert i. induction k; intros i; simpl;
    unfold Serial_println, Serial_print, Serial_print_num; returns.
  apply IHk.
Qed.

Lemma total_erase_loop (erase : Z -> M unit) step k a :
  (forall x, total (erase x)) -> total (erase_loop erase step k a).
Proof.
  intros He. revert a. induction k; intros a; simpl; returns.
  - apply He.
  - apply IHk.
Qed.

(** Closes the goals [returns] leaves: calls of other methods. *)
Ltac calls :=
  match goal with
  | |- total select => apply total_select
  | |- total unselect => apply total_unselect
  | |- total (command _ _ _ _) => apply total_command
  | |- total (send_address _ _) => apply total_send_address
  | |- total (read_loop _ _) => apply total_read_loop
  | |- total (write_loop _ _ _ _) => apply total_write_loop
  | |- total (fill_UNIQUEID _ _ _) => apply total_fill_UNIQUEID
  | |- total (rdid_loop _ _ _) => apply total_rdid_loop
  end.

Lemma total_readStatus : total (readStatus chip).
Proof. unfold readStatus. returns; calls. Qed.

Lemma total_readDeviceId : total (readDeviceId chip).
Proof. unfold readDeviceId. returns; calls. Qed.

Lemma total_blockErase4K addr : total (blockErase4K chip n addr).
Proof. unfold blockErase4K. returns; calls. Qed.

Lemma total_blockErase64K addr : total (blockErase64K chip n addr).
Proof. unfold blockErase64K. returns; calls. Qed.

Lemma total_initialize : total (initialize chip n).
Proof.
  unfold initialize, save_SPI_settings, pinMode_OUTPUT, wakeup.
  returns; first [calls | apply total_readDeviceId].
Qed.

Lemma run_total op : total (run chip n op).
Proof.
  destruct op; unfold run, void.
  - returns. apply total_initialize.
  - returns. apply total_command.
  - returns. apply total_readStatus.
  - unfold printStatus, Serial_print, Serial_println_num. returns; calls.
  - unfold printRDID, Serial_println. returns; calls.
  - unfold readByte. returns; calls.
  - unfold readBytes. returns; calls.
  - unfold writeByte. returns; calls.
  - unfold writeBytes. returns; calls.
  - unfold busy. returns. apply total_readStatus.
  - unfold chipErase, blockErase512K. returns.
    apply total_erase_loop. apply total_blockErase64K.
  - unfold bulkErase. returns; calls.
  - returns. apply total_blockErase4K.
  - unfold blockErase32K. returns.
    apply total_erase_loop. apply total_blockErase4K.
  - returns. apply total_blockErase64K.
  - unfold blockErase512K. returns.
    apply total_erase_loop. apply total_blockErase64K.
  - returns. apply total_readDeviceId.
  - unfold readUniqueId. returns; calls.
  - unfold sleep. returns.
  - unfold wakeup. returns.
  - unfold end_, SPI_library. returns.
Qed.

End Termination.

(** The chips of the examples are responsive. *)
Lemma ready_chip_responsive {spi : SPIClass} : responsive ready_chip 1.
Proof.
  intros s. simpl. rewrite (bind_eq _ _ _ _ _ (busy_eq ready_chip s)).
  eexists. reflexivity.
Qed.

Lemma S25FL127S_chip_responsive {spi : SPIClass} :
  responsive S25FL127S_chip 1.
Proof.
  intros s. simpl. rewrite (bind_eq _ _ _ _ _ (busy_eq S25FL127S_chip s)).
  assert (E : status_of S25FL127S_chip s = 0).
  { unfold status_of, answer, S25FL127S_chip.
    assert (F : forall tr acc,
              since_select acc
                (tr ++ [CS_LOW; Xfer SPIFLASH_STATUSREAD
                          (to_byte
                             match since_select None (bus s ++ [CS_LOW]) with
                             | Some (o :: args) =>
                                 if o =? SPIFLASH_IDREAD
                                 then nth (length args) [1; 32; 24] 0
                                 else 0
                             | _ => 0
                             end)]) =
              Some [SPIFLASH_STATUSREAD]).
    { induction tr as [|e tr IH]; intros acc; simpl.
      - reflexivity.
      - destruct e; apply IH. }
    rewrite F. reflexivity. }
  rewrite E. eexists. reflexivity.
Qed.

(** ** The discipline of the select line *)

Lemma erases_discipline opc addrs u :
  erases opc addrs u -> cs_discipline false u = true.
Proof.
  induction 1 as [|a addrs g u us Hu Hus IH]; [reflexivity|].
  apply (cs_discipline_app _ _ _ (transaction_discipline _ _ _ _ Hu) IH).
Qed.

Lemma emits_discipline jedec op r t :
  emits jedec op r t -> cs_discipline false t = true.
Proof.
  destruct 1;
    repeat match goal with
           | H : polls _ |- _ => apply polls_discipline in H
           | H : transaction _ _ _ _ |- _ => apply transaction_discipline in H
           | H : one_frame _ _ _ |- _ => apply one_frame_discipline in H
           | H : erases _ _ _ |- _ => apply erases_discipline in H
           end;
    simpl; try reflexivity; try assumption;
    repeat (apply cs_discipline_app; try assumption).
Qed.

(** ** The traffic without the status polls *)

Lemma commands_app c a b :
  cs_discipline c a = true -> commands (a ++ b) = commands a ++ commands b.
Proof.
  intros H. unfold commands.
  rewrite (frames_app _ _ _ H), map_app, filter_app. reflexivity.
Qed.

Lemma polls_commands t : polls t -> commands t = [].
Proof.
  induction 1 as [r st H | r st t H Ht IH]; [reflexivity|].
  unfold commands in *. simpl. exact IH.
Qed.

Lemma one_frame_commands bytes g u :
  one_frame bytes g u -> is_poll bytes = false -> commands u = [bytes].
Proof.
  intros Hu Hb. unfold commands. rewrite (one_frame_frames _ _ _ Hu).
  destruct Hu as [Hg _]. simpl. rewrite Hg, Hb. reflexivity.
Qed.

Lemma preamble_commands w t :
  preamble w t ->
  commands t = if w then [[SPIFLASH_WRITEENABLE]] else [].
Proof.
  destruct w; simpl.
  - intros (p1 & r & p2 & H1 & H2 & ->).
    rewrite (commands_app _ _ _ (polls_discipline _ H1)).
    rewrite (polls_commands _ H1).
    change (commands (CS_LOW :: Xfer SPIFLASH_WRITEENABLE r :: CS_HIGH :: p2))
      with ([SPIFLASH_WRITEENABLE] :: commands p2).
    rewrite (polls_commands _ H2). reflexivity.
  - apply polls_commands.
Qed.

Lemma transaction_commands w bytes g u :
  transaction w bytes g u -> is_poll bytes = false ->
  commands u = (if w then [[SPIFLASH_WRITEENABLE]] else []) ++ [bytes].
Proof.
  intros (t & u' & Ht & Hu & ->) Hb.
  rewrite (commands_app _ _ _ (preamble_discipline _ _ Ht)).
  rewrite (preamble_commands _ _ Ht), (one_frame_commands _ _ _ Hu Hb).
  reflexivity.
Qed.

Lemma erases_commands opc addrs u :
  opc <> SPIFLASH_STATUSREAD ->
  erases opc addrs u ->
  commands u = flat_map (erase_commands opc) addrs.
Proof.
  intros Ho. induction 1 as [|a addrs g u us Hu Hus IH]; [reflexivity|].
  rewrite (commands_app _ _ _ (transaction_discipline _ _ _ _ Hu)), IH.
  rewrite (transaction_commands _ _ _ _ Hu).
  - simpl. unfold erase_commands. rewrite code_address_eq. reflexivity.
  - unfold is_poll, code_address. reflexivity.
Qed.

(** ** Opcodes *)

Lemma opcodes_commands_poll t :
  forall x, In x (opcodes t) ->
            x = SPIFLASH_STATUSREAD \/ In x (flat_map (firstn 1) (commands t)).
Proof.
  unfold opcodes, commands. induction (frames t) as [|f fs IH]; simpl.
  - intros x [].
  - intros x Hx. apply in_app_or in Hx. destruct Hx as [Hx | Hx].
    + destruct f as [|[o i] f]; [destruct Hx|].
      destruct Hx as [<- | []].
      destruct (is_poll (mosi ((o, i) :: f))) eqn:E.
      * left. simpl in E. destruct f as [|[d j] [|y f]]; try discriminate.
        simpl in E. apply andb_true_iff in E. destruct E as [E _].
        apply Z.eqb_eq in E. exact E.
      * right. simpl. left. reflexivity.
    + destruct (IH x Hx) as [H | H]; [left; exact H|].
      right. destruct (negb (is_poll (mosi f))); [|exact H].
      simpl. apply in_or_app. right. exact H.
Qed.


(** ** Bytes sent *)



(** ** The command sequences of a call *)

Lemma commands_after_deselect t : commands (CS_HIGH :: t) = commands t.
Proof. reflexivity. Qed.

Lemma poll_frame_commands g u :
  one_frame [SPIFLASH_STATUSREAD; 0] g u -> commands u = [].
Proof.
  intros H. unfold commands. rewrite (one_frame_frames _ _ _ H).
  destruct H as [Hg _]. simpl. rewrite Hg. reflexivity.
Qed.

Lemma is_poll_eq bytes :
  is_poll bytes = true -> bytes = [SPIFLASH_STATUSREAD; 0].
Proof.
  destruct bytes as [|o [|d [|y l]]]; simpl; try discriminate.
  intros E. apply andb_true_iff in E. destruct E as [Eo Ed].
  apply Z.eqb_eq in Eo. apply Z.eqb_eq in Ed. subst. reflexivity.
Qed.

(** A frame is a status poll or one of the command sequences. *)
Lemma frames_poll_or_command t f :
  In f (frames t) ->
  mosi f = [SPIFLASH_STATUSREAD; 0] \/ In (mosi f) (commands t).
Proof.
  intros Hf. destruct (is_poll (mosi f)) eqn:E.
  - left. apply is_poll_eq. exact E.
  - right. unfold commands. apply filter_In. split.
    + apply in_map. exact Hf.
    + rewrite E. reflexivity.
Qed.

Lemma emits_commands jedec op r t :
  emits jedec op r t -> commands t = command_sequences jedec op r.
Proof.
  intros H. destruct H; unfold command_sequences;
    rewrite ?commands_after_deselect.
  - subst jedec. simpl.
    rewrite (commands_app false) by (apply polls_discipline; assumption).
    rewrite (polls_commands p) by assumption.
    match goal with
    | Hf : transaction _ _ g u |- _ =>
        rewrite (transaction_commands _ _ _ _ Hf) by reflexivity
    end.
    reflexivity.
  - match goal with E : jedec <> 0 |- _ =>
      apply Z.eqb_neq in E; rewrite E end.
    rewrite (commands_app false) by (apply polls_discipline; assumption).
    rewrite (polls_commands p) by assumption.
    rewrite (commands_app false)
      by (eapply one_frame_discipline; eassumption).
    match goal with
    | Hf : one_frame _ gid uid |- _ =>
        rewrite (one_frame_commands _ _ _ Hf) by reflexivity
    end.
    match goal with
    | Hf : transaction _ _ g u |- _ =>
        rewrite (transaction_commands _ _ _ _ Hf) by reflexivity
    end.
    reflexivity.
  - match goal with E : jedec <> 0 |- _ =>
      apply Z.eqb_neq in E; rewrite E end.
    rewrite (commands_app false) by (apply polls_discipline; assumption).
    rewrite (polls_commands p) by assumption.
    match goal with
    | Hf : one_frame _ gid uid |- _ =>
        rewrite (one_frame_commands _ _ _ Hf) by reflexivity
    end.
    reflexivity.
  - eapply poll_frame_commands; eassumption.
  - eapply one_frame_commands; [eassumption | reflexivity].
  - eapply one_frame_commands; [eassumption | reflexivity].
  - rewrite <- code_address_eq.
    match goal with
    | Hf : transaction _ _ _ _ |- _ =>
        apply (transaction_commands _ _ _ _ Hf); reflexivity
    end.
  - rewrite <- code_address_eq.
    match goal with
    | Hf : transaction _ _ _ _ |- _ =>
        apply (transaction_commands _ _ _ _ Hf); reflexivity
    end.
  - rewrite <- code_address_eq.
    match goal with
    | Hf : transaction _ _ _ _ |- _ =>
        apply (transaction_commands _ _ _ _ Hf); reflexivity
    end.
  - rewrite <- code_address_eq.
    match goal with
    | Hf : transaction _ _ _ _ |- _ =>
        apply (transaction_commands _ _ _ _ Hf); reflexivity
    end.
  - eapply poll_frame_commands; eassumption.
  - apply erases_commands; [discriminate | assumption].
  - match goal with
    | Hf : transaction _ _ _ _ |- _ =>
        apply (transaction_commands _ _ _ _ Hf); reflexivity
    end.
  - unfold erase_commands. rewrite <- code_address_eq.
    match goal with
    | Hf : transaction _ _ _ _ |- _ =>
        apply (transaction_commands _ _ _ _ Hf); reflexivity
    end.
  - apply erases_commands; [discriminate | assumption].
  - unfold erase_commands. rewrite <- code_address_eq.
    match goal with
    | Hf : transaction _ _ _ _ |- _ =>
        apply (transaction_commands _ _ _ _ Hf); reflexivity
    end.
  - apply erases_commands; [discriminate | assumption].
  - eapply one_frame_commands; [eassumption | reflexivity].
  - match goal with
    | Hf : transaction _ _ _ _ |- _ =>
        apply (transaction_commands _ _ _ _ Hf); reflexivity
    end.
  - reflexivity.
  - reflexivity.
  - reflexivity.
Qed.

(** [printStatus] apart, no command sequence opens with the status
    read. *)
Lemma command_sequences_opcode jedec op r bytes :
  op <> Op_printStatus ->
  In bytes (command_sequences jedec op r) ->
  hd_error bytes <> Some SPIFLASH_STATUSREAD.
Proof.
  intros Hop Hb.
  assert (He : forall opc a,
             opc <> SPIFLASH_STATUSREAD ->
             In bytes (erase_commands opc a) ->
             hd_error bytes <> Some SPIFLASH_STATUSREAD).
  { intros opc a Ho [<- | [<- | []]]; simpl.
    - discriminate.
    - intros E. injection E as E. contradiction. }
  assert (Hf : forall opc l,
             opc <> SPIFLASH_STATUSREAD ->
             In bytes (flat_map (erase_commands opc) l) ->
             hd_error bytes <> Some SPIFLASH_STATUSREAD).
  { intros opc l Ho Hin. apply in_flat_map in Hin.
    destruct Hin as (a & _ & Hin). exact (He opc a Ho Hin). }
  destruct op; unfold command_sequences in Hb;
    try (contradiction Hop; reflexivity);
    try (eapply Hf; [|exact Hb]; discriminate);
    try (eapply He; [|exact Hb]; discriminate);
    try (destruct Hb as [<- | [<- | []]]; discriminate);
    try (destruct Hb as [<- | []]; discriminate);
    try (destruct Hb; fail).
  apply in_app_or in Hb. destruct Hb as [Hb | Hb].
  - destruct (jedec =? 0); simpl in Hb; [contradiction|].
    destruct Hb as [<- | []]. discriminate.
  - destruct r as [|[]| | | |]; simpl in Hb; try contradiction.
    destruct Hb as [<- | [<- | []]]; discriminate.
Qed.

(** * Properties of the driver *)

Section Properties.

Context {spi : SPIClass}.
Variable chip : list event -> Z.

(** ** sleep and wakeup *)

(** C8: [sleep()] and [wakeup()] are no-ops: each returns at once, in
    the very state it was called in, so the select pin, the saved bus
    settings, the registers and the bus trace are all unchanged. *)
Theorem sleep_wakeup_noop (fuel : nat) (s : state) :
  sleep s = Some (tt, s) /\
  wakeup s = Some (tt, s) /\
  run chip fuel Op_sleep s = Some (R_void, s) /\
  run chip fuel Op_wakeup s = Some (R_void, s).
Proof. repeat split. Qed.

(** ** The block erases built from smaller ones *)

Lemma erase_loop_returns (erase : Z -> M unit) step k a s :
  (forall x, total (erase x)) ->
  exists s', erase_loop erase step k a s = Some (tt, s').
Proof.
  intros He. destruct (total_erase_loop erase step k a He s) as ([] & s' & E).
  exists s'. exact E.
Qed.

Lemma blocks_8 step a :
  blocks step 8 a =
  [a; a + step; a + 2 * step; a + 3 * step; a + 4 * step; a + 5 * step;
   a + 6 * step; a + 7 * step].
Proof.
  unfold blocks. cbn [seq map]. repeat (f_equal; [lia|]). f_equal. lia.
Qed.

(** C5: [blockErase32K(addr)] is eight calls of [blockErase4K], in order,
    at [addr], [addr + 4096], ..., [addr + 28672]: the two run alike from
    every state, and what a run leaves on the bus, status polls aside, is
    a write enable and a 4K erase (opcode 0x20) for each of the eight
    addresses.  With a responsive chip the call returns. *)
Theorem blockErase32K_eight_4K (fuel : nat) (addr : Z) (s : state) :
  blockErase32K chip fuel addr s =
    erase_each (blockErase4K chip fuel)
      [addr; addr + 4096; addr + 8192; addr + 12288; addr + 16384;
       addr + 20480; addr + 24576; addr + 28672] s /\
  (responsive chip fuel ->
   exists s', blockErase32K chip fuel addr s = Some (tt, s')) /\
  forall s',
    blockErase32K chip fuel addr s = Some (tt, s') ->
    exists t,
      bus s' = bus s ++ t /\
      commands t =
        flat_map (erase_commands SPIFLASH_BLOCKERASE_4K)
          [addr; addr + 4096; addr + 8192; addr + 12288; addr + 16384;
           addr + 20480; addr + 24576; addr + 28672].
Proof.
  assert (E : blocks 4096 8 addr =
              [addr; addr + 4096; addr + 8192; addr + 12288; addr + 16384;
               addr + 20480; addr + 24576; addr + 28672]).
  { rewrite blocks_8. reflexivity. }
  split; [|split].
  - unfold blockErase32K.
    rewrite (erase_loop_blocks _ _ _ _ _ (blockErase4K_congr chip fuel)), E.
    reflexivity.
  - intros Hn. apply erase_loop_returns.
    intros x. apply (total_blockErase4K chip fuel Hn).
  - intros s' H. apply blockErase32K_spec in H. destruct H as (u & Hu & ->).
    exists u. split; [reflexivity|]. rewrite <- E.
    apply erases_commands; [discriminate | exact Hu].
Qed.

(** C6: [blockErase512K(addr)] is eight calls of [blockErase64K], in
    order, at [addr], [addr + 65536], ..., [addr + 458752]: the two run
    alike from every state, and what a run leaves on the bus, status polls
    aside, is a write enable and a 64K erase (opcode 0xD8) for each of the
    eight addresses.  With a responsive chip the call returns. *)
Theorem blockErase512K_eight_64K (fuel : nat) (addr : Z) (s : state) :
  blockErase512K chip fuel addr s =
    erase_each (blockErase64K chip fuel)
      [addr; addr + 65536; addr + 131072; addr + 196608; addr + 262144;
       addr + 327680; addr + 393216; addr + 458752] s /\
  (responsive chip fuel ->
   exists s', blockErase512K chip fuel addr s = Some (tt, s')) /\
  forall s',
    blockErase512K chip fuel addr s = Some (tt, s') ->
    exists t,
      bus s' = bus s ++ t /\
      commands t =
        flat_map (erase_commands SPIFLASH_BLOCKERASE_64K)
          [addr; addr + 65536; addr + 131072; addr + 196608; addr + 262144;
           addr + 327680; addr + 393216; addr + 458752].
Proof.
  assert (E : blocks 65536 8 addr =
              [addr; addr + 65536; addr + 131072; addr + 196608;
               addr + 262144; addr + 327680; addr + 393216; addr + 458752]).
  { rewrite blocks_8. reflexivity. }
  split; [|split].
  - unfold blockErase512K.
    rewrite (erase_loop_blocks _ _ _ _ _ (blockErase64K_congr chip fuel)), E.
    reflexivity.
  - intros Hn. apply erase_loop_returns.
    intros x. apply (total_blockErase64K chip fuel Hn).
  - intros s' H. apply blockErase512K_spec in H. destruct H as (u & Hu & ->).
    exists u. split; [reflexivity|]. rewrite <- E.
    apply erases_commands; [discriminate | exact Hu].
Qed.

(** ** chipErase and bulkErase *)

Lemma polls_opcode t x : polls t -> In x (opcodes t) -> x = SPIFLASH_STATUSREAD.
Proof.
  intros Ht Hx. destruct (polls_opcodes _ Ht) as [k E]. rewrite E in Hx.
  apply repeat_spec in Hx. exact Hx.
Qed.

Lemma one_frame_opcode opc rest g u x :
  one_frame (opc :: rest) g u -> In x (opcodes u) -> x = opc.
Proof.
  intros Hu. unfold opcodes. rewrite (one_frame_frames _ _ _ Hu).
  destruct Hu as [Hg _]. simpl. rewrite (opcode_mosi _ _ _ Hg).
  intros [<- | []]. reflexivity.
Qed.

Lemma preamble_opcode w t x :
  preamble w t -> In x (opcodes t) ->
  x = SPIFLASH_STATUSREAD \/ x = SPIFLASH_WRITEENABLE.
Proof.
  destruct w; simpl.
  - intros (p1 & r & p2 & H1 & H2 & ->).
    rewrite (opcodes_app _ _ _ (polls_discipline _ H1)).
    intros Hx. apply in_app_or in Hx. destruct Hx as [Hx | Hx].
    + left. apply (polls_opcode _ _ H1 Hx).
    + change (opcodes ([CS_LOW; Xfer SPIFLASH_WRITEENABLE r; CS_HIGH] ++ p2))
        with (SPIFLASH_WRITEENABLE :: opcodes p2) in Hx.
      destruct Hx as [<- | Hx]; [right; reflexivity|].
      left. apply (polls_opcode _ _ H2 Hx).
  - intros Ht Hx. left. apply (polls_opcode _ _ Ht Hx).
Qed.

Lemma transaction_opcode w opc rest g u x :
  transaction w (opc :: rest) g u ->
  In x (opcodes u) ->
  x = SPIFLASH_STATUSREAD \/ x = SPIFLASH_WRITEENABLE \/ x = opc.
Proof.
  intros (t & u' & Ht & Hu & ->).
  rewrite (opcodes_app _ _ _ (preamble_discipline _ _ Ht)).
  intros Hx. apply in_app_or in Hx. destruct Hx as [Hx | Hx].
  - destruct (preamble_opcode _ _ _ Ht Hx); auto.
  - right. right. apply (one_frame_opcode _ _ _ _ _ Hu Hx).
Qed.

Lemma erases_opcode opc addrs u x :
  erases opc addrs u ->
  In x (opcodes u) ->
  x = SPIFLASH_STATUSREAD \/ x = SPIFLASH_WRITEENABLE \/ x = opc.
Proof.
  induction 1 as [|a addrs g u us Hu Hus IH]; [intros []|].
  rewrite (opcodes_app _ _ _ (transaction_discipline _ _ _ _ Hu)).
  intros Hx. apply in_app_or in Hx. destruct Hx as [Hx | Hx].
  - apply (transaction_opcode _ _ _ _ _ _ Hu Hx).
  - apply IH, Hx.
Qed.

(** The opcodes a method can put on the bus. *)
Lemma emits_opcode jedec op r t x :
  emits jedec op r t ->
  In x (opcodes t) ->
  x = SPIFLASH_STATUSREAD \/ x = SPIFLASH_WRITEENABLE \/
  match op with
  | Op_initialize =>
      x = SPIFLASH_STATUSWRITE \/ (jedec <> 0 /\ x = SPIFLASH_IDREAD)
  | Op_printStatus => False
  | Op_printRDID | Op_readDeviceId => x = SPIFLASH_IDREAD
  | Op_readByte _ => x = SPIFLASH_ARRAYREADLOWFREQ
  | Op_readBytes _ _ => x = SPIFLASH_ARRAYREAD
  | Op_writeByte _ _ | Op_writeBytes _ _ _ => x = SPIFLASH_BYTEPAGEPROGRAM
  | Op_bulkErase => x = SPIFLASH_CHIPERASE
  | Op_blockErase4K _ | Op_blockErase32K _ => x = SPIFLASH_BLOCKERASE_4K
  | Op_chipErase | Op_blockErase64K _ | Op_blockErase512K _ =>
      x = SPIFLASH_BLOCKERASE_64K
  | Op_readUniqueId => x = SPIFLASH_MACREAD
  | _ => False
  end.
Proof.
  destruct 1; intros Hx;
    try (change (opcodes (CS_HIGH :: ?t)) with (opcodes t) in Hx);
    repeat match goal with
           | Hp : polls ?p, H : In _ (opcodes (?p ++ _)) |- _ =>
               rewrite (opcodes_app _ _ _ (polls_discipline _ Hp)) in H;
               apply in_app_or in H;
               destruct H as [H | H];
               [left; exact (polls_opcode _ _ Hp H)|]
           | Hu : one_frame _ _ ?u, H : In _ (opcodes (?u ++ _)) |- _ =>
               rewrite (opcodes_app _ _ _ (one_frame_discipline _ _ _ Hu))
                 in H;
               apply in_app_or in H;
               destruct H as [H | H];
               [apply (one_frame_opcode _ _ _ _ _ Hu) in H; subst x; tauto|]
           end;
    try match goal with
        | Hu : transaction _ _ _ ?u, H : In _ (opcodes ?u) |- _ =>
            apply (transaction_opcode _ _ _ _ _ _ Hu) in H
        | Hu : erases _ _ ?u, H : In _ (opcodes ?u) |- _ =>
            apply (erases_opcode _ _ _ _ Hu) in H
        | Hu : one_frame _ _ ?u, H : In _ (opcodes ?u) |- _ =>
            apply (one_frame_opcode _ _ _ _ _ Hu) in H
        | H : In _ (opcodes []) |- _ => destruct H
        end;
    tauto.
Qed.



(** ** initialize *)

Lemma no_idread_frames fs :
  ~ In SPIFLASH_IDREAD (flat_map opcode fs) -> filter is_idread fs = [].
Proof.
  induction fs as [|f fs IH]; simpl; [reflexivity|].
  intros H. destruct f as [|[o i] f]; simpl in *.
  - apply IH, H.
  - destruct (o =? SPIFLASH_IDREAD) eqn:E.
    + apply Z.eqb_eq in E. exfalso. apply H. left. exact E.
    + apply IH. intros Hx. apply H. right. exact Hx.
Qed.



(** What [initialize] does when no identifier is expected. *)
Lemma initialize_unchecked fuel s b s' :
  _jedecID s = 0 ->
  initialize chip fuel s = Some (b, s') ->
  b = true /\
  exists t,
    bus s' = bus s ++ t /\
    ~ In SPIFLASH_IDREAD (opcodes t) /\
    identifier_read t = None.
Proof.
  intros Hj H. apply initialize_spec in H. destruct H as (t & Ht & ->).
  assert (Hn : ~ In SPIFLASH_IDREAD (opcodes t)).
  { intros Hx. apply (emits_opcode _ _ _ _ _ Ht) in Hx.
    destruct Hx as [Hx | [Hx | [Hx | [Hx _]]]];
      try discriminate Hx. apply Hx, Hj. }
  split.
  - inversion Ht; subst; try reflexivity; contradiction.
  - exists t. split; [reflexivity|]. split; [exact Hn|].
    unfold identifier_read. rewrite (no_idread_frames _ Hn). reflexivity.
Qed.


Lemma initialize_returns n s :
  responsive chip n -> exists b s', initialize chip n s = Some (b, s').
Proof.
  intros Hn. destruct (run_total chip n Hn Op_initialize s) as (r & s' & H).
  unfold run in H. apply bind_Some in H. destruct H as (b & s1 & H & _).
  exists b, s1. exact H.
Qed.

(** C9: with an expected identifier of 0, the default of the
    constructor, [initialize] returns true whatever the chip is: it does
    return when the chip is responsive, and whenever it returns the
    result is true, no frame on the bus starts with the JEDEC-ID-read
    opcode 0x9f, and no identifier has been read. *)
Theorem initialize_skips_check_when_jedecID_0 (s : state) :
  _jedecID s = 0 ->
  (forall n, responsive chip n ->
             exists s', initialize chip n s = Some (true, s')) /\
  (forall fuel b s',
     initialize chip fuel s = Some (b, s') ->
     b = true /\
     exists t,
       bus s' = bus s ++ t /\
       ~ In SPIFLASH_IDREAD (opcodes t) /\
       identifier_read t = None).
Proof.
  intros Hj. split.
  - intros n Hn. destruct (initialize_returns n s Hn) as (b & s' & H).
    destruct (initialize_unchecked _ _ _ _ Hj H) as [-> _].
    exists s'. exact H.
  - intros fuel b s'. apply initialize_unchecked, Hj.
Qed.

(** The constructor's default gives the driver the identifier 0. *)
Lemma SPIFlashA_default_jedecID pin s : _jedecID (SPIFlashA pin 0 s) = 0.
Proof. reflexivity. Qed.





(** ** Write enable and wait loops *)

Lemma polls_count p x :
  polls p -> x <> SPIFLASH_STATUSREAD ->
  count_occ Z.eq_dec (opcodes p) x = 0%nat.
Proof.
  intros Hp Hx. destruct (polls_opcodes _ Hp) as [k ->].
  apply count_occ_repeat_neq. congruence.
Qed.

Lemma transaction_write_count opc rest g u :
  transaction true (opc :: rest) g u ->
  opc <> SPIFLASH_WRITEENABLE -> opc <> SPIFLASH_STATUSREAD ->
  count_occ Z.eq_dec (opcodes u) SPIFLASH_WRITEENABLE = 1%nat /\
  count_occ Z.eq_dec (opcodes u) opc = 1%nat.
Proof.
  intros Hu. apply enable_between_loops_count.
  apply (transaction_write_frames _ _ _ _ Hu).
Qed.

(** C1, as the code has it: when a write or erase method returns
    ([writeByte], [writeBytes], [blockErase4K], [blockErase64K],
    [bulkErase], and [initialize] when it returns true) the bus has seen,
    in this order, a wait loop, the write-enable opcode 0x06 in a frame of
    its own, a second wait loop, and the frame of the real opcode.  So the
    write enable occurs exactly once among the opcodes, and so does the
    real opcode; two wait loops run before the real opcode, not one, and
    the status reads of the second stand between the write enable and the
    real opcode.  In [initialize] the frames [pre] of its first wait loop
    and of the identifier check come before.  With a responsive chip the
    method returns. *)
Theorem write_enable_between_two_wait_loops
  (op : public_op) (real : Z) (s : state) :
  real_opcode op = Some real ->
  (forall n, responsive chip n ->
             exists r s', run chip n op s = Some (r, s')) /\
  (forall fuel r s',
     run chip fuel op s = Some (r, s') ->
     r <> R_boolean false ->
     exists t pre fs,
       bus s' = bus s ++ t /\
       cs_discipline false t = true /\
       frames t = pre ++ fs /\
       (op <> Op_initialize -> pre = []) /\
       enable_between_loops real fs /\
       count_occ Z.eq_dec (opcodes t) SPIFLASH_WRITEENABLE = 1%nat /\
       count_occ Z.eq_dec (opcodes t) real = 1%nat).
Proof.
  intros Hreal. split; [intros n Hn; apply (run_total chip n Hn)|].
  intros fuel r s' H Hr.
  assert (Hc : is_command op = false)
    by (destruct op; try discriminate; reflexivity).
  destruct (run_emits chip _ _ _ _ _ Hc H) as (t & Ht & Hb & _).
  exists t. pose proof (emits_discipline _ _ _ _ Ht) as Hd.
  destruct Ht; try discriminate Hreal; injection Hreal as <-;
    try (exists [], (frames u); split; [exact Hb|]; split; [exact Hd|];
         split; [reflexivity|]; split; [reflexivity|];
         split; [eapply transaction_write_frames; eassumption|];
         eapply transaction_write_count;
           [eassumption | discriminate | discriminate]).
  - exists (frames p), (frames u). split; [exact Hb|]. split; [exact Hd|].
    change (frames (CS_HIGH :: p ++ u)) with (frames (p ++ u)).
    change (opcodes (CS_HIGH :: p ++ u)) with (opcodes (p ++ u)).
    rewrite (frames_app _ _ _ (polls_discipline _ H1)).
    rewrite (opcodes_app _ _ _ (polls_discipline _ H1)), !count_occ_app.
    rewrite !(polls_count _ _ H1) by discriminate.
    split; [reflexivity|]. split; [intros E; contradiction|].
    split; [eapply transaction_write_frames; eassumption|].
    eapply transaction_write_count;
      [eassumption | discriminate | discriminate].
  - exists (frames p ++ [gid]), (frames u). split; [exact Hb|].
    split; [exact Hd|].
    change (frames (CS_HIGH :: p ++ uid ++ u)) with (frames (p ++ uid ++ u)).
    change (opcodes (CS_HIGH :: p ++ uid ++ u))
      with (opcodes (p ++ uid ++ u)).
    rewrite (frames_app _ _ _ (polls_discipline _ H1)).
    rewrite (frames_app _ _ _ (one_frame_discipline _ _ _ H2)).
    rewrite (opcodes_app _ _ _ (polls_discipline _ H1)).
    rewrite (opcodes_app _ _ _ (one_frame_discipline _ _ _ H2)).
    rewrite !count_occ_app, !(polls_count _ _ H1) by discriminate.
    rewrite (one_frame_frames _ _ _ H2), <- app_assoc.
    assert (Eid : opcodes uid = [SPIFLASH_IDREAD]).
    { unfold opcodes. rewrite (one_frame_frames _ _ _ H2).
      destruct H2 as [Hg _]. simpl.
      rewrite (opcode_mosi _ _ _ Hg). reflexivity. }
    rewrite Eid.
    split; [reflexivity|]. split; [intros E; contradiction|].
    split; [eapply transaction_write_frames; eassumption|].
    destruct (transaction_write_count _ _ _ _ H4) as [E1 E2];
      [discriminate | discriminate |].
    rewrite E1, E2. split; reflexivity.
  - contradiction.
Qed.

(** ** Addresses *)

(** C2: every method that takes an address ([readByte], [readBytes],
    [writeByte], [writeBytes], [blockErase4K], [blockErase64K]) sends it
    as exactly three bytes right after the opcode, in the last frame of
    the call: [(addr >> 16) mod 256], [(addr >> 8) mod 256], [addr mod
    256], which are the low 24 bits of the address, most significant byte
    first.  Status polls aside, the only other frame is the write enable
    of the write and erase methods.  With a responsive chip the method
    returns. *)
Theorem address_sent_as_24_bits_msb_first
  (op : public_op) (opc addr : Z) (data : list Z) (s : state) :
  addressed op = Some (opc, addr, data) ->
  address_bytes addr =
    [Z.shiftr addr 16 mod 256; Z.shiftr addr 8 mod 256; addr mod 256] /\
  be24 (address_bytes addr) = addr mod 2 ^ 24 /\
  Forall (fun b => 0 <= b < 256) (address_bytes addr) /\
  (forall n, responsive chip n ->
             exists r s', run chip n op s = Some (r, s')) /\
  (forall fuel r s',
     run chip fuel op s = Some (r, s') ->
     exists t fs g pre,
       bus s' = bus s ++ t /\
       cs_discipline false t = true /\
       frames t = fs ++ [g] /\
       mosi g = opc :: address_bytes addr ++ data /\
       commands t = pre ++ [opc :: address_bytes addr ++ data] /\
       (pre = [] \/ pre = [[SPIFLASH_WRITEENABLE]])).
Proof.
  intros Ha.
  split; [symmetry; apply code_address_eq|].
  split; [apply be24_address_bytes|].
  split; [apply address_bytes_range|].
  split; [intros n Hn; apply (run_total chip n Hn)|].
  intros fuel r s' H.
  assert (Hc : is_command op = false)
    by (destruct op; try discriminate; reflexivity).
  destruct (run_emits chip _ _ _ _ _ Hc H) as (t & Ht & Hb & _).
  exists t. pose proof (emits_discipline _ _ _ _ Ht) as Hd.
  destruct Ht; try discriminate Ha; injection Ha as <- <- <-;
    match goal with
    | Hu : transaction ?w ?bytes ?g ?u |- _ =>
        destruct (transaction_frames _ _ _ _ Hu) as (t0 & _ & Hf & Hg);
        exists (frames t0), g, (if w then [[SPIFLASH_WRITEENABLE]] else []);
        split; [exact Hb|]; split; [exact Hd|]; split; [exact Hf|];
        rewrite <- code_address_eq;
        split; [exact Hg|];
        split; [apply (transaction_commands _ _ _ _ Hu); reflexivity|];
        auto
    end.
Qed.

(** ** Page program *)

(** What [writeBytes] does about pages: nothing.  It sends the [len]
    bytes of the buffer in one page-program frame, after a single
    address, and no erase opcode.  Where the chip stores bytes that run
    past the end of the page is the chip's doing, outside this model. *)
Lemma writeBytes_one_page_program fuel addr buf len s s' :
  writeBytes chip fuel addr buf len s = Some (tt, s') ->
  exists t,
    bus s' = bus s ++ t /\
    commands t =
      [[SPIFLASH_WRITEENABLE];
       SPIFLASH_BYTEPAGEPROGRAM :: address_bytes addr ++
       map (fun i => to_byte (nth i buf 0)) (seq 0 len)] /\
    ~ In SPIFLASH_BLOCKERASE_4K (opcodes t) /\
    ~ In SPIFLASH_BLOCKERASE_64K (opcodes t) /\
    ~ In SPIFLASH_CHIPERASE (opcodes t).
Proof.
  intros H. apply writeBytes_spec in H. destruct H as (g & u & Hu & ->).
  exists u. split; [reflexivity|]. split.
  - rewrite <- code_address_eq.
    apply (transaction_commands _ _ _ _ Hu). reflexivity.
  - repeat split; intros Hx;
      apply (transaction_opcode _ _ _ _ _ _ Hu) in Hx;
      destruct Hx as [Hx | [Hx | Hx]]; discriminate Hx.
Qed.

(** ** Chip select and the bus settings *)

(** C3, as the code has it: every public method other than [command],
    called with the chip deselected, returns with the select pin HIGH
    and, [end] apart (it hands the registers to [SPI.end()]), with SPCR
    and SPSR holding what they held at the call.  On the bus the chip is
    selected for one command sequence at a time: never while already
    selected, no byte moves while it is deselected, and every span of
    select holds either one status poll, the two bytes 0x05 0x00, or one
    of the command sequences of the method, which [command_sequences]
    lists in order; so each status poll of a wait loop is selected and
    deselected by itself.  The exception is [printStatus], whose one span
    holds the two status reads 0x05 0x00 0x07 0x00.  With a responsive
    chip the method returns.  [command] itself, whatever its arguments,
    returns with the chip selected and the flash chip's settings in SPCR
    and SPSR. *)
Theorem chip_deselected_and_settings_restored
  (op : public_op) (s : state) :
  is_command op = false ->
  SS s = HIGH ->
  (forall n, responsive chip n ->
             exists r s', run chip n op s = Some (r, s')) /\
  (forall fuel r s',
     run chip fuel op s = Some (r, s') ->
     SS s' = HIGH /\
     (op <> Op_end -> SPCR s' = SPCR s /\ SPSR s' = SPSR s) /\
     exists t,
       bus s' = bus s ++ t /\ cs_discipline false t = true /\
       commands t = command_sequences (_jedecID s) op r /\
       (forall f,
          In f (frames t) ->
          mosi f = [SPIFLASH_STATUSREAD; 0] \/
          In (mosi f) (command_sequences (_jedecID s) op r)) /\
       (op <> Op_printStatus ->
        forall f,
          In f (frames t) ->
          opcode f = [SPIFLASH_STATUSREAD] ->
          mosi f = [SPIFLASH_STATUSREAD; 0])) /\
  (forall fuel cmd isWrite s',
     command chip fuel cmd isWrite s = Some (tt, s') ->
     SS s' = LOW /\
     SPCR s' = fst (flash_settings (SPCR s, SPSR s)) /\
     SPSR s' = snd (flash_settings (SPCR s, SPSR s))).
Proof.
  intros Hc Hss. split; [intros n Hn; apply (run_total chip n Hn)|].
  split.
  - intros fuel r s' H.
    destruct (run_emits chip _ _ _ _ _ Hc H) as (t & Ht & Hb & Hret).
    pose proof (emits_commands _ _ _ _ Ht) as Hcs.
    assert (Hd : exists t,
               bus s' = bus s ++ t /\ cs_discipline false t = true /\
               commands t = command_sequences (_jedecID s) op r /\
               (forall f,
                  In f (frames t) ->
                  mosi f = [SPIFLASH_STATUSREAD; 0] \/
                  In (mosi f) (command_sequences (_jedecID s) op r)) /\
               (op <> Op_printStatus ->
                forall f,
                  In f (frames t) ->
                  opcode f = [SPIFLASH_STATUSREAD] ->
                  mosi f = [SPIFLASH_STATUSREAD; 0])).
    { exists t. split; [exact Hb|].
      split; [apply (emits_discipline _ _ _ _ Ht)|].
      split; [exact Hcs|].
      assert (Hf : forall f,
                 In f (frames t) ->
                 mosi f = [SPIFLASH_STATUSREAD; 0] \/
                 In (mosi f) (command_sequences (_jedecID s) op r)).
      { intros f Hin. rewrite <- Hcs. apply frames_poll_or_command.
        exact Hin. }
      split; [exact Hf|].
      intros Hop f Hin Ho. destruct (Hf f Hin) as [Hp | Hq]; [exact Hp|].
      exfalso.
      apply (command_sequences_opcode _ _ _ _ Hop Hq).
      destruct f as [|[o i] f]; [discriminate Ho|].
      simpl in Ho. injection Ho as ->. reflexivity. }
    destruct (transacts op) eqn:Htr.
    + destruct (Hret eq_refl) as (H1 & H2 & H3 & _). auto.
    + clear Hret Ht Hb Hcs.
      destruct op; try discriminate Htr; unfold run, void in H;
        apply bind_Some in H; destruct H as ([] & s1 & H1 & H);
        apply ret_Some in H; destruct H as [_ ->].
      * apply ret_Some in H1. destruct H1 as [_ ->]. auto.
      * apply ret_Some in H1. destruct H1 as [_ ->]. auto.
      * unfold end_, SPI_library, modify in H1. injection H1 as <-.
        split; [destruct s; exact Hss|].
        split; [intros E; contradiction | exact Hd].
  - intros fuel cmd isWrite s' H. apply command_spec in H.
    destruct H as (t & r & _ & ->). repeat split.
Qed.

End Properties.

(** ** A chip that keeps the driver waiting *)

Lemma transfers_app a b : transfers (a ++ b) = (transfers a + transfers b)%nat.
Proof. unfold transfers. rewrite sent_app. apply length_app. Qed.

Lemma transfers_status_frame chip s : transfers (status_frame chip s) = 2%nat.
Proof. reflexivity. Qed.

Lemma stuttering_chip_responsive {spi : SPIClass} :
  responsive stuttering_chip 2.
Proof.
  intros s. unfold while_busy.
  rewrite (bind_eq _ _ _ _ _ (busy_eq stuttering_chip s)).
  set (n := transfers (bus s)).
  assert (E1 : status_of stuttering_chip s =
               if Nat.eqb (Nat.modulo (n + 1) 4) 1 then 1 else 0).
  { unfold status_of, answer, stuttering_chip.
    rewrite transfers_app. fold n.
    change (transfers [CS_LOW; Xfer SPIFLASH_STATUSREAD _]) with 1%nat.
    destruct (Nat.eqb (Nat.modulo (n + 1) 4) 1); reflexivity. }
  rewrite E1. destruct (Nat.eqb (Nat.modulo (n + 1) 4) 1) eqn:B1.
  - change (negb (Z.land 1 1 =? 0)) with true. cbv iota.
    rewrite (bind_eq _ _ _ _ _
               (busy_eq stuttering_chip
                  (settled s (status_frame stuttering_chip s)))).
    assert (E2 : status_of stuttering_chip
                   (settled s (status_frame stuttering_chip s)) = 0).
    { unfold status_of, answer, stuttering_chip.
      rewrite bus_settled, !transfers_app. fold n.
      rewrite transfers_status_frame.
      change (transfers [CS_LOW; Xfer SPIFLASH_STATUSREAD _]) with 1%nat.
      apply Nat.eqb_eq in B1.
      replace (n + 2 + 1)%nat with ((n + 1) + 2)%nat by lia.
      rewrite Nat.Div0.add_mod, B1. reflexivity. }
    rewrite E2. eexists. reflexivity.
  - eexists. reflexivity.
Qed.

(** ** Runs on the AVR *)

(** C1 as stated fails: [writeByte] against a chip that is never busy
    puts four frames on the bus.  Both status reads find the chip ready,
    so each is a wait loop of its own, and the second stands between the
    write enable and the page program: the frames are not one wait loop
    followed by the write enable and the real opcode. *)
Lemma writeByte_runs_two_wait_loops :
  frames_of (run ready_chip 1 (Op_writeByte 0x123456 0xAB) (flash 0)) =
    [[(0x05, 0); (0, 0)]; [(0x06, 0)]; [(0x05, 0); (0, 0)];
     [(0x02, 0); (0x12, 0); (0x34, 0); (0x56, 0); (0xAB, 0)]] /\
  ~ one_loop_then_enable SPIFLASH_BYTEPAGEPROGRAM
      (frames_of (run ready_chip 1 (Op_writeByte 0x123456 0xAB) (flash 0))).
Proof.
  assert (E : frames_of
                (run ready_chip 1 (Op_writeByte 0x123456 0xAB) (flash 0)) =
              [[(0x05, 0); (0, 0)]; [(0x06, 0)]; [(0x05, 0); (0, 0)];
               [(0x02, 0); (0x12, 0); (0x34, 0); (0x56, 0); (0xAB, 0)]])
    by (vm_compute; reflexivity).
  split; [exact E|]. rewrite E.
  intros (p & r & f & Hp & _ & Hfs).
  destruct p as [|a [|b [|c p]]]; try discriminate Hfs.
  injection Hfs as <- <- Hrest. discriminate Hp.
Qed.

(** [writeByte] against the chip that keeps the driver waiting: the call
    returns, and the bus shows the two wait loops around the write
    enable. *)
Lemma write_enable_between_two_wait_loops_witness :
  real_opcode (Op_writeByte 0x123456 0xAB) = Some SPIFLASH_BYTEPAGEPROGRAM /\
  exists s',
    run stuttering_chip 2 (Op_writeByte 0x123456 0xAB) (flash 0) =
      Some (R_void, s') /\
    exists t pre fs,
      bus s' = bus (flash 0) ++ t /\
      cs_discipline false t = true /\
      frames t = pre ++ fs /\
      (Op_writeByte 0x123456 0xAB <> Op_initialize -> pre = []) /\
      enable_between_loops SPIFLASH_BYTEPAGEPROGRAM fs /\
      count_occ Z.eq_dec (opcodes t) SPIFLASH_WRITEENABLE = 1%nat /\
      count_occ Z.eq_dec (opcodes t) SPIFLASH_BYTEPAGEPROGRAM = 1%nat.
Proof.
  split; [reflexivity|].
  eexists. split; [vm_compute; reflexivity|].
  apply (proj2 (write_enable_between_two_wait_loops stuttering_chip
                  (Op_writeByte 0x123456 0xAB) SPIFLASH_BYTEPAGEPROGRAM
                  (flash 0) eq_refl) 2%nat R_void).
  - vm_compute. reflexivity.
  - discriminate.
Defined.

(** [readBytes(-1, buf, 3)]: the address goes out as 0xFF 0xFF 0xFF after
    the opcode, followed by the dummy byte and three bytes to clock the
    data in. *)
Lemma address_sent_as_24_bits_msb_first_witness :
  addressed (Op_readBytes (-1) 3) =
    Some (SPIFLASH_ARRAYREAD, -1, [0; 0; 0; 0]) /\
  address_bytes (-1) = [0xFF; 0xFF; 0xFF] /\
  exists r s',
    run stuttering_chip 2 (Op_readBytes (-1) 3) (flash 0) = Some (r, s') /\
    exists t fs g pre,
      bus s' = bus (flash 0) ++ t /\
      cs_discipline false t = true /\
      frames t = fs ++ [g] /\
      mosi g = SPIFLASH_ARRAYREAD :: address_bytes (-1) ++ [0; 0; 0; 0] /\
      commands t =
        pre ++ [SPIFLASH_ARRAYREAD :: address_bytes (-1) ++ [0; 0; 0; 0]] /\
      (pre = [] \/ pre = [[SPIFLASH_WRITEENABLE]]).
Proof.
  split; [reflexivity|]. split; [reflexivity|].
  eexists _, _. split; [vm_compute; reflexivity|].
  eapply (proj2 (proj2 (proj2 (proj2
           (address_sent_as_24_bits_msb_first stuttering_chip
              (Op_readBytes (-1) 3) SPIFLASH_ARRAYREAD (-1) [0; 0; 0; 0]
              (flash 0) eq_refl)))) 2%nat).
  vm_compute. reflexivity.
Defined.

(** C3 as stated fails for the public method [command]: it returns in the
    middle of a frame, the chip still selected, interrupts off and the
    flash chip's bus settings in the registers (SPCR = 0x50, SPSR = 0x00)
    instead of the caller's (0x53, 0x01). *)
Lemma command_returns_with_chip_selected :
  is_command (Op_command SPIFLASH_IDREAD false) = true /\
  SS (flash 0) = HIGH /\ SPCR (flash 0) = 0x53 /\ SPSR (flash 0) = 0x01 /\
  exists s',
    run ready_chip 1 (Op_command SPIFLASH_IDREAD false) (flash 0) =
      Some (R_void, s') /\
    SS s' = LOW /\ SPCR s' = 0x50 /\ SPSR s' = 0x00 /\ irq s' = false /\
    bus s' =
      [CS_LOW; Xfer 0x05 0; Xfer 0 0; CS_HIGH; CS_LOW; Xfer 0x9f 0] /\
    cs_discipline false (bus s') = false.
Proof.
  repeat (split; [reflexivity|]).
  eexists. split; [vm_compute; reflexivity|].
  repeat split.
Qed.

(** [end()] talks to no chip and restores nothing: it leaves the select
    pin alone and SPCR as [SPI.end()] makes it, here with the enable bit
    cleared. *)
Example end_hands_registers_to_SPI_end :
  exists s',
    run ready_chip 0 Op_end (flash 0) = Some (R_void, s') /\
    SS s' = HIGH /\ SPCR s' = 0x13 /\ SPSR s' = 0x01 /\
    bus s' = bus (flash 0).
Proof. eexists. split; [vm_compute; reflexivity|]. repeat split. Qed.

(** [blockErase32K] from a driver at rest: sixteen frames and their wait
    loops later the chip is deselected and SPCR, SPSR are back. *)
Lemma chip_deselected_and_settings_restored_witness :
  is_command (Op_blockErase32K 0x7F000) = false /\
  SS (flash 0) = HIGH /\
  exists r s',
    run stuttering_chip 2 (Op_blockErase32K 0x7F000) (flash 0) =
      Some (r, s') /\
    SS s' = HIGH /\
    (Op_blockErase32K 0x7F000 <> Op_end ->
     SPCR s' = SPCR (flash 0) /\ SPSR s' = SPSR (flash 0)) /\
    exists t,
      bus s' = bus (flash 0) ++ t /\ cs_discipline false t = true /\
      commands t =
        command_sequences (_jedecID (flash 0)) (Op_blockErase32K 0x7F000) r /\
      (forall f,
         In f (frames t) ->
         mosi f = [SPIFLASH_STATUSREAD; 0] \/
         In (mosi f)
           (command_sequences (_jedecID (flash 0))
              (Op_blockErase32K 0x7F000) r)) /\
      (Op_blockErase32K 0x7F000 <> Op_printStatus ->
       forall f,
         In f (frames t) ->
         opcode f = [SPIFLASH_STATUSREAD] ->
         mosi f = [SPIFLASH_STATUSREAD; 0]).
Proof.
  split; [reflexivity|]. split; [reflexivity|].
  eexists _, _. split; [vm_compute; reflexivity|].
  eapply (proj1 (proj2 (chip_deselected_and_settings_restored
                          stuttering_chip (Op_blockErase32K 0x7F000)
                          (flash 0) eq_refl eq_refl))
            2%nat).
  vm_compute. reflexivity.
Defined.


(** A driver built with the default identifier, facing a S25FL127S. *)
Lemma initialize_skips_check_when_jedecID_0_witness :
  _jedecID (SPIFlashA 8 0 (board 0x53 0x01)) = 0 /\
  (exists s',
     initialize S25FL127S_chip 1 (SPIFlashA 8 0 (board 0x53 0x01)) =
       Some (true, s')) /\
  forall fuel b s',
    initialize S25FL127S_chip fuel (SPIFlashA 8 0 (board 0x53 0x01)) =
      Some (b, s') ->
    b = true /\
    exists t,
      bus s' = bus (SPIFlashA 8 0 (board 0x53 0x01)) ++ t /\
      ~ In SPIFLASH_IDREAD (opcodes t) /\
      identifier_read t = None.
Proof.
  split; [reflexivity|]. split.
  - apply (proj1 (initialize_skips_check_when_jedecID_0 S25FL127S_chip
                    (SPIFlashA 8 0 (board 0x53 0x01)) eq_refl)
             1%nat S25FL127S_chip_responsive).
  - apply (proj2 (initialize_skips_check_when_jedecID_0 S25FL127S_chip
                    (SPIFlashA 8 0 (board 0x53 0x01)) eq_refl)).
Defined.

(** With the identifier of the S25FL127S expected, [initialize] reads it
    and succeeds; with another one expected it reads it and fails. *)
Example initialize_match :
  option_map fst (initialize S25FL127S_chip 1 (flash 0x012018)) = Some true /\
  option_map fst (initialize S25FL127S_chip 1 (flash 0xEF3013)) = Some false.
Proof. split; vm_compute; reflexivity. Qed.


(** [blockErase32K(0x7F000)]: eight 4K erases, the address carrying into
    the top byte on the way. *)
Lemma blockErase32K_eight_4K_witness :
  exists s',
    blockErase32K stuttering_chip 2 0x7F000 (flash 0) = Some (tt, s') /\
    exists t,
      bus s' = bus (flash 0) ++ t /\
      commands t =
        [[0x06]; [0x20; 0x07; 0xF0; 0x00]; [0x06]; [0x20; 0x08; 0x00; 0x00];
         [0x06]; [0x20; 0x08; 0x10; 0x00]; [0x06]; [0x20; 0x08; 0x20; 0x00];
         [0x06]; [0x20; 0x08; 0x30; 0x00]; [0x06]; [0x20; 0x08; 0x40; 0x00];
         [0x06]; [0x20; 0x08; 0x50; 0x00]; [0x06]; [0x20; 0x08; 0x60; 0x00]].
Proof.
  eexists. split; [vm_compute; reflexivity|].
  eapply (proj2 (proj2 (blockErase32K_eight_4K stuttering_chip 2 0x7F000
                          (flash 0)))).
  vm_compute. reflexivity.
Defined.

(** [blockErase512K(0xFF0000)]: the second address no longer fits in 24
    bits and goes out as 0x00 0x00 0x00. *)
Lemma blockErase512K_eight_64K_witness :
  exists s',
    blockErase512K stuttering_chip 2 0xFF0000 (flash 0) = Some (tt, s') /\
    exists t,
      bus s' = bus (flash 0) ++ t /\
      commands t =
        [[0x06]; [0xD8; 0xFF; 0x00; 0x00]; [0x06]; [0xD8; 0x00; 0x00; 0x00];
         [0x06]; [0xD8; 0x01; 0x00; 0x00]; [0x06]; [0xD8; 0x02; 0x00; 0x00];
         [0x06]; [0xD8; 0x03; 0x00; 0x00]; [0x06]; [0xD8; 0x04; 0x00; 0x00];
         [0x06]; [0xD8; 0x05; 0x00; 0x00]; [0x06]; [0xD8; 0x06; 0x00; 0x00]].
Proof.
  eexists. split; [vm_compute; reflexivity|].
  eapply (proj2 (proj2 (blockErase512K_eight_64K stuttering_chip 2 0xFF0000
                          (flash 0)))).
  vm_compute. reflexivity.
Defined.



(** What the methods put on the bus of a chip that is never busy, status
    polls left out. *)
Example bus_of_bulkErase :
  option_map (fun x => commands (bus (snd x)))
    (run ready_chip 1 Op_bulkErase (flash 0)) = Some [[0x06]; [0x60]].
Proof. vm_compute. reflexivity. Qed.

Example bus_of_chipErase :
  option_map (fun x => commands (bus (snd x)))
    (run ready_chip 1 Op_chipErase (flash 0)) =
  Some [[0x06]; [0xD8; 0; 0; 0]; [0x06]; [0xD8; 1; 0; 0];
        [0x06]; [0xD8; 2; 0; 0]; [0x06]; [0xD8; 3; 0; 0];
        [0x06]; [0xD8; 4; 0; 0]; [0x06]; [0xD8; 5; 0; 0];
        [0x06]; [0xD8; 6; 0; 0]; [0x06]; [0xD8; 7; 0; 0]].
Proof. vm_compute. reflexivity. Qed.

Example bus_of_writeBytes :
  option_map (fun x => commands (bus (snd x)))
    (run ready_chip 1 (Op_writeBytes 0x0001FE [0xA1; 0xA2; 0xA3; 0xA4] 4)
       (flash 0)) =
  Some [[0x06]; [0x02; 0x00; 0x01; 0xFE; 0xA1; 0xA2; 0xA3; 0xA4]].
Proof. vm_compute. reflexivity. Qed.

Example sleep_wakeup_on_flash :
  run ready_chip 0 Op_sleep (flash 0) = Some (R_void, flash 0) /\
  run ready_chip 0 Op_wakeup (flash 0) = Some (R_void, flash 0).
Proof. split; reflexivity. Qed.

(** * Further properties of the methods *)

Section Further.

Context {spi : SPIClass}.
Variable chip : list event -> Z.

(** ** Helpers *)

Lemma transaction_read_opcode opc rest g u x :
  transaction false (opc :: rest) g u ->
  In x (opcodes u) -> x = SPIFLASH_STATUSREAD \/ x = opc.
Proof.
  intros (t & u' & Hpre & Hone & ->) Hx.
  rewrite (opcodes_app false) in Hx by (apply polls_discipline; exact Hpre).
  apply in_app_or in Hx. destruct Hx as [Hx | Hx].
  - left. exact (polls_opcode _ _ Hpre Hx).
  - right. exact (one_frame_opcode _ _ _ _ _ Hone Hx).
Qed.

Lemma transaction_length w bytes g u :
  transaction w bytes g u -> length (received g) = length bytes.
Proof.
  intros (t & u' & _ & (Hg & _) & _). rewrite <- Hg.
  unfold received, mosi. rewrite !length_map. reflexivity.
Qed.

Lemma map_nth_firstn {A B : Type} (f : A -> B) (d : A) buf len :
  (len <= length buf)%nat ->
  map (fun i => f (nth i buf d)) (seq 0 len) = map f (firstn len buf).
Proof.
  revert len. induction buf as [|x buf IH]; intros [|len] Hl; simpl in *;
    try reflexivity; try lia.
  f_equal. rewrite <- seq_shift, map_map. apply IH. lia.
Qed.

(** Totality of a method that calls no wait loop, call by call. *)
Ltac returns_plain :=
  repeat match goal with
  | |- total select => apply total_select
  | |- total unselect => apply total_unselect
  | |- total (modify _) => apply total_modify
  | |- total (SPI_transfer _ _) => apply total_transfer
  | |- total (rdid_loop _ _ _) => apply total_rdid_loop
  | |- total (ret _) => apply total_ret
  | |- total (bind _ _) => apply total_bind; [|intros ?]
  end.

Lemma total_printStatus : total (printStatus chip).
Proof.
  unfold printStatus, Serial_print, Serial_println_num.
  returns_plain.
Qed.

Lemma total_printRDID : total (printRDID chip).
Proof.
  unfold printRDID, Serial_println.
  returns_plain.
Qed.

(** ** The chip's identifier *)

(** X1: [readDeviceId] in the build for boards other than the
    ATmega32U4 (the [#else] branch of its [#if]; on the ATmega32U4 the
    method goes through [command] and waits for the chip first): the
    method never waits for the chip, so it returns from every state.
    It puts one frame on the bus, the opcode
    0x9f and three zero bytes, and returns the three bytes the chip
    answers to the zero bytes as one number, the first byte the most
    significant: a value from 0 to 2^24 - 1.  It leaves the chip
    deselected, the caller's SPI settings in the registers and the
    interrupts on. *)
Theorem readDeviceId_three_bytes_big_endian (s : state) :
  exists r b2 b1 b0 s',
    readDeviceId chip s = Some (be24 [b2; b1; b0], s') /\
    0 <= be24 [b2; b1; b0] < 2 ^ 24 /\
    returned s s'
      [CS_LOW; Xfer SPIFLASH_IDREAD r; Xfer 0 b2; Xfer 0 b1; Xfer 0 b0;
       CS_HIGH].
Proof.
  destruct (readDeviceId_eq chip s)
    as (r & b2 & b1 & b0 & (H2 & H1 & H0) & E).
  exists r, b2, b1, b0. eexists. split; [exact E|]. split.
  - apply be24_range; assumption.
  - apply returned_settled.
Qed.

(** X2: [initialize] and an expected identifier that does not fit in
    three bytes: the constructor takes 32 bits, [readDeviceId] gives 24,
    so with an expected identifier below 0 or from 2^24 on [initialize]
    returns false whatever the chip answers (it does return when the chip
    is responsive), and all it has sent apart from status polls is the
    identifier read: no write enable, no status write. *)
Theorem initialize_rejects_identifier_beyond_24_bits (s : state) :
  _jedecID s < 0 \/ 2 ^ 24 <= _jedecID s ->
  (forall n, responsive chip n ->
             exists s', initialize chip n s = Some (false, s')) /\
  (forall fuel b s',
     initialize chip fuel s = Some (b, s') ->
     b = false /\
     exists t,
       bus s' = bus s ++ t /\
       commands t = [[SPIFLASH_IDREAD; 0; 0; 0]]).
Proof.
  intros Hw. split.
  - intros n Hn. destruct (initialize_returns chip n s Hn) as (b & s' & H).
    rewrite (initialize_wide chip _ _ _ _ Hw H) in H. exists s'. exact H.
  - intros fuel b s' H.
    pose proof (initialize_wide chip _ _ _ _ Hw H) as ->.
    split; [reflexivity|].
    apply initialize_spec in H. destruct H as (t & Ht & ->).
    exists t. split; [reflexivity|].
    inversion Ht; subst. rewrite commands_after_deselect.
    rewrite (commands_app false) by (apply polls_discipline; assumption).
    rewrite (polls_commands p) by assumption.
    match goal with
    | Hf : one_frame _ gid uid |- _ =>
        rewrite (one_frame_commands _ _ _ Hf) by reflexivity
    end.
    reflexivity.
Qed.

(** X3: [initialize] as a whole: the first thing it puts on the bus is
    the select pin driven high; it returns with the select pin an output,
    the chip deselected, the caller's SPI settings in the registers and
    the interrupts on.  Status polls aside it sends the identifier read
    when an identifier is expected, and then, exactly when it returns
    true, a write enable and the status write 0x01 0x00 that lifts the
    chip's block protection. *)
Theorem initialize_unprotects_exactly_on_success
  (fuel : nat) (s : state) (b : bool) (s' : state) :
  initialize chip fuel s = Some (b, s') ->
  SS_output s' = true /\ SS s' = HIGH /\
  SPCR s' = SPCR s /\ SPSR s' = SPSR s /\ irq s' = true /\
  exists t,
    bus s' = bus s ++ CS_HIGH :: t /\
    commands (CS_HIGH :: t) =
      (if _jedecID s =? 0 then [] else [[SPIFLASH_IDREAD; 0; 0; 0]]) ++
      (if b then [[SPIFLASH_WRITEENABLE]; [SPIFLASH_STATUSWRITE; 0]]
       else []).
Proof.
  intros H. apply initialize_spec in H. destruct H as (t & Ht & ->).
  repeat (split; [reflexivity|]).
  inversion Ht; subst; eexists; (split; [reflexivity|]);
    rewrite commands_after_deselect.
  - match goal with E : _jedecID s = 0 |- _ => rewrite E end.
    rewrite (commands_app false) by (apply polls_discipline; assumption).
    rewrite (polls_commands p) by assumption.
    match goal with
    | Hf : transaction _ _ g u |- _ =>
        rewrite (transaction_commands _ _ _ _ Hf) by reflexivity
    end.
    reflexivity.
  - match goal with E : _jedecID s <> 0 |- _ =>
      apply Z.eqb_neq in E; rewrite E end.
    rewrite (commands_app false) by (apply polls_discipline; assumption).
    rewrite (polls_commands p) by assumption.
    rewrite (commands_app false)
      by (eapply one_frame_discipline; eassumption).
    match goal with
    | Hf : one_frame _ gid uid |- _ =>
        rewrite (one_frame_commands _ _ _ Hf) by reflexivity
    end.
    match goal with
    | Hf : transaction _ _ g u |- _ =>
        rewrite (transaction_commands _ _ _ _ Hf) by reflexivity
    end.
    reflexivity.
  - match goal with E : _jedecID s <> 0 |- _ =>
      apply Z.eqb_neq in E; rewrite E end.
    rewrite (commands_app false) by (apply polls_discipline; assumption).
    rewrite (polls_commands p) by assumption.
    match goal with
    | Hf : one_frame _ gid uid |- _ =>
        rewrite (one_frame_commands _ _ _ Hf) by reflexivity
    end.
    reflexivity.
Qed.

(** ** Reading *)

Lemma readUniqueId_returns n s :
  responsive chip n -> exists v s', readUniqueId chip n s = Some (v, s').
Proof.
  intros Hn. destruct (run_total chip n Hn Op_readUniqueId s) as (r & s' & H).
  unfold run in H. apply bind_Some in H. destruct H as (v & s1 & H & _).
  exists v, s1. exact H.
Qed.

Lemma readBytes_returns n addr len s :
  responsive chip n ->
  exists v s', readBytes chip n addr len s = Some (v, s').
Proof.
  intros Hn.
  destruct (run_total chip n Hn (Op_readBytes addr len) s) as (r & s' & H).
  unfold run in H. apply bind_Some in H. destruct H as (v & s1 & H & _).
  exists v, s1. exact H.
Qed.

Lemma writeBytes_returns n addr buf len s :
  responsive chip n ->
  exists s', writeBytes chip n addr buf len s = Some (tt, s').
Proof.
  intros Hn.
  destruct (run_total chip n Hn (Op_writeBytes addr buf len) s)
    as (r & s' & H).
  unfold run, void in H. apply bind_Some in H.
  destruct H as ([] & s1 & H & _). exists s1. exact H.
Qed.

(** X4: [readUniqueId]: after the wait loop it sends, in one frame, the
    opcode 0x4B and sixteen zero bytes; the bytes the chip answers to the
    last twelve of them are what it stores in [UNIQUEID], all twelve
    entries, and what it returns.  With a responsive chip it returns. *)
Theorem readUniqueId_stores_last_12_bytes (fuel : nat) (s : state) :
  length (UNIQUEID s) = 12%nat ->
  (responsive chip fuel ->
   exists v s', readUniqueId chip fuel s = Some (v, s')) /\
  (forall v s',
     readUniqueId chip fuel s = Some (v, s') ->
     exists g t,
       transaction false (SPIFLASH_MACREAD :: repeat 0 16) g t /\
       bus s' = bus s ++ t /\
       v = skipn 5 (received g) /\
       length v = 12%nat /\
       UNIQUEID s' = v).
Proof.
  intros Hlen. split; [apply readUniqueId_returns|].
  intros v s' H. apply (readUniqueId_received chip _ _ _ _ Hlen) in H.
  destruct H as (g & u & Hu & Hv & ->).
  exists g, u. split; [exact Hu|]. split; [reflexivity|].
  split; [exact Hv|]. split; [|reflexivity].
  rewrite Hv, length_skipn, (transaction_length _ _ _ _ Hu). reflexivity.
Qed.

(** X5: [readBytes(addr, buf, len)]: after the wait loop it sends, in one
    frame, the opcode 0x0B, the three address bytes, one dummy byte and
    [len] zero bytes; the buffer receives the [len] bytes the chip answers
    to the zero bytes, in order, and nothing when [len] is 0.  With a
    responsive chip it returns. *)
Theorem readBytes_fills_len_bytes
  (fuel : nat) (addr : Z) (len : nat) (s : state) :
  (responsive chip fuel ->
   exists buf s', readBytes chip fuel addr len s = Some (buf, s')) /\
  (forall buf s',
     readBytes chip fuel addr len s = Some (buf, s') ->
     exists g t,
       transaction false
         (SPIFLASH_ARRAYREAD :: address_bytes addr ++ 0 :: repeat 0 len)
         g t /\
       bus s' = bus s ++ t /\
       buf = skipn 5 (received g) /\
       length buf = len).
Proof.
  split; [apply readBytes_returns|].
  intros buf s' H. apply readBytes_spec in H.
  destruct H as (g & u & Hu & Hv & ->).
  exists g, u. rewrite <- code_address_eq.
  split; [exact Hu|]. split; [apply bus_settled|].
  split; [exact Hv|].
  rewrite Hv, length_skipn, (transaction_length _ _ _ _ Hu).
  simpl. rewrite repeat_length. lia.
Qed.

(** ** Writing *)

(** X6: [writeByte(addr, byt)] is [writeBytes] with a buffer of the one
    byte and a length of 1: the two run alike from every state. *)
Theorem writeByte_is_writeBytes_of_one_byte
  (fuel : nat) (addr byt : Z) (s : state) :
  writeByte chip fuel addr byt s = writeBytes chip fuel addr [byt] 1 s.
Proof.
  unfold writeByte, writeBytes. simpl write_loop. unfold bind, ret.
  destruct (command chip fuel SPIFLASH_BYTEPAGEPROGRAM true s)
    as [[[] s1]|]; [|reflexivity].
  destruct (send_address chip addr s1) as [[[] s2]|]; [|reflexivity].
  destruct (SPI_transfer chip byt s2) as [[r s3]|]; reflexivity.
Qed.

(** X7: [writeBytes(addr, buf, len)] with a buffer of at least [len]
    bytes: status polls aside it sends a write enable and one
    page-program frame, the opcode 0x02, the three address bytes and the
    first [len] bytes of the buffer, each cut to eight bits, in order;
    with [len] at 0 the frame ends after the address.  With a responsive
    chip it returns. *)
Theorem writeBytes_sends_first_len_bytes
  (fuel : nat) (addr : Z) (buf : list Z) (len : nat) (s : state) :
  (len <= length buf)%nat ->
  (responsive chip fuel ->
   exists s', writeBytes chip fuel addr buf len s = Some (tt, s')) /\
  (forall s',
     writeBytes chip fuel addr buf len s = Some (tt, s') ->
     exists t,
       bus s' = bus s ++ t /\
       commands t =
         [[SPIFLASH_WRITEENABLE];
          SPIFLASH_BYTEPAGEPROGRAM :: address_bytes addr ++
          map to_byte (firstn len buf)]).
Proof.
  intros Hlen. split; [apply writeBytes_returns|].
  intros s' H. apply writeBytes_spec in H. destruct H as (g & u & Hu & ->).
  exists u. split; [apply bus_settled|].
  rewrite <- code_address_eq, <- (map_nth_firstn to_byte 0 buf len Hlen).
  apply (transaction_commands _ _ _ _ Hu). reflexivity.
Qed.

(** ** A chip that stays busy *)

Lemma while_busy_never fuel s :
  always_busy chip -> while_busy chip fuel s = None.
Proof.
  intros Hb. revert s. induction fuel as [|fuel IH]; intros s.
  - reflexivity.
  - simpl. rewrite (bind_eq _ _ _ _ _ (busy_eq chip s)).
    unfold status_of, answer. rewrite Hb. simpl. apply IH.
Qed.

Lemma bind_None {A B : Type} (m : M A) (k : A -> M B) s :
  m s = None -> bind m k s = None.
Proof. unfold bind. intros ->. reflexivity. Qed.

Lemma command_never fuel cmd isWrite s :
  always_busy chip -> command chip fuel cmd isWrite s = None.
Proof.
  intros Hb. unfold command, command_plain.
  destruct isWrite.
  - repeat (apply bind_None). apply while_busy_never. exact Hb.
  - rewrite bind_ret. apply bind_None. apply while_busy_never. exact Hb.
Qed.

Lemma erase_loop_never (erase : Z -> M unit) step n a s :
  (forall x s0, erase x s0 = None) ->
  erase_loop erase step (S n) a s = None.
Proof. intros He. simpl. apply bind_None. apply He. Qed.

(** X8: the driver without a chip (the case the comment in [command]
    warns of), in the build for boards other than the ATmega32U4: when
    every status read shows the busy bit, bus floating high, [busy]
    returns true, and a method that waits for the chip, [initialize],
    [command], the reads and writes at an address, the erases and
    [readUniqueId], never returns, however many polls it is given;
    [readStatus], [printStatus], [printRDID], [busy], [sleep], [wakeup]
    and [end] do return, and so does [readDeviceId] in this build (on
    the ATmega32U4 it goes through [command] and waits like the
    others). *)
Theorem methods_that_wait_hang_on_busy_chip
  (fuel : nat) (op : public_op) (s : state) :
  always_busy chip ->
  (exists s', run chip fuel Op_busy s = Some (R_boolean true, s')) /\
  (waits op = true -> run chip fuel op s = None) /\
  (waits op = false -> exists r s', run chip fuel op s = Some (r, s')).
Proof.
  intros Hb. split; [|split].
  - unfold run. rewrite (bind_eq _ _ _ _ _ (busy_eq chip s)).
    unfold status_of, answer. rewrite Hb. eexists. reflexivity.
  - intros Hw. destruct op; try discriminate Hw; unfold run, void;
      apply bind_None.
    + unfold initialize, save_SPI_settings, pinMode_OUTPUT, wakeup.
      rewrite !bind_modify, initialize_start, bind_ret.
      apply bind_None. apply while_busy_never. exact Hb.
    + apply command_never. exact Hb.
    + unfold readByte. apply bind_None, command_never. exact Hb.
    + unfold readBytes. apply bind_None, command_never. exact Hb.
    + unfold writeByte. apply bind_None, command_never. exact Hb.
    + unfold writeBytes. apply bind_None, command_never. exact Hb.
    + unfold chipErase, blockErase512K. apply erase_loop_never.
      intros x s0. unfold blockErase64K.
      apply bind_None, command_never. exact Hb.
    + unfold bulkErase. apply bind_None, command_never. exact Hb.
    + unfold blockErase4K. apply bind_None, command_never. exact Hb.
    + unfold blockErase32K. apply erase_loop_never.
      intros x s0. unfold blockErase4K.
      apply bind_None, command_never. exact Hb.
    + unfold blockErase64K. apply bind_None, command_never. exact Hb.
    + unfold blockErase512K. apply erase_loop_never.
      intros x s0. unfold blockErase64K.
      apply bind_None, command_never. exact Hb.
    + unfold readUniqueId. apply bind_None, command_never. exact Hb.
  - intros Hw.
    assert (T : total (run chip fuel op)).
    { destruct op; try discriminate Hw; unfold run, void;
        (apply total_bind; [|intros ?; apply total_ret]).
      - apply total_readStatus.
      - apply total_printStatus.
      - apply total_printRDID.
      - unfold busy.
        apply total_bind; [apply total_readStatus | intros ?; apply total_ret].
      - apply total_readDeviceId.
      - apply total_ret.
      - apply total_ret.
      - apply total_modify. }
    apply T.
Qed.

(** ** Printing *)

(** X9: [printStatus]: it never waits and returns from every state.  It
    keeps the chip selected over both reads: one frame of four bytes,
    0x05, 0x00, 0x07, 0x00, so the opcode 0x07 of the second status
    register goes out inside the frame of the first read.  On [Serial] it
    prints the two labels, each followed by a line with the byte received
    after it, in binary: the second and the fourth byte of the frame. *)
Theorem printStatus_one_frame_two_lines (s : state) :
  exists g s',
    printStatus chip s = Some (tt, s') /\
    mosi g = [SPIFLASH_STATUSREAD; 0; SPIFLASH_STATUSREAD2; 0] /\
    serial s' =
      serial s ++
      [SerialPrint label_status1;
       SerialPrintlnNum (nth 1 (received g) 0) BIN;
       SerialPrint label_status2;
       SerialPrintlnNum (nth 3 (received g) 0) BIN] /\
    returned s s' (CS_LOW :: xfers g ++ [CS_HIGH]).
Proof.
  destruct (total_printStatus s) as ([] & s' & E).
  destruct (printStatus_printed chip _ _ E)
    as (l & g & u & (Hg & ->) & -> & ->).
  exists g. eexists. split; [exact E|]. split; [exact Hg|].
  split; [reflexivity|]. apply returned_console.
Qed.

(** X10: [printRDID]: it never waits and returns from every state.  It
    sends one frame, the opcode 0x9f and 320 zero bytes, and prints the
    320 bytes the chip answers to the zero bytes, in order, on ten lines.
    It leaves the chip deselected and the SPI settings restored. *)
Theorem printRDID_prints_320_bytes (s : state) :
  exists g l s',
    printRDID chip s = Some (tt, s') /\
    mosi g = SPIFLASH_IDREAD :: repeat 0 320 /\
    serial s' = serial s ++ l /\
    printed_values l = skipn 1 (received g) /\
    length (printed_values l) = 320%nat /\
    newlines l = 10%nat /\
    returned s s' (CS_LOW :: xfers g ++ [CS_HIGH]).
Proof.
  destruct (total_printRDID s) as ([] & s' & E).
  destruct (printRDID_printed chip _ _ E)
    as (l & g & u & (Hg & ->) & -> & Hv & Hl).
  exists g, l. eexists. split; [exact E|]. split; [exact Hg|].
  split; [reflexivity|]. split; [exact Hv|]. split; [|split].
  - rewrite Hv, length_skipn. unfold received. rewrite length_map.
    rewrite <- (length_map fst g). fold (mosi g). rewrite Hg.
    vm_compute. reflexivity.
  - exact Hl.
  - apply returned_console.
Qed.

(** ** Interrupts *)

(** X11: interrupts: every method that talks to the chip, [command]
    apart, returns with the interrupts switched on, also when the caller
    had switched them off; [command] returns with them off; [sleep],
    [wakeup] and [end] leave them as they are. *)
Theorem interrupts_on_after_every_transaction
  (fuel : nat) (op : public_op) (s : state) (r : result) (s' : state) :
  run chip fuel op s = Some (r, s') ->
  irq s' =
    if is_command op then false
    else if transacts op then true
    else irq s.
Proof.
  intros H. destruct (is_command op) eqn:Ec.
  - destruct op; try discriminate Ec. unfold run, void in H.
    apply bind_Some in H. destruct H as ([] & s1 & H & Hr).
    apply command_spec in H. destruct H as (t & x & _ & ->).
    apply ret_Some in Hr. destruct Hr as [_ ->]. reflexivity.
  - destruct (transacts op) eqn:Et.
    + destruct (run_emits chip fuel op s r s' Ec H) as (t & _ & _ & Hret).
      destruct (Hret Et) as (_ & _ & _ & Hi & _). exact Hi.
    + destruct op; try discriminate Et; unfold run, void in H;
        apply bind_Some in H; destruct H as ([] & s1 & H & Hr);
        apply ret_Some in Hr; destruct Hr as [_ ->].
      * apply ret_Some in H. destruct H as [_ ->]. reflexivity.
      * apply ret_Some in H. destruct H as [_ ->]. reflexivity.
      * unfold end_, SPI_library, modify in H. injection H as <-.
        reflexivity.
Qed.

(** ** Methods that only read *)

(** X12: the reading methods, [readStatus], [busy], [printStatus],
    [printRDID], [readByte], [readBytes], [readDeviceId] and
    [readUniqueId]: no frame they put on the bus starts with an opcode
    other than the status read 0x05 and the read opcodes 0x03, 0x0B, 0x9f
    and 0x4B, so none starts with the write enable, the status write, the
    page program or an erase; and at most one of their frames is not a
    status poll. *)
Theorem reading_methods_send_no_write_opcode
  (fuel : nat) (op : public_op) (s : state) (r : result) (s' : state) :
  read_only op = true ->
  run chip fuel op s = Some (r, s') ->
  exists t,
    bus s' = bus s ++ t /\
    (forall x,
       In x (opcodes t) ->
       In x [SPIFLASH_STATUSREAD; SPIFLASH_ARRAYREADLOWFREQ;
             SPIFLASH_ARRAYREAD; SPIFLASH_IDREAD; SPIFLASH_MACREAD]) /\
    (length (commands t) <= 1)%nat.
Proof.
  intros Hro H.
  assert (Ec : is_command op = false) by (destruct op; try discriminate Hro; reflexivity).
  destruct (run_emits chip fuel op s r s' Ec H) as (t & Ht & Hbus & _).
  exists t. split; [exact Hbus|].
  destruct op; try discriminate Hro; inversion Ht; subst;
    match goal with
    | Hf : one_frame [SPIFLASH_STATUSREAD; 0] ?g t |- _ =>
        split;
        [ intros x Hx; rewrite (one_frame_opcode _ _ _ _ _ Hf Hx);
          simpl; tauto
        | rewrite (poll_frame_commands _ _ Hf); simpl; lia ]
    | Hf : one_frame _ ?g t |- _ =>
        split;
        [ intros x Hx; rewrite (one_frame_opcode _ _ _ _ _ Hf Hx);
          simpl; tauto
        | rewrite (one_frame_commands _ _ _ Hf) by reflexivity;
          simpl; lia ]
    | Hf : transaction false _ ?g t |- _ =>
        split;
        [ intros x Hx;
          destruct (transaction_read_opcode _ _ _ _ _ Hf Hx) as [-> | ->];
          simpl; tauto
        | rewrite (transaction_commands _ _ _ _ Hf) by reflexivity;
          simpl; lia ]
    end.
Qed.

(** ** Addresses *)

Lemma readByte_congr fuel a b :
  a mod 2 ^ 24 = b mod 2 ^ 24 ->
  readByte chip fuel a = readByte chip fuel b.
Proof.
  intros H. unfold readByte. rewrite (send_address_congr chip _ _ H).
  reflexivity.
Qed.

Lemma readBytes_congr fuel a b len :
  a mod 2 ^ 24 = b mod 2 ^ 24 ->
  readBytes chip fuel a len = readBytes chip fuel b len.
Proof.
  intros H. unfold readBytes. rewrite (send_address_congr chip _ _ H).
  reflexivity.
Qed.

Lemma writeByte_congr fuel a b byt :
  a mod 2 ^ 24 = b mod 2 ^ 24 ->
  writeByte chip fuel a byt = writeByte chip fuel b byt.
Proof.
  intros H. unfold writeByte. rewrite (send_address_congr chip _ _ H).
  reflexivity.
Qed.

Lemma writeBytes_congr fuel a b buf len :
  a mod 2 ^ 24 = b mod 2 ^ 24 ->
  writeBytes chip fuel a buf len = writeBytes chip fuel b buf len.
Proof.
  intros H. unfold writeBytes. rewrite (send_address_congr chip _ _ H).
  reflexivity.
Qed.

Lemma erase_loop_congr (erase : Z -> M unit) step n a b s :
  (forall x y, x mod 2 ^ 24 = y mod 2 ^ 24 -> erase x = erase y) ->
  a mod 2 ^ 24 = b mod 2 ^ 24 ->
  erase_loop erase step n a s = erase_loop erase step n b s.
Proof.
  intros Hc H.
  rewrite (erase_loop_from erase step a Hc n 0%nat b s)
    by (rewrite Z.mul_0_r, Z.add_0_r; symmetry; exact H).
  apply (erase_loop_from erase step a Hc).
  rewrite Z.mul_0_r, Z.add_0_r. reflexivity.
Qed.

(** X13: addresses: the methods take a [long] and send its low 24 bits,
    so two addresses that differ by a multiple of 2^24 are the same
    address to every method: the read, write and erase methods, the 32K
    and 512K erases with their eight steps included, run alike on both,
    with the same result, the same bytes on the bus and the same state
    afterwards. *)
Theorem addresses_are_taken_modulo_2_24
  (fuel : nat) (op : public_op) (a b : Z) (s : state) :
  a mod 2 ^ 24 = b mod 2 ^ 24 ->
  run chip fuel (at_address op a) s = run chip fuel (at_address op b) s.
Proof.
  intros H. destruct op; try reflexivity; unfold at_address, run, void.
  - rewrite (readByte_congr fuel a b H). reflexivity.
  - rewrite (readBytes_congr fuel a b _ H). reflexivity.
  - rewrite (writeByte_congr fuel a b _ H). reflexivity.
  - rewrite (writeBytes_congr fuel a b _ _ H). reflexivity.
  - rewrite (blockErase4K_congr chip fuel a b H). reflexivity.
  - unfold blockErase32K, bind.
    rewrite (erase_loop_congr _ _ _ a b s (blockErase4K_congr chip fuel) H).
    reflexivity.
  - rewrite (blockErase64K_congr chip fuel a b H). reflexivity.
  - unfold blockErase512K, bind.
    rewrite (erase_loop_congr _ _ _ a b s (blockErase64K_congr chip fuel) H).
    reflexivity.
Qed.

(** ** What a call leaves alone *)


(** ** command *)



(** ** A sequence of calls *)

Lemma run_keeps_deselected fuel op s r s' :
  is_command op = false ->
  SS s = HIGH ->
  run chip fuel op s = Some (r, s') ->
  SS s' = HIGH.
Proof.
  intros Ec Hs H. destruct (transacts op) eqn:Et.
  - destruct (run_emits chip fuel op s r s' Ec H) as (t & _ & _ & Hret).
    destruct (Hret Et) as (Hss & _). exact Hss.
  - destruct op; try discriminate Et; unfold run, void in H;
      apply bind_Some in H; destruct H as ([] & s1 & H & Hr);
      apply ret_Some in Hr; destruct Hr as [_ ->].
    + apply ret_Some in H. destruct H as [_ ->]. exact Hs.
    + apply ret_Some in H. destruct H as [_ ->]. exact Hs.
    + unfold end_, SPI_library, modify in H. injection H as <-.
      exact Hs.
Qed.

Lemma emits_driver_opcodes jedec op r t x :
  emits jedec op r t -> In x (opcodes t) -> In x driver_opcodes.
Proof.
  intros Ht Hx. pose proof (emits_opcode chip jedec op r t x Ht Hx) as Ho.
  unfold driver_opcodes.
  destruct Ho as [-> | [-> | Ho]]; [simpl; tauto | simpl; tauto |].
  destruct op; simpl in Ho; try contradiction;
    repeat match goal with
           | Hd : _ \/ _ |- _ => destruct Hd
           | Hd : _ /\ _ |- _ => destruct Hd
           end; subst; simpl; tauto.
Qed.

Lemma session_returns n ops s :
  responsive chip n -> exists rs s', session chip n ops s = Some (rs, s').
Proof.
  intros Hn. revert s. induction ops as [|op ops IH]; intros s.
  - exists [], s. reflexivity.
  - destruct (run_total chip n Hn op s) as (r & s1 & E).
    destruct (IH s1) as (rs & s' & E').
    exists (r :: rs), s'. simpl.
    rewrite (bind_eq _ _ _ _ _ E), (bind_eq _ _ _ _ _ E'). reflexivity.
Qed.

(** X16: a sketch that calls any methods other than [command], in any
    order, on a driver whose chip is deselected: when the calls return
    (with a responsive chip they do), one result each, the chip is
    deselected again and the whole traffic is well formed: the chip is
    selected one frame at a time, no byte moves while it is deselected,
    and every frame starts with one of the eleven opcodes the driver
    uses; none starts with the write disable 0x04 or the second status
    read 0x07 of the header. *)
Theorem session_traffic_is_well_formed
  (fuel : nat) (ops : list public_op) (s : state) :
  forallb (fun op => negb (is_command op)) ops = true ->
  SS s = HIGH ->
  (responsive chip fuel ->
   exists rs s', session chip fuel ops s = Some (rs, s')) /\
  (forall rs s',
     session chip fuel ops s = Some (rs, s') ->
     length rs = length ops /\
     SS s' = HIGH /\
     exists t,
       bus s' = bus s ++ t /\
       cs_discipline false t = true /\
       (forall x, In x (opcodes t) -> In x driver_opcodes) /\
       ~ In SPIFLASH_WRITEDISABLE (opcodes t) /\
       ~ In SPIFLASH_STATUSREAD2 (opcodes t)).
Proof.
  intros Hops Hs. split; [apply session_returns|].
  assert (G : forall rs s',
             session chip fuel ops s = Some (rs, s') ->
             length rs = length ops /\
             SS s' = HIGH /\
             exists t,
               bus s' = bus s ++ t /\
               cs_discipline false t = true /\
               (forall x, In x (opcodes t) -> In x driver_opcodes)).
  { revert s Hs. induction ops as [|op ops IH]; intros s Hs rs s' H.
    - apply ret_Some in H. destruct H as [-> ->].
      split; [reflexivity|]. split; [exact Hs|].
      exists []. split; [symmetry; apply app_nil_r|].
      split; [reflexivity|]. intros x [].
    - simpl in Hops. apply andb_prop in Hops. destruct Hops as [Hop Hops].
      apply negb_true_iff in Hop.
      simpl in H. apply bind_Some in H. destruct H as (r & s1 & Hr & H).
      apply bind_Some in H. destruct H as (rs' & s2 & Hrs & H).
      apply ret_Some in H. destruct H as [-> ->].
      pose proof (run_keeps_deselected _ _ _ _ _ Hop Hs Hr) as Hs1.
      destruct (run_emits chip fuel op s r s1 Hop Hr) as (t & Ht & Hb & _).
      destruct (IH Hops s1 Hs1 rs' s2 Hrs)
        as (Hl & Hs2 & t' & Hb' & Hd' & Ho').
      split; [simpl; rewrite Hl; reflexivity|]. split; [exact Hs2|].
      exists (t ++ t'). pose proof (emits_discipline _ _ _ _ Ht) as Hd.
      split; [rewrite Hb', Hb, app_assoc; reflexivity|].
      split; [apply (cs_discipline_app _ _ _ Hd); exact Hd'|].
      intros x Hx. rewrite (opcodes_app false) in Hx by exact Hd.
      apply in_app_or in Hx. destruct Hx as [Hx | Hx].
      + exact (emits_driver_opcodes _ _ _ _ _ Ht Hx).
      + exact (Ho' x Hx). }
  intros rs s' H. destruct (G rs s' H) as (Hl & Hs' & t & Hb & Hd & Ho).
  split; [exact Hl|]. split; [exact Hs'|]. exists t.
  split; [exact Hb|]. split; [exact Hd|]. split; [exact Ho|].
  split; intros Hx; apply Ho in Hx; unfold driver_opcodes in Hx;
    simpl in Hx;
    repeat match goal with
           | Hd0 : _ \/ _ |- _ => destruct Hd0
           end; try discriminate; contradiction.
Qed.

End Further.

(** ** Runs of the further properties *)

(** The bus without a chip shows busy for ever. *)
Lemma absent_chip_always_busy : always_busy absent_chip.
Proof. intros tr. reflexivity. Qed.

(** A driver built with the four bytes 0x01 0x20 0x18 0x4D of the
    S25FL127S as expected identifier, facing that chip: [initialize]
    reads 0x012018 and fails. *)
Lemma initialize_rejects_identifier_beyond_24_bits_witness :
  (_jedecID (flash 0x0120184D) < 0 \/ 2 ^ 24 <= _jedecID (flash 0x0120184D)) /\
  (forall n, responsive S25FL127S_chip n ->
             exists s',
               initialize S25FL127S_chip n (flash 0x0120184D) =
                 Some (false, s')) /\
  (forall fuel b s',
     initialize S25FL127S_chip fuel (flash 0x0120184D) = Some (b, s') ->
     b = false /\
     exists t,
       bus s' = bus (flash 0x0120184D) ++ t /\
       commands t = [[SPIFLASH_IDREAD; 0; 0; 0]]).
Proof.
  split; [right; vm_compute; discriminate|].
  apply (initialize_rejects_identifier_beyond_24_bits S25FL127S_chip
           (flash 0x0120184D)).
  right. vm_compute. discriminate.
Defined.

(** [initialize] with the right identifier expected. *)
Lemma initialize_unprotects_exactly_on_success_witness :
  exists b s',
    initialize S25FL127S_chip 1 (flash 0x012018) = Some (b, s') /\
    b = true /\
    SS_output s' = true /\ SS s' = HIGH /\
    SPCR s' = SPCR (flash 0x012018) /\ SPSR s' = SPSR (flash 0x012018) /\
    irq s' = true /\
    exists t,
      bus s' = bus (flash 0x012018) ++ CS_HIGH :: t /\
      commands (CS_HIGH :: t) =
        (if _jedecID (flash 0x012018) =? 0 then []
         else [[SPIFLASH_IDREAD; 0; 0; 0]]) ++
        (if b then [[SPIFLASH_WRITEENABLE]; [SPIFLASH_STATUSWRITE; 0]]
         else []).
Proof.
  eexists _, _. split; [vm_compute; reflexivity|]. split; [reflexivity|].
  refine (initialize_unprotects_exactly_on_success S25FL127S_chip 1%nat
            (flash 0x012018) true _ _).
  vm_compute. reflexivity.
Defined.

(** [readUniqueId] against the chip that answers 1 now and then. *)
Lemma readUniqueId_stores_last_12_bytes_witness :
  length (UNIQUEID (flash 0)) = 12%nat /\
  exists v s',
    readUniqueId stuttering_chip 2 (flash 0) = Some (v, s') /\
    exists g t,
      transaction false (SPIFLASH_MACREAD :: repeat 0 16) g t /\
      bus s' = bus (flash 0) ++ t /\
      v = skipn 5 (received g) /\
      length v = 12%nat /\
      UNIQUEID s' = v.
Proof.
  split; [reflexivity|].
  eexists _, _. split; [vm_compute; reflexivity|].
  apply (proj2 (readUniqueId_stores_last_12_bytes stuttering_chip 2%nat
                  (flash 0) eq_refl)).
  vm_compute. reflexivity.
Defined.

(** [readBytes(0x012345, buf, 3)]. *)
Lemma readBytes_fills_len_bytes_witness :
  exists buf s',
    readBytes stuttering_chip 2 0x012345 3 (flash 0) = Some (buf, s') /\
    exists g t,
      transaction false
        (SPIFLASH_ARRAYREAD :: address_bytes 0x012345 ++ 0 :: repeat 0 3)
        g t /\
      bus s' = bus (flash 0) ++ t /\
      buf = skipn 5 (received g) /\
      length buf = 3%nat.
Proof.
  eexists _, _. split; [vm_compute; reflexivity|].
  apply (proj2 (readBytes_fills_len_bytes stuttering_chip 2%nat 0x012345
                  3%nat (flash 0))).
  vm_compute. reflexivity.
Defined.

(** [writeBytes(0x0100FE, buf, 2)] with a buffer of three entries, the
    second wider than a byte. *)
Lemma writeBytes_sends_first_len_bytes_witness :
  (2 <= length [0x11; 0x222; 0x33])%nat /\
  exists s',
    writeBytes stuttering_chip 2 0x0100FE [0x11; 0x222; 0x33] 2 (flash 0) =
      Some (tt, s') /\
    exists t,
      bus s' = bus (flash 0) ++ t /\
      commands t =
        [[SPIFLASH_WRITEENABLE];
         SPIFLASH_BYTEPAGEPROGRAM :: address_bytes 0x0100FE ++
         map to_byte (firstn 2 [0x11; 0x222; 0x33])].
Proof.
  split; [simpl; lia|].
  eexists. split; [vm_compute; reflexivity|].
  apply (proj2 (writeBytes_sends_first_len_bytes stuttering_chip 2%nat
                  0x0100FE [0x11; 0x222; 0x33] 2%nat (flash 0)
                  ltac:(simpl; lia))).
  vm_compute. reflexivity.
Defined.

(** Without a chip [readByte] does not return within 1000 polls;
    [busy] says true. *)
Lemma methods_that_wait_hang_on_busy_chip_witness :
  always_busy absent_chip /\
  (exists s',
     run absent_chip 1000 Op_busy (flash 0) = Some (R_boolean true, s')) /\
  (waits (Op_readByte 0) = true ->
   run absent_chip 1000 (Op_readByte 0) (flash 0) = None) /\
  (waits (Op_readByte 0) = false ->
   exists r s', run absent_chip 1000 (Op_readByte 0) (flash 0) = Some (r, s')).
Proof.
  split; [intros tr; reflexivity|].
  apply (methods_that_wait_hang_on_busy_chip absent_chip 1000%nat
           (Op_readByte 0) (flash 0)).
  intros tr. reflexivity.
Defined.

(** [readStatus] called with the interrupts off returns with them on. *)
Lemma interrupts_on_after_every_transaction_witness :
  irq (quiet (flash 0)) = false /\
  exists r s',
    run ready_chip 1 Op_readStatus (quiet (flash 0)) = Some (r, s') /\
    irq s' =
      if is_command Op_readStatus then false
      else if transacts Op_readStatus then true
      else irq (quiet (flash 0)).
Proof.
  split; [reflexivity|].
  eexists _, _. split; [vm_compute; reflexivity|].
  eapply (interrupts_on_after_every_transaction ready_chip 1%nat
           Op_readStatus (quiet (flash 0))).
  vm_compute. reflexivity.
Defined.

(** [readBytes] against the chip that keeps the driver waiting. *)
Lemma reading_methods_send_no_write_opcode_witness :
  read_only (Op_readBytes 0x10 2) = true /\
  exists r s',
    run stuttering_chip 2 (Op_readBytes 0x10 2) (flash 0) = Some (r, s') /\
    exists t,
      bus s' = bus (flash 0) ++ t /\
      (forall x,
         In x (opcodes t) ->
         In x [SPIFLASH_STATUSREAD; SPIFLASH_ARRAYREADLOWFREQ;
               SPIFLASH_ARRAYREAD; SPIFLASH_IDREAD; SPIFLASH_MACREAD]) /\
      (length (commands t) <= 1)%nat.
Proof.
  split; [reflexivity|].
  eexists _, _. split; [vm_compute; reflexivity|].
  eapply (reading_methods_send_no_write_opcode stuttering_chip 2%nat
           (Op_readBytes 0x10 2) (flash 0) _ _ eq_refl).
  vm_compute. reflexivity.
Defined.

(** Address 0x1000010 is address 0x10 to [blockErase32K]. *)
Lemma addresses_are_taken_modulo_2_24_witness :
  0x1000010 mod 2 ^ 24 = 0x10 mod 2 ^ 24 /\
  run stuttering_chip 2 (at_address (Op_blockErase32K 0) 0x1000010) (flash 0) =
  run stuttering_chip 2 (at_address (Op_blockErase32K 0) 0x10) (flash 0).
Proof.
  split; [reflexivity|].
  apply (addresses_are_taken_modulo_2_24 stuttering_chip 2%nat
           (Op_blockErase32K 0) 0x1000010 0x10 (flash 0)).
  reflexivity.
Defined.



(** A sketch: initialize, erase a block, write three bytes, read them. *)
Lemma session_traffic_is_well_formed_witness :
  forallb (fun op => negb (is_command op))
    [Op_initialize; Op_blockErase4K 0; Op_writeBytes 0 [1; 2; 3] 3;
     Op_readBytes 0 3; Op_end] = true /\
  SS (flash 0x012018) = HIGH /\
  exists rs s',
    session S25FL127S_chip 1
      [Op_initialize; Op_blockErase4K 0; Op_writeBytes 0 [1; 2; 3] 3;
       Op_readBytes 0 3; Op_end] (flash 0x012018) = Some (rs, s') /\
    length rs =
      length [Op_initialize; Op_blockErase4K 0; Op_writeBytes 0 [1; 2; 3] 3;
              Op_readBytes 0 3; Op_end] /\
    SS s' = HIGH /\
    exists t,
      bus s' = bus (flash 0x012018) ++ t /\
      cs_discipline false t = true /\
      (forall x, In x (opcodes t) -> In x driver_opcodes) /\
      ~ In SPIFLASH_WRITEDISABLE (opcodes t) /\
      ~ In SPIFLASH_STATUSREAD2 (opcodes t).
Proof.
  split; [reflexivity|]. split; [reflexivity|].
  eexists _, _. split; [vm_compute; reflexivity|].
  apply (proj2 (session_traffic_is_well_formed S25FL127S_chip 1%nat
                  [Op_initialize; Op_blockErase4K 0;
                   Op_writeBytes 0 [1; 2; 3] 3; Op_readBytes 0 3; Op_end]
                  (flash 0x012018) eq_refl eq_refl)).
  vm_compute. reflexivity.
Defined.

(** [readDeviceId] of the S25FL127S. *)
Example readDeviceId_of_S25FL127S :
  option_map fst (readDeviceId S25FL127S_chip (flash 0)) = Some 0x012018.
Proof. vm_compute. reflexivity. Qed.

(** What [printStatus] prints when both registers read zero. *)
Example printStatus_on_flash :
  option_map (fun x => serial (snd x)) (printStatus ready_chip (flash 0)) =
  Some [SerialPrint label_status1; SerialPrintlnNum 0 BIN;
        SerialPrint label_status2; SerialPrintlnNum 0 BIN].
Proof. vm_compute. reflexivity. Qed.
